(** * bcp-charger-api: the frame codec, the payload decoders and the
      command session of [ChargerController], embedded from [src/index.js].

    Strings are lists of 8-bit code units ([list ascii]); the frames of the
    protocol are hexadecimal ASCII text.  JavaScript numbers that the codec
    computes are integers, [NaN] or an infinity; they are modelled exactly
    (type [number]), which agrees with IEEE doubles below [2^53].  Only two
    places leave the integers: a caller's numeric argument before
    [Math.trunc], and a reading divided by ten (type [real], over [Q]). *)

From Stdlib Require Import ZArith List Ascii String Bool Lia QArith Qround.
Import ListNotations.
Local Open Scope Z_scope.

(* ------------------------------------------------------------------ *)
(** ** JavaScript primitives used by the source *)
(* ------------------------------------------------------------------ *)

Module JS.

Definition jstring := list ascii.

(** A string literal. *)
Definition str (s : string) : jstring := list_ascii_of_string s.

Definition code (c : ascii) : Z := Z.of_N (N_of_ascii c).

Definition length (s : jstring) : Z := Z.of_nat (List.length s).

Fixpoint string_eqb (a b : jstring) : bool :=
  match a, b with
  | [], [] => true
  | x :: a', y :: b' => Ascii.eqb x y && string_eqb a' b'
  | _, _ => false
  end.

(** [s.substring(a, b)]: both indices are clamped to [0, s.length] and
    swapped when [a > b]. *)
Definition clamp (len x : Z) : Z := Z.max 0 (Z.min x len).

Definition substring (s : jstring) (a b : Z) : jstring :=
  let len := length s in
  let a' := clamp len a in
  let b' := clamp len b in
  let lo := Z.min a' b' in
  let hi := Z.max a' b' in
  firstn (Z.to_nat (hi - lo)) (skipn (Z.to_nat lo) s).

(** [s.substring(a)] *)
Definition substring_from (s : jstring) (a : Z) : jstring :=
  substring s a (length s).

Fixpoint startsWith (s p : jstring) {struct p} : bool :=
  match p with
  | [] => true
  | y :: p' =>
      match s with
      | x :: s' => Ascii.eqb x y && startsWith s' p'
      | [] => false
      end
  end.

(** [s.replaceAll(' ', '')] *)
Definition remove_spaces (s : jstring) : jstring :=
  filter (fun c => negb (Ascii.eqb c " "%char)) s.

(** [s.padStart(n, c)] for a one-character filler. *)
Definition padStart (s : jstring) (n : Z) (c : ascii) : jstring :=
  repeat c (Z.to_nat (n - length s)) ++ s.

(** Integer-valued numbers, [NaN] and the two infinities. *)
Inductive number :=
| NaN
| Inf (negative : bool)
| Int (z : Z).

(** Any number a caller may pass: finite values are exact rationals. *)
Inductive real :=
| RNaN
| RInf (negative : bool)
| RFin (q : Q).

Definition add (a b : number) : number :=
  match a, b with
  | NaN, _ | _, NaN => NaN
  | Inf x, Inf y => if Bool.eqb x y then Inf x else NaN
  | Inf x, Int _ | Int _, Inf x => Inf x
  | Int x, Int y => Int (x + y)
  end.

Definition sub (a b : number) : number :=
  match a, b with
  | NaN, _ | _, NaN => NaN
  | Inf x, Inf y => if Bool.eqb x y then NaN else Inf x
  | Inf x, Int _ => Inf x
  | Int _, Inf y => Inf (negb y)
  | Int x, Int y => Int (x - y)
  end.

(** [a % b]: the sign follows the dividend. *)
Definition rem (a b : number) : number :=
  match a, b with
  | Int x, Int y => if y =? 0 then NaN else Int (Z.rem x y)
  | Int x, Inf _ => Int x
  | _, _ => NaN
  end.

(** [a === b] on numbers: [NaN] equals nothing. *)
Definition strict_eq (a b : number) : bool :=
  match a, b with
  | Int x, Int y => x =? y
  | Inf x, Inf y => Bool.eqb x y
  | _, _ => false
  end.

(** [a < b] on numbers. *)
Definition lt (a b : number) : bool :=
  match a, b with
  | Int x, Int y => x <? y
  | Inf true, Int _ | Int _, Inf false | Inf true, Inf false => true
  | _, _ => false
  end.

(** [a || b] on numbers: [NaN] and zero are falsy. *)
Definition or_else (a b : number) : number :=
  match a with
  | NaN | Int 0 => b
  | _ => a
  end.

(** [Math.min(a, b)] *)
Definition Math_min (a b : number) : number :=
  match a, b with
  | NaN, _ | _, NaN => NaN
  | _, _ => if lt b a then b else a
  end.

(** [Math.trunc(x)]: rounds towards zero. *)
Definition Qtrunc (q : Q) : Z :=
  if (Qnum q <? 0) then Qceiling q else Qfloor q.

Definition Math_trunc (x : real) : number :=
  match x with
  | RNaN => NaN
  | RInf b => Inf b
  | RFin q => Int (Qtrunc q)
  end.

(** [x / 10] *)
Definition div10 (x : number) : real :=
  match x with
  | NaN => RNaN
  | Inf b => RInf b
  | Int z => RFin (z # 10)
  end.

(** Value of a character as a digit (any radix up to 36). *)
Definition digit_value (c : ascii) : option Z :=
  let n := code c in
  if (48 <=? n) && (n <=? 57) then Some (n - 48)
  else if (97 <=? n) && (n <=? 122) then Some (n - 87)
  else if (65 <=? n) && (n <=? 90) then Some (n - 55)
  else None.

Definition is_digit (radix : Z) (c : ascii) : bool :=
  match digit_value c with
  | Some v => v <? radix
  | None => false
  end.

(** White space among the code units below 256. *)
Definition is_whitespace (c : ascii) : bool :=
  let n := code c in
  ((9 <=? n) && (n <=? 13)) || (n =? 32) || (n =? 160).

Fixpoint trim_start (s : jstring) : jstring :=
  match s with
  | c :: r => if is_whitespace c then trim_start r else s
  | [] => []
  end.

(** Longest prefix of digits, most significant first; [acc] is [None]
    until a digit has been read. *)
Fixpoint parse_digits (radix : Z) (s : jstring) (acc : option Z) : option Z :=
  match s with
  | c :: r =>
      match digit_value c with
      | Some v =>
          if v <? radix
          then parse_digits radix r
                 (Some (radix * match acc with Some a => a | None => 0 end + v))
          else acc
      | None => acc
      end
  | [] => acc
  end.

Definition strip_sign (s : jstring) : bool * jstring :=
  match s with
  | c :: r =>
      if Ascii.eqb c "-"%char then (true, r)
      else if Ascii.eqb c "+"%char then (false, r)
      else (false, s)
  | [] => (false, [])
  end.

Definition strip_0x (s : jstring) : jstring :=
  match s with
  | z :: x :: r =>
      if Ascii.eqb z "0"%char && (Ascii.eqb x "x"%char || Ascii.eqb x "X"%char)
      then r else s
  | _ => s
  end.

(** [parseInt(s, radix)] for an explicit radix between 2 and 36.  The
    result here is the exact integer of the digit run; the source computes
    with doubles, which hold the same integer as long as it does not exceed
    [2^53], and beyond that round it.  Statements about numerals of
    unbounded length therefore carry that bound. *)
Definition parseInt (s : jstring) (radix : Z) : number :=
  let '(neg, s2) := strip_sign (trim_start s) in
  let s3 := if radix =? 16 then strip_0x s2 else s2 in
  match parse_digits radix s3 None with
  | None => NaN
  | Some v => Int (if neg then - v else v)
  end.

Definition digit_char (v : Z) : ascii :=
  nth (Z.to_nat v) (str "0123456789abcdefghijklmnopqrstuvwxyz") "?"%char.

(** Digits of a non-negative integer, most significant first. *)
Fixpoint to_digits (fuel : nat) (radix z : Z) : jstring :=
  match fuel with
  | O => []
  | S f =>
      if z <? radix then [digit_char z]
      else to_digits f radix (z / radix) ++ [digit_char (z mod radix)]
  end.

Definition digits (radix z : Z) : jstring :=
  to_digits (S (Z.to_nat (Z.log2 z))) radix z.

(** [n.toString(radix)] on an integer-valued number. *)
Definition toString (n : number) (radix : Z) : jstring :=
  match n with
  | NaN => str "NaN"
  | Inf false => str "Infinity"
  | Inf true => str "-Infinity"
  | Int z => if z <? 0 then "-"%char :: digits radix (- z) else digits radix z
  end.

(** [Buffer.from(s, 'utf8')] for code units below 256: one byte below
    128, two bytes from 128 on. *)
Definition utf8_bytes (s : jstring) : list Z :=
  flat_map (fun c =>
              let n := code c in
              if n <? 128 then [n] else [192 + n / 64; 128 + n mod 64]) s.

Definition upper_digit_char (v : Z) : ascii :=
  nth (Z.to_nat v) (str "0123456789ABCDEF") "?"%char.

(** [buffer.toString('hex').toUpperCase()] *)
Definition hex_upper (bytes : list Z) : jstring :=
  flat_map (fun b => [upper_digit_char (b / 16); upper_digit_char (b mod 16)])
    bytes.

(** [s[i] === c] : an index past the end gives [undefined]. *)
Definition char_at_is (s : jstring) (i : nat) (c : ascii) : bool :=
  match nth_error s i with
  | Some x => Ascii.eqb x c
  | None => false
  end.

(** [a * b] *)
Definition mul (a b : number) : number :=
  match a, b with
  | NaN, _ | _, NaN => NaN
  | Int x, Int y => Int (x * y)
  | Inf x, Inf y => Inf (xorb x y)
  | Inf x, Int y | Int y, Inf x =>
      if y =? 0 then NaN else Inf (xorb x (y <? 0))
  end.

End JS.

Import JS.

(* ------------------------------------------------------------------ *)
(** ** class CommandUtil *)
(* ------------------------------------------------------------------ *)

Definition FRAME_HEADER : jstring := str "55aa".
Definition MESSAGE_ID : jstring := str "0001".

Record ParsedMessage := {
  raw : jstring;
  command : jstring;
  data : jstring
}.

Module CommandUtil.

(** The only field of the object: [password], [None] when the constructor
    received [undefined]. *)
Record t := { password : option jstring }.

(** The loop of [checksum]: [for (i = 0; i < length; i += 2)]. *)
Fixpoint checksum_loop (fuel : nat) (input : jstring) (len i : Z)
                       (chk : number) : number :=
  match fuel with
  | O => chk
  | S f =>
      if i <? len
      then checksum_loop f input len (i + 2)
             (add chk (parseInt (substring input i (i + 2)) 16))
      else chk
  end.

Definition checksum (input : jstring) : jstring :=
  match input with
  | [] => str "00"
  | _ =>
      let input := remove_spaces input in
      let len := length input in
      if negb (Z.rem len 2 =? 0) then str "00"
      else
        let chk := checksum_loop (S (List.length input)) input len 0 (Int 0) in
        let chk := rem chk (Int 256) in
        padStart (toString chk 16) 2 "0"%char
  end.

Definition testChecksum (input : jstring) : bool :=
  let chk1 := substring_from input (length input - 2) in
  let chk2 := checksum (substring input 0 (length input - 2)) in
  string_eqb chk2 chk1.

(** [this.password || '123456'] *)
Definition effective_password (u : t) : jstring :=
  match password u with
  | None | Some [] => str "123456"
  | Some p => p
  end.

Definition encodedPwd (u : t) : jstring :=
  padStart (toString (parseInt (effective_password u) 10) 16) 8 "0"%char.

Definition lengthHex (u : t) (command : jstring) : jstring :=
  let len :=
    Z.quot (length FRAME_HEADER + length MESSAGE_ID
            + length (encodedPwd u) + length command) 2 + 2 in
  padStart (toString (Int len) 16) 2 "0"%char.

(** The frame without its checksum ([full] in the source). *)
Definition full (u : t) (command : jstring) : jstring :=
  FRAME_HEADER ++ MESSAGE_ID ++ lengthHex u command ++ encodedPwd u ++ command.

Definition compileMessage (u : t) (command : jstring) : jstring :=
  full u command ++ checksum (full u command).

Definition parseResult (input : jstring) : option ParsedMessage :=
  match input with
  | [] => None
  | _ =>
      if length input <? 13 then None
      else if negb (startsWith input FRAME_HEADER) then None
      else if negb (testChecksum input) then None
      else Some {| raw := input;
                   command := substring input 10 12;
                   data := substring_from input 12 |}
  end.

Definition decodeBoolean (input : jstring) : bool :=
  string_eqb (substring input 0 2) (str "01").

Definition encodeString (input : jstring) : jstring :=
  hex_upper (utf8_bytes input).

(** What [new Date()] reports through its local getters. *)
Record clock := {
  getFullYear : Z;
  getMonth : Z;      (* 0 is January *)
  getDate : Z;
  getHours : Z;
  getMinutes : Z;
  getSeconds : Z
}.

(** [n.toString().padStart(2, '0')] *)
Definition two_digits (n : Z) : jstring :=
  padStart (toString (Int n) 10) 2 "0"%char.

Definition getCurrentDate (now : clock) : jstring :=
  two_digits (Z.rem (getFullYear now) 100)
  ++ two_digits (getMonth now + 1)
  ++ two_digits (getDate now)
  ++ two_digits (getHours now)
  ++ two_digits (getMinutes now)
  ++ two_digits (getSeconds now).

End CommandUtil.

(* ------------------------------------------------------------------ *)
(** ** The read cursor of the payload decoders *)
(* ------------------------------------------------------------------ *)

(** The decoders walk the payload [result] with a cursor [ptr]; a reader
    takes the payload and the cursor and returns a value and the new
    cursor. *)
Module Cursor.

Definition M (A : Type) : Type := jstring -> Z -> A * Z.

Definition ret {A} (a : A) : M A := fun _ ptr => (a, ptr).

Definition bind {A B} (m : M A) (k : A -> M B) : M B :=
  fun result ptr => let '(a, ptr') := m result ptr in k a result ptr'.

(** [result.substring(ptr + a, ptr + b)] *)
Definition peek (a b : Z) : M jstring :=
  fun result ptr => (substring result (ptr + a) (ptr + b), ptr).

(** [parseInt(result.substring(ptr + a, ptr + b), 16)] *)
Definition hex (a b : Z) : M number :=
  fun result ptr => (parseInt (substring result (ptr + a) (ptr + b)) 16, ptr).

(** [parseInt(result.substring(a, b), 16)] at absolute offsets. *)
Definition hex_at (a b : Z) : M number :=
  fun result ptr => (parseInt (substring result a b) 16, ptr).

(** [ptr += n] *)
Definition advance (n : Z) : M unit := fun _ ptr => (tt, ptr + n).

(** [result.length] *)
Definition len : M Z := fun result ptr => (length result, ptr).

Definition run {A} (m : M A) (result : jstring) (ptr : Z) : A :=
  fst (m result ptr).

End Cursor.

Declare Scope cursor_scope.
Delimit Scope cursor_scope with cursor.
Notation "x <- m ;; k" := (Cursor.bind m (fun x => k))
  (at level 61, m at next level, right associativity) : cursor_scope.
Notation "m ;;; k" := (Cursor.bind m (fun _ => k))
  (at level 61, right associativity) : cursor_scope.

(* ------------------------------------------------------------------ *)
(** ** [new Date(year, month, 0).getDate()] *)
(* ------------------------------------------------------------------ *)

(** The day arithmetic of the language standard, on local civil days
    (day 0 is 1 January 1970). *)
Module JSDate.

Definition DayFromYear (y : Z) : Z :=
  365 * (y - 1970) + (y - 1969) / 4 - (y - 1901) / 100 + (y - 1601) / 400.

Definition DaysInYear (y : Z) : Z :=
  if negb (y mod 4 =? 0) then 365
  else if negb (y mod 100 =? 0) then 366
  else if negb (y mod 400 =? 0) then 365
  else 366.

Definition InLeapYear (y : Z) : Z := DaysInYear y - 365.

(** First day within the year of month index [m] (0 is January). *)
Definition month_start (y m : Z) : Z :=
  let l := InLeapYear y in
  match m with
  | 0 => 0 | 1 => 31 | 2 => 59 + l | 3 => 90 + l | 4 => 120 + l
  | 5 => 151 + l | 6 => 181 + l | 7 => 212 + l | 8 => 243 + l
  | 9 => 273 + l | 10 => 304 + l | 11 => 334 + l | _ => 365 + l
  end.

Definition MakeDay (year month date : Z) : Z :=
  let ym := year + month / 12 in
  let mn := month mod 12 in
  DayFromYear ym + month_start ym mn + date - 1.

(** The year containing day [d]: the largest [y] with
    [DayFromYear y <= d], found from an estimate. *)
Fixpoint year_down (fuel : nat) (d y : Z) : Z :=
  match fuel with
  | O => y
  | S f => if d <? DayFromYear y then year_down f d (y - 1) else y
  end.

Fixpoint year_up (fuel : nat) (d y : Z) : Z :=
  match fuel with
  | O => y
  | S f => if DayFromYear (y + 1) <=? d then year_up f d (y + 1) else y
  end.

Definition YearFromDay (d : Z) : Z :=
  let y0 := 1970 + (d * 10000) / 3652425 in
  year_up 4 d (year_down 4 d y0).

Definition MonthFromDay (d : Z) : Z :=
  let y := YearFromDay d in
  let w := d - DayFromYear y in
  if w <? month_start y 1 then 0
  else if w <? month_start y 2 then 1
  else if w <? month_start y 3 then 2
  else if w <? month_start y 4 then 3
  else if w <? month_start y 5 then 4
  else if w <? month_start y 6 then 5
  else if w <? month_start y 7 then 6
  else if w <? month_start y 8 then 7
  else if w <? month_start y 9 then 8
  else if w <? month_start y 10 then 9
  else if w <? month_start y 11 then 10
  else 11.

Definition DateFromDay (d : Z) : Z :=
  let y := YearFromDay d in
  d - DayFromYear y - month_start y (MonthFromDay d) + 1.

Definition msPerDay : Z := 86400000.

(** [new Date(year, month, date).getDate()] for integer arguments: a
    two-digit year counts from 1900, and a date outside the range of time
    values is invalid ([NaN]). *)
Definition getDate_of (year month date : Z) : number :=
  let yr := if (0 <=? year) && (year <=? 99) then 1900 + year else year in
  let day := MakeDay yr month date in
  if Z.abs (day * msPerDay) <=? 8640000000000000
  then Int (DateFromDay day)
  else NaN.

End JSDate.

(* ------------------------------------------------------------------ *)
(** ** class ChargerController: requests and payload decoders *)
(* ------------------------------------------------------------------ *)

Module Command.
Definition GetChargerModel : jstring := str "04".
Definition SetTimedChargeState : jstring := str "69".
Definition Error : jstring := str "00".
Definition Heartbeat : jstring := str "01".
Definition GetIpAddress : jstring := str "03".
Definition SetWifiAccessPoint : jstring := str "05".
Definition SetDLB : jstring := str "6b".
Definition GetControlsState : jstring := str "71".
Definition SetMaxPower : jstring := str "74".
Definition SetReservation : jstring := str "75".
Definition SetTime : jstring := str "76".
Definition GetPowerConsumptionRecords : jstring := str "77".
Definition SetMaxMonthlyPower : jstring := str "78".
Definition PasswordChange : jstring := str "02".
Definition SetMaxCurrent : jstring := str "6d".
Definition GetFaultStatus : jstring := str "6e".
Definition GetRealTimeData : jstring := str "70".
Definition GetPowerConsumptionRecordsOfMonth : jstring := str "7a".
End Command.

Module ChargerMode.
Definition OnePhase : number := Int 0.
Definition ThreePhase : number := Int 1.
End ChargerMode.

Module ChargerState.
Definition Abnormal : number := Int 0.
Definition NotReady : number := Int 5.
Definition Charging : number := Int 6.
Definition SelfChecking : number := Int 7.
Definition Unplugged : number := Int 1.
Definition Standby : number := Int 2.
End ChargerState.

Record ChargeFaultStatus := {
  overVoltage : bool;
  underVoltage : bool;
  overload : bool;
  highTemperature : bool;
  groundDetection : bool;
  leakage : bool;
  cpSignalAbnormal : bool;
  emergencyStopButton : bool;
  ccSignalAbnormal : bool;
  dlbWiring : bool;
  dlbOffline : bool;
  motorLock : bool;
  sticking : option bool;
  contactor : option bool
}.

Record ChargerRealTimeData := {
  electricCurrent : option number;
  voltage : option number;
  electricCurrentA : option number;
  electricCurrentB : option number;
  electricCurrentC : option number;
  voltageA : option number;
  voltageB : option number;
  voltageC : option number;
  power : real;
  totalPower : real;
  temperature : number;
  state : number;
  timedChargeEnabled : bool;
  startChargeTime : jstring;
  endChargeTime : jstring;
  maxCurrent : option number;
  maxPower : option number;
  isReservation : option bool;
  isMaximum : option bool;
  isExtremeMode : option bool
}.

Record PowerConsumptionRecordsOfMonth := {
  isEffective : bool;
  days : list real
}.

Record ChargerControlsState := {
  rfid : bool;
  appControlCharging : bool;
  dlb : bool;
  groundingDetection : bool;
  temperatureThreshold : number;
  c_maxCurrent : number;            (* [maxCurrent] *)
  dlbPattern : number;
  dlbMaxCurrent : number;
  reservation : option jstring;
  reservationStart : option jstring;
  reservationEnd : option jstring;
  maxMonthlyPower : option number;
  emergencyStopProtection : option bool;
  extremeMode : option bool;
  nightMode : option bool
}.

Record PowerConsumptionRecords := {
  r_days : list real;               (* [days] *)
  months : list real;
  years : list number
}.

(** What [await this.sendCommand(...)] yields to its caller. *)
Inductive error :=
| ResultTimedOut            (* new Error('result timed out') *)
| TransportError (e : jstring)
| TypeError.

Inductive settled (A : Type) :=
| Fulfilled (a : A)
| Rejected (e : error).
Arguments Fulfilled {A} a.
Arguments Rejected {A} e.

Module ChargerController.

Import Cursor.
Local Open Scope cursor_scope.

(** The private fields the modelled methods read or write. *)
Record t := {
  util : CommandUtil.t;
  model_mode : option number;      (* this.#model?.mode *)
  lastFaultStatus : option ChargeFaultStatus;
  lastData : option ChargerRealTimeData
}.

(** [new ChargerController(password)] *)
Definition create (password : option jstring) : t :=
  {| util := {| CommandUtil.password := password |};
     model_mode := None;
     lastFaultStatus := None;
     lastData := None |}.

(** *** sendSetPassword *)

Definition sendSetPassword_request (password : jstring) : jstring :=
  Command.PasswordChange
  ++ padStart (toString (parseInt password 10) 16) 8 "0"%char.

(** The body after [await]: the statements run only when the wait was
    fulfilled. *)
Definition sendSetPassword (c : t) (password : jstring)
    (response : settled ParsedMessage) : settled bool * t :=
  match response with
  | Rejected e => (Rejected e, c)
  | Fulfilled result =>
      let c' := {| util := {| CommandUtil.password := Some password |};
                   model_mode := model_mode c;
                   lastFaultStatus := lastFaultStatus c;
                   lastData := lastData c |} in
      (Fulfilled (CommandUtil.decodeBoolean (data result)), c')
  end.

(** *** sendSetMaxCurrent *)

Definition sendSetMaxCurrent_request (maxCurrent : real) : jstring :=
  Command.SetMaxCurrent
  ++ padStart (toString (Math_min (Math_trunc maxCurrent) (Int 255)) 16)
       4 "0"%char.

Definition sendSetMaxCurrent (response : settled ParsedMessage)
    : settled bool :=
  match response with
  | Rejected e => Rejected e
  | Fulfilled result => Fulfilled (CommandUtil.decodeBoolean (data result))
  end.

(** *** sendGetFaultStatus *)

(** [parseInt(result.substring(a, b), 16) !== 0] *)
Definition fault_flag (result : jstring) (a b : Z) : bool :=
  negb (strict_eq (parseInt (substring result a b) 16) (Int 0)).

Definition decodeFaultStatus (result : jstring) : ChargeFaultStatus :=
  let isV108 := 26 <=? length result in
  {| overVoltage := fault_flag result 0 2;
     underVoltage := fault_flag result 2 4;
     overload := fault_flag result 4 6;
     highTemperature := fault_flag result 6 8;
     groundDetection := fault_flag result 8 10;
     leakage := fault_flag result 10 12;
     cpSignalAbnormal := fault_flag result 12 14;
     emergencyStopButton := fault_flag result 14 16;
     ccSignalAbnormal := fault_flag result 16 18;
     dlbWiring := fault_flag result 18 20;
     dlbOffline := fault_flag result 20 22;
     motorLock := fault_flag result 22 24;
     sticking := if isV108 then Some (fault_flag result 24 26) else None;
     contactor := if isV108 then Some (fault_flag result 26 28) else None |}.

Definition sendGetFaultStatus (c : t) (response : settled ParsedMessage)
    : settled ChargeFaultStatus * t :=
  match response with
  | Rejected e => (Rejected e, c)
  | Fulfilled result =>
      let status := decodeFaultStatus (data result) in
      (Fulfilled status,
       {| util := util c; model_mode := model_mode c;
          lastFaultStatus := Some status; lastData := lastData c |})
  end.

(** *** sendGetRealTimeData *)

(** The fields that depend on the charger mode, and the three flags
    [isV106], [isV108], [isV110]. *)
Record phase_fields := {
  p_electricCurrent : option number;
  p_voltage : option number;
  p_electricCurrentA : option number;
  p_electricCurrentB : option number;
  p_electricCurrentC : option number;
  p_voltageA : option number;
  p_voltageB : option number;
  p_voltageC : option number;
  isV106 : bool;
  isV108 : bool;
  isV110 : bool
}.

Definition read_phase (mode : number) : M phase_fields :=
  resultLengthByte <- len ;;
  if strict_eq mode ChargerMode.OnePhase then
    ec <- hex 0 4 ;;
    v <- hex 4 8 ;;
    advance 8 ;;;
    ret {| p_electricCurrent := Some ec; p_voltage := Some v;
           p_electricCurrentA := None; p_electricCurrentB := None;
           p_electricCurrentC := None;
           p_voltageA := None; p_voltageB := None; p_voltageC := None;
           isV106 := 36 <=? resultLengthByte;
           isV108 := 42 <=? resultLengthByte;
           isV110 := 44 <=? resultLengthByte |}
  else if strict_eq mode ChargerMode.ThreePhase then
    a <- hex 0 2 ;;
    b <- hex 2 4 ;;
    c <- hex 4 6 ;;
    advance 6 ;;;
    va <- hex 0 4 ;;
    vb <- hex 4 8 ;;
    vc <- hex 8 12 ;;
    advance 12 ;;;
    ret {| p_electricCurrent := None; p_voltage := None;
           p_electricCurrentA := Some a; p_electricCurrentB := Some b;
           p_electricCurrentC := Some c;
           p_voltageA := Some va; p_voltageB := Some vb; p_voltageC := Some vc;
           isV106 := 46 <=? resultLengthByte;
           isV108 := 52 <=? resultLengthByte;
           isV110 := 54 <=? resultLengthByte |}
  else
    ret {| p_electricCurrent := None; p_voltage := None;
           p_electricCurrentA := None; p_electricCurrentB := None;
           p_electricCurrentC := None;
           p_voltageA := None; p_voltageB := None; p_voltageC := None;
           isV106 := false; isV108 := false; isV110 := false |}.

(** [4] and [3] are the legacy codes of [Unplugged] and [Standby]. *)
Definition canonical_state (s : number) : number :=
  if strict_eq s (Int 4) then ChargerState.Unplugged
  else if strict_eq s (Int 3) then ChargerState.Standby
  else s.

(** [power], [totalPower], [temperature], [state]. *)
Definition read_common : M (real * real * number * number) :=
  p <- hex 0 4 ;;
  tp <- hex 4 8 ;;
  t <- hex 8 10 ;;
  s <- hex 10 12 ;;
  advance 12 ;;;
  ret (div10 p, div10 tp, sub t (Int 100), canonical_state s).

Definition read_timed : M bool :=
  s <- peek 0 2 ;;
  advance 2 ;;;
  ret (negb (string_eqb s (str "00"))).

(** One [HH:MM:SS] time of three bytes. *)
Definition read_time : M jstring :=
  h <- hex 0 2 ;;
  m <- hex 2 4 ;;
  s <- hex 4 6 ;;
  advance 6 ;;;
  ret (padStart (toString h 10) 2 "0"%char ++ str ":"
       ++ padStart (toString m 10) 2 "0"%char ++ str ":"
       ++ padStart (toString s 10) 2 "0"%char).

(** [if (isV106) { ... }] *)
Definition gate_v106 (isV106 : bool)
    : M (option number * option number * option bool) :=
  if isV106 then
    mc <- hex_at 46 48 ;;
    mp <- hex_at 48 50 ;;
    r <- hex_at 50 52 ;;
    advance 6 ;;;
    ret (Some mc, Some mp, Some (strict_eq r (Int 1)))
  else ret (None, None, None).

(** [if (isV108) { ... }] *)
Definition gate_v108 (isV108 : bool) : M (option bool) :=
  if isV108 then
    x <- hex 0 2 ;;
    advance 2 ;;;
    ret (Some (strict_eq x (Int 1)))
  else ret None.

(** [if (isV110) { ... }] *)
Definition gate_v110 (isV110 : bool) : M (option bool) :=
  if isV110 then
    x <- hex 0 2 ;;
    ret (Some (strict_eq x (Int 1)))
  else ret None.

Definition read_realtime (mode : number) : M ChargerRealTimeData :=
  ph <- read_phase mode ;;
  cm <- read_common ;;
  timed <- read_timed ;;
  start <- read_time ;;
  finish <- read_time ;;
  v106 <- gate_v106 (isV106 ph) ;;
  mx <- gate_v108 (isV108 ph) ;;
  ex <- gate_v110 (isV110 ph) ;;
  let '(p, tp, t, s) := cm in
  let '(mc, mp, r) := v106 in
  ret {| electricCurrent := p_electricCurrent ph;
         voltage := p_voltage ph;
         electricCurrentA := p_electricCurrentA ph;
         electricCurrentB := p_electricCurrentB ph;
         electricCurrentC := p_electricCurrentC ph;
         voltageA := p_voltageA ph;
         voltageB := p_voltageB ph;
         voltageC := p_voltageC ph;
         power := p; totalPower := tp; temperature := t; state := s;
         timedChargeEnabled := timed;
         startChargeTime := start; endChargeTime := finish;
         maxCurrent := mc; maxPower := mp; isReservation := r;
         isMaximum := mx; isExtremeMode := ex |}.

(** The decoder starts with [ptr = 0]. *)
Definition decodeRealTimeData (mode : number) (result : jstring)
    : ChargerRealTimeData :=
  run (read_realtime mode) result 0.


(** Reading [this.#model.mode] of a [null] model throws. *)
Definition sendGetRealTimeData (c : t) (response : settled ParsedMessage)
    : settled ChargerRealTimeData * t :=
  match response with
  | Rejected e => (Rejected e, c)
  | Fulfilled result =>
      match model_mode c with
      | None => (Rejected TypeError, c)
      | Some mode =>
          let d := decodeRealTimeData mode (data result) in
          (Fulfilled d,
           {| util := util c; model_mode := model_mode c;
              lastFaultStatus := lastFaultStatus c; lastData := Some d |})
      end
  end.

(** *** sendGetPowerConsumptionRecordsOfMonth *)

Definition sendGetPowerConsumptionRecordsOfMonth_request (year month : Z)
    : jstring :=
  let date :=
    padStart (toString (Int (if year <? 2000 then 0 else year - 2000)) 16)
      2 "0"%char
    ++ padStart (toString (Int (month - 1)) 16) 2 "0"%char in
  Command.GetPowerConsumptionRecordsOfMonth ++ date.

(** [for (let i = 0; i < monthLastDay; i++)], [n] iterations. *)
Fixpoint read_days (n : nat) : M (list real) :=
  match n with
  | O => ret []
  | S k =>
      x <- hex 0 4 ;;
      advance 4 ;;;
      rest <- read_days k ;;
      ret (div10 (or_else x (Int 0)) :: rest)
  end.

(** The number of times the loop test [i < monthLastDay] succeeds. *)
Definition iterations (monthLastDay : number) : nat :=
  match monthLastDay with
  | Int z => Z.to_nat z
  | _ => O
  end.

Definition decodeRecordsOfMonth (year month : Z) (result : jstring)
    : PowerConsumptionRecordsOfMonth :=
  let monthLastDay := JSDate.getDate_of year month 0 in
  let isEffective := string_eqb (substring result 0 2) (str "01") in
  {| isEffective := isEffective;
     days := run (read_days (iterations monthLastDay)) result 2 |}.

Definition sendGetPowerConsumptionRecordsOfMonth (year month : Z)
    (response : settled ParsedMessage)
    : settled PowerConsumptionRecordsOfMonth :=
  match response with
  | Rejected e => Rejected e
  | Fulfilled result =>
      Fulfilled (decodeRecordsOfMonth year month (data result))
  end.

(** *** The host and the connection state *)

Definition broadcast_address : jstring := str "255.255.255.255".

(** [#socket] (is it non-null), [#isConnected], [#ipAddress], [#port]. *)
Record connection := {
  socket : bool;
  isConnected : bool;
  ipAddress : jstring;
  port : number
}.

Definition initial_connection : connection :=
  {| socket := false; isConnected := false;
     ipAddress := broadcast_address; port := Int 3333 |}.

Definition disconnect (h : connection) : connection :=
  {| socket := false; isConnected := false;
     ipAddress := ipAddress h; port := port h |}.

(** [setHost(ipAddress, port = 3333)]: [None] is an omitted argument. *)
Definition setHost (h : connection) (ip : option jstring)
    (p : option number) : connection :=
  let p := match p with Some x => x | None => Int 3333 end in
  let differs :=
    match ip with
    | Some a => negb (string_eqb a (ipAddress h))
    | None => true
    end
    || negb (strict_eq p (port h)) in
  let h := if differs then disconnect h else h in
  let ip := match ip with
            | None | Some [] => broadcast_address
            | Some a => a
            end in
  {| socket := socket h; isConnected := isConnected h;
     ipAddress := ip; port := p |}.

(** [get host()] *)
Definition host (h : connection) : jstring * number :=
  (match ipAddress h with [] => broadcast_address | a => a end,
   or_else (port h) (Int 3333)).

(** *** sendGetIpAddress *)

Definition sendGetIpAddress_request (code : jstring) : jstring :=
  Command.GetIpAddress
  ++ padStart (toString (parseInt code 10) 16) 8 "0"%char.

(** The [resultTester] passed to [sendCommand]. *)
Definition sendGetIpAddress_tester (code : jstring) (result : ParsedMessage)
    : bool :=
  strict_eq (parseInt (substring (data result) 0 8) 16) (parseInt code 10).

Definition decodeIpAddress (d : jstring) : jstring * number :=
  (toString (parseInt (substring d 8 10) 16) 10 ++ str "."
   ++ toString (parseInt (substring d 10 12) 16) 10 ++ str "."
   ++ toString (parseInt (substring d 12 14) 16) 10 ++ str "."
   ++ toString (parseInt (substring d 14 16) 16) 10,
   parseInt (substring d 16 20) 16).

Definition sendGetIpAddress (h : connection)
    (response : settled ParsedMessage)
    : settled (jstring * number) * connection :=
  match response with
  | Rejected e => (Rejected e, h)
  | Fulfilled result =>
      let '(ip, p) := decodeIpAddress (data result) in
      (Fulfilled (ip, p), setHost h (Some ip) (Some p))
  end.

(** *** The set commands with a numeric or textual payload *)

Definition flag (b : bool) : jstring := if b then str "01" else str "00".

Definition sendSetWifiAccessPoint_request (ssid password : jstring)
    : jstring :=
  Command.SetWifiAccessPoint
  ++ padStart (toString (Int (length ssid)) 16) 2 "0"%char
  ++ padStart (toString (Int (length password)) 16) 2 "0"%char
  ++ CommandUtil.encodeString ssid
  ++ CommandUtil.encodeString password.

Definition sendSetDLB_request (enabled extremeMode : bool)
    (maxCurrent : real) (nightMode : bool) : jstring :=
  Command.SetDLB
  ++ flag enabled
  ++ flag extremeMode
  ++ padStart (toString (Math_min (Math_trunc maxCurrent) (Int 255)) 16)
       2 "0"%char
  ++ flag nightMode.

Definition sendSetMaxPower_request (maxPower : real) : jstring :=
  Command.SetMaxPower
  ++ padStart (toString (Math_min (Math_trunc maxPower) (Int 255)) 16)
       2 "0"%char.

Definition sendSetMaxMonthlyPower_request (maxCurrent : real) : jstring :=
  Command.SetMaxMonthlyPower
  ++ padStart (toString (Math_min (Math_trunc maxCurrent) (Int 65535)) 16)
       4 "0"%char.

(** *** sendSetReservation and sendSyncTime *)

(** The loop that builds [week] from [daysOfWeek]. *)
Definition week_string (daysOfWeek : jstring) : jstring :=
  map (fun i => if char_at_is daysOfWeek i "1"%char
                then "1"%char else "0"%char)
    (seq 0 7).

(** [(parseInt(t.substring(a, b), 10) || 0).toString(16).padStart(2, '0')] *)
Definition time_part (t : jstring) (a b : Z) : jstring :=
  padStart (toString (or_else (parseInt (substring t a b) 10) (Int 0)) 16)
    2 "0"%char.

(** A time argument: [None], like the empty string, is falsy. *)
Definition time_field (t : option jstring) : jstring :=
  match t with
  | None | Some [] => str "0000"
  | Some t => time_part t 0 2 ++ time_part t 3 5
  end.

Definition week_field (daysOfWeek : option jstring) : jstring :=
  match daysOfWeek with
  | None | Some [] => str "00"
  | Some d => padStart (toString (parseInt (week_string d) 2) 16) 2 "0"%char
  end.

Definition sendSetReservation_request (now : CommandUtil.clock)
    (fromTime toTime daysOfWeek : option jstring) : jstring :=
  let rsr := CommandUtil.getCurrentDate now in
  let rsr := rsr ++ week_field daysOfWeek in
  let rsr := rsr ++ time_field fromTime in
  let rsr := rsr ++ time_field toTime in
  Command.SetReservation ++ rsr.

Definition sendSyncTime_request (now : CommandUtil.clock) : jstring :=
  Command.SetTime ++ CommandUtil.getCurrentDate now.

(** *** sendGetControlsState *)

(** [parseInt(result.substring(a, b), 16)] *)
Definition hex_field (result : jstring) (a b : Z) : number :=
  parseInt (substring result a b) 16.

(** [(parseInt(...) || 0).toString().padStart(2, '0')] *)
Definition clock_part (result : jstring) (a b : Z) : jstring :=
  padStart (toString (or_else (hex_field result a b) (Int 0)) 10) 2 "0"%char.

Definition decodeControlsState (result : jstring) : ChargerControlsState :=
  let isV106 := 20 <=? length result in
  let i := if isV106 then 28 else 18 in
  let isV108 := 30 <=? length result in
  let i' := if isV108 then i + 4 + 2 else i in
  let isV110 := 36 <=? length result in
  {| rfid := strict_eq (hex_field result 0 2) (Int 1);
     appControlCharging := strict_eq (hex_field result 2 4) (Int 1);
     dlb := negb (strict_eq (hex_field result 4 6) (Int 0));
     groundingDetection := strict_eq (hex_field result 6 8) (Int 1);
     temperatureThreshold := hex_field result 8 10;
     c_maxCurrent := hex_field result 10 14;
     dlbPattern := hex_field result 14 16;
     dlbMaxCurrent := hex_field result 16 18;
     reservation :=
       if isV106
       then Some (padStart (toString (hex_field result 18 20) 2) 7 "0"%char)
       else None;
     reservationStart :=
       if isV106
       then Some (clock_part result 20 22 ++ clock_part result 22 24)
       else None;
     reservationEnd :=
       if isV106
       then Some (clock_part result 24 26 ++ clock_part result 26 28)
       else None;
     maxMonthlyPower :=
       if isV108 then Some (hex_field result i (i + 4)) else None;
     emergencyStopProtection :=
       if isV108
       then Some (strict_eq
                    (or_else (hex_field result (i + 4) (i + 4 + 2)) (Int 0))
                    (Int 1))
       else None;
     extremeMode :=
       if isV110
       then Some (strict_eq (hex_field result i' (i' + 2)) (Int 1))
       else None;
     nightMode :=
       if isV110
       then Some (strict_eq (hex_field result (i' + 2) (i' + 4)) (Int 1))
       else None |}.

(** *** sendGetPowerConsumptionRecords *)

(** The loop over the year buckets: [(parseInt(...) || 0)], not scaled. *)
Fixpoint read_years (n : nat) : M (list number) :=
  match n with
  | O => ret []
  | S k =>
      x <- hex 0 4 ;;
      advance 4 ;;;
      rest <- read_years k ;;
      ret (or_else x (Int 0) :: rest)
  end.

Definition read_records : M PowerConsumptionRecords :=
  d <- read_days 20 ;;
  m <- read_days 12 ;;
  l <- len ;;
  y <- (if 130 <=? l then read_years 10 else ret []) ;;
  ret {| r_days := d; months := m; years := y |}.

Definition decodePowerConsumptionRecords (result : jstring)
    : PowerConsumptionRecords :=
  run read_records result 0.

(** *** The getters on the last real-time data *)

(** [this.#lastData?.state ?? null] *)
Definition lastKnownState (c : t) : option number :=
  option_map state (lastData c).

Definition canStopCharging (c : t) : bool :=
  match lastKnownState c with
  | Some s => strict_eq s ChargerState.NotReady
              || strict_eq s ChargerState.Charging
  | None => false
  end.

Definition canStartCharging (c : t) : bool :=
  match lastKnownState c with
  | Some s => strict_eq s ChargerState.Standby
  | None => false
  end.

(** *** sendSetTimedChargeState *)

(** [(parseInt(t.substring(a, b), 10) || 0)] *)
Definition time_number (t : jstring) (a b : Z) : number :=
  or_else (parseInt (substring t a b) 10) (Int 0).

(** Hours, minutes and seconds of a time string, as the source weighs
    them: the seconds, like the minutes, are multiplied by 60. *)
Definition time_in_seconds (t : jstring) : number :=
  add (add (mul (time_number t 0 2) (Int 3600))
           (mul (time_number t 3 5) (Int 60)))
      (mul (time_number t 6 8) (Int 60)).

Definition nowInSeconds (now : CommandUtil.clock) : number :=
  Int (CommandUtil.getHours now * 3600 + CommandUtil.getMinutes now * 60
       + CommandUtil.getSeconds now).

(** [if (fromInSeconds < 0) fromInSeconds += 86400] *)
Definition fromInSeconds (now : CommandUtil.clock) (fromTime : jstring)
    : number :=
  let x := sub (time_in_seconds fromTime) (nowInSeconds now) in
  if lt x (Int 0) then add x (Int 86400) else x.

(** [while (toInSeconds < 0 || toInSeconds < fromInSeconds)
       toInSeconds += 86400] *)
Fixpoint toInSeconds_loop (fuel : nat) (from to : number) : number :=
  match fuel with
  | O => to
  | S f =>
      if lt to (Int 0) || lt to from
      then toInSeconds_loop f from (add to (Int 86400))
      else to
  end.

Definition toInSeconds (now : CommandUtil.clock) (fromTime toTime : jstring)
    : number :=
  toInSeconds_loop 8 (fromInSeconds now fromTime)
    (sub (time_in_seconds toTime) (nowInSeconds now)).

Definition sendSetTimedChargeState_request (now : CommandUtil.clock)
    (fromTime toTime : jstring) : jstring :=
  let timingString :=
    padStart (toString (fromInSeconds now fromTime) 16) 8 "0"%char in
  let timingString :=
    timingString
    ++ padStart (toString (toInSeconds now fromTime toTime) 16) 8 "0"%char in
  let timingString :=
    timingString
    ++ (time_part fromTime 0 2 ++ time_part fromTime 3 5
        ++ time_part fromTime 6 8) in
  let timingString :=
    timingString
    ++ (time_part toTime 0 2 ++ time_part toTime 3 5 ++ time_part toTime 6 8) in
  let timingString :=
    timingString
    ++ (padStart (toString (Int (CommandUtil.getHours now)) 16) 2 "0"%char
        ++ padStart (toString (Int (CommandUtil.getMinutes now)) 16) 2 "0"%char
        ++ padStart (toString (Int (CommandUtil.getSeconds now)) 16) 2
             "0"%char) in
  Command.SetTimedChargeState ++ timingString.

(** *** sendGetChargerModel *)

Record ChargerModel := {
  mode : number;
  version : jstring;
  firmwareVersion : jstring;
  hardwareVersion : jstring
}.

(** [decodeString] goes through the GBK decoder of the iconv-lite
    package, which is taken as a parameter. *)
Definition decodeChargerModel (decodeString : jstring -> jstring)
    (d : jstring) : ChargerModel :=
  {| mode := parseInt (substring d 0 4) 16;
     version := decodeString (substring d 4 44);
     firmwareVersion :=
       toString (parseInt (substring d 44 46) 16) 10 ++ str "."
       ++ padStart (toString (parseInt (substring d 46 48) 16) 10) 2 "0"%char;
     hardwareVersion := toString (parseInt (substring d 48 50) 16) 10 |}.

Definition sendGetChargerModel (decodeString : jstring -> jstring) (c : t)
    (response : settled ParsedMessage) : settled ChargerModel * t :=
  match response with
  | Rejected e => (Rejected e, c)
  | Fulfilled result =>
      let model := decodeChargerModel decodeString (data result) in
      (Fulfilled model,
       {| util := util c; model_mode := Some (mode model);
          lastFaultStatus := lastFaultStatus c; lastData := lastData c |})
  end.

End ChargerController.

(* ------------------------------------------------------------------ *)
(** ** sendCommand: one waiter on the shared socket *)
(* ------------------------------------------------------------------ *)

Module Session.

(** The argument [waitForResult]: falsy, [true], or a response code. *)
Inductive wait_arg :=
| NoWait
| WaitOwn
| WaitCode (code : jstring).

Inductive promise :=
| Pending
| Resolved (m : ParsedMessage)
| Failed (e : error).

(** A promise settles once; later calls of [resolve] or [reject] are
    ignored. *)
Definition resolve (p : promise) (m : ParsedMessage) : promise :=
  match p with Pending => Resolved m | _ => p end.

Definition reject (p : promise) (e : error) : promise :=
  match p with Pending => Failed e | _ => p end.

Record waiter := {
  resultCode : jstring;
  resultTester : option (ParsedMessage -> bool);
  listening : bool;      (* [onMessage] is registered on the socket *)
  timer : bool;          (* a [setTimeout] callback is pending *)
  outcome : promise
}.

(** What happens after [sendCommand] has set the waiter up. *)
Inductive event :=
| Message (msg : jstring)            (* the socket emits 'message' *)
| TimerFires                         (* the [setTimeout] callback runs *)
| SendDone (err : option jstring).   (* the callback of [socket.send] *)

(** The synchronous part of the promise executor; [None] when no result
    is awaited. *)
Definition sendCommand (resultTimeout : Z) (command : jstring)
    (waitForResult : wait_arg) (resultTester : option (ParsedMessage -> bool))
    : option waiter :=
  match waitForResult with
  | NoWait => None
  | _ =>
      let resultCode :=
        match waitForResult with
        | WaitCode c => c
        | _ => substring command 0 2
        end in
      Some {| resultCode := resultCode;
              resultTester := resultTester;
              listening := true;
              timer := 0 <? resultTimeout;
              outcome := Pending |}
  end.

(** The test of [onMessage] on a parsed frame. *)
Definition matches (w : waiter) (result : ParsedMessage) : bool :=
  string_eqb (command result) (resultCode w)
  && match resultTester w with
     | Some f => f result
     | None => true
     end.

Definition onMessage (w : waiter) (msg : jstring) : waiter :=
  match CommandUtil.parseResult msg with
  | None => w
  | Some result =>
      if negb (matches w result) then w
      else {| resultCode := resultCode w;
              resultTester := resultTester w;
              listening := false;
              timer := timer w;
              outcome := resolve (outcome w) result |}
  end.

Definition onTimeout (w : waiter) : waiter :=
  {| resultCode := resultCode w;
     resultTester := resultTester w;
     listening := false;
     timer := false;
     outcome := reject (outcome w) ResultTimedOut |}.

Definition step (w : waiter) (e : event) : waiter :=
  match e with
  | Message msg => if listening w then onMessage w msg else w
  | TimerFires => if timer w then onTimeout w else w
  | SendDone (Some err) =>
      {| resultCode := resultCode w;
         resultTester := resultTester w;
         listening := listening w;
         timer := timer w;
         outcome := reject (outcome w) (TransportError err) |}
  | SendDone None => w
  end.

Definition run (w : waiter) (evs : list event) : waiter :=
  fold_left step evs w.

(** A frame that [onMessage] of this waiter accepts. *)
Definition accepts (w : waiter) (msg : jstring) : bool :=
  match CommandUtil.parseResult msg with
  | Some result => matches w result
  | None => false
  end.

(** An event of the waiting window that neither answers the request nor
    ends it: a frame the waiter does not accept, or a successful send. *)
Definition quiet (w : waiter) (e : event) : bool :=
  match e with
  | Message msg => negb (accepts w msg)
  | SendDone None => true
  | _ => false
  end.

(** The socket emits a datagram to every registered listener. *)
Definition deliver (ws : list waiter) (msg : jstring) : list waiter :=
  map (fun w => step w (Message msg)) ws.

(** The private field [#resultTimeout]: it is initialised to 1000 and the
    class never assigns it and has no setter for it. *)
Definition resultTimeout : Z := 1000.



End Session.

(* ------------------------------------------------------------------ *)
(** ** The calendar, as the specification words it *)
(* ------------------------------------------------------------------ *)

Definition leap_year (year : Z) : bool :=
  (year mod 4 =? 0) && (negb (year mod 100 =? 0) || (year mod 400 =? 0)).

(** Days of month [month] (1 is January) of [year]. *)
Definition daysInMonth (year month : Z) : Z :=
  match month with
  | 1 | 3 | 5 | 7 | 8 | 10 | 12 => 31
  | 4 | 6 | 9 | 11 => 30
  | 2 => if leap_year year then 29 else 28
  | _ => 0
  end.

(* ------------------------------------------------------------------ *)
(** ** Vocabulary of the statements *)
(* ------------------------------------------------------------------ *)

(** A string of hexadecimal digits, of either case. *)
Definition hex_string (s : jstring) : Prop :=
  Forall (fun c => is_digit 16 c = true) s.

(** A string of decimal digits. *)
Definition decimal_string (s : jstring) : Prop :=
  Forall (fun c => is_digit 10 c = true) s.

(** The stored password reads as an integer that fits four bytes. *)
Definition valid_credential (u : CommandUtil.t) : Prop :=
  exists v, parseInt (CommandUtil.effective_password u) 10 = Int v
            /\ 0 <= v < 2 ^ 32.

(** The twelve flags that every firmware sends, in wire order. *)
Definition flags12 (f : ChargeFaultStatus) : list bool :=
  [overVoltage f; underVoltage f; overload f; highTemperature f;
   groundDetection f; leakage f; cpSignalAbnormal f; emergencyStopButton f;
   ccSignalAbnormal f; dlbWiring f; dlbOffline f; motorLock f].

(** A numeric argument greater than the integer [n]. *)
Definition exceeds (x : real) (n : Z) : Prop :=
  match x with
  | RFin q => (inject_Z n < q)%Q
  | RInf false => True
  | _ => False
  end.

(** The source's last day of the month agrees with the calendar. *)
Definition calendar_agrees (year month : Z) : bool :=
  strict_eq (JSDate.getDate_of year month 0) (Int (daysInMonth year month)).

(** The bytes that a string of hexadecimal digit pairs spells. *)
Fixpoint byte_values (s : jstring) : list Z :=
  match s with
  | a :: b :: r =>
      (16 * match digit_value a with Some v => v | None => 0 end
       + match digit_value b with Some v => v | None => 0 end)
      :: byte_values r
  | _ => []
  end.

Definition byte_total (l : list Z) : Z := fold_right Z.add 0 l.

(** Lower-case hexadecimal digits, as [toString(16)] writes them. *)
Definition lower_hex_string (s : jstring) : Prop :=
  Forall (fun c => In c (str "0123456789abcdef")) s.

(** A finite real. *)
Definition finite (x : real) : Prop :=
  match x with RFin _ => True | _ => False end.

(** Every code unit. *)
Definition all_ascii : list ascii := map ascii_of_nat (seq 0 256).

(** Code units below 128: one byte each in UTF-8. *)
Definition ascii_string (s : jstring) : Prop :=
  Forall (fun c => code c < 128) s.

(** A date and a time of day as the getters of [Date] report them. *)
Definition valid_clock (now : CommandUtil.clock) : Prop :=
  0 <= CommandUtil.getFullYear now
  /\ 0 <= CommandUtil.getMonth now <= 11
  /\ 1 <= CommandUtil.getDate now <= 31
  /\ 0 <= CommandUtil.getHours now <= 23
  /\ 0 <= CommandUtil.getMinutes now <= 59
  /\ 0 <= CommandUtil.getSeconds now <= 59.

(** The week string spelt by seven flags, Sunday first. *)
Definition week_of_bits (bits : list bool) : jstring :=
  map (fun b : bool => if b then "1"%char else "0"%char) bits.

(** The flags that [week_string] reads off [daysOfWeek]. *)
Definition week_bits (daysOfWeek : jstring) : list bool :=
  map (fun i => char_at_is daysOfWeek i "1"%char) (seq 0 7).

(** One time part of two characters keeps the width of one byte. *)
Definition time_part_fits (s : jstring) : bool :=
  length (padStart (toString (or_else (parseInt s 10) (Int 0)) 16)
            2 "0"%char) =? 2.

(** Characters that the mode-dependent readings take. *)
Definition phase_width (mode : number) : Z :=
  if strict_eq mode ChargerMode.OnePhase then 8
  else if strict_eq mode ChargerMode.ThreePhase then 18
  else 0.

(** A number that is not [NaN]. *)
Definition is_number (n : number) : Prop := n <> NaN.

(** A time part of at most two characters reads as nothing or as an
    integer from -9 to 99. *)
Definition time_value_small (s : jstring) : bool :=
  match parseInt s 10 with
  | NaN => true
  | Int z => (-9 <=? z) && (z <=? 99)
  | Inf _ => false
  end.

(* ------------------------------------------------------------------ *)
(** ** Strings *)
(* ------------------------------------------------------------------ *)

Section Strings.

Implicit Types s t : jstring.

Lemma string_eqb_eq s t : string_eqb s t = true <-> s = t.
Proof.
  revert t; induction s as [|x s IH]; intros [|y t]; simpl;
    try (split; [discriminate|discriminate]); try tauto.
  rewrite andb_true_iff, Ascii.eqb_eq, IH.
  split; [intros [-> ->]; reflexivity | intros H; inversion H; auto].
Qed.

Lemma string_eqb_refl s : string_eqb s s = true.
Proof. apply string_eqb_eq; reflexivity. Qed.

Lemma string_eqb_neq s t : string_eqb s t = false <-> s <> t.
Proof.
  rewrite <- string_eqb_eq. destruct (string_eqb s t); split; congruence.
Qed.

Lemma length_nonneg s : 0 <= length s.
Proof. unfold length; lia. Qed.

Lemma length_app s t : length (s ++ t) = length s + length t.
Proof. unfold length; rewrite List.length_app; lia. Qed.

Lemma length_cons c s : length (c :: s) = 1 + length s.
Proof. unfold length; simpl List.length; lia. Qed.

Lemma length_nil_iff s : length s = 0 <-> s = [].
Proof. unfold length; destruct s; simpl; split; (congruence || lia). Qed.

(** Within bounds, [substring] is a plain slice. *)
Lemma substring_slice s a b :
  0 <= a <= b -> b <= length s ->
  substring s a b = firstn (Z.to_nat (b - a)) (skipn (Z.to_nat a) s).
Proof.
  intros Hab Hb. unfold substring, clamp.
  replace (Z.min (Z.max 0 (Z.min a (length s))) (Z.max 0 (Z.min b (length s))))
    with a by lia.
  replace (Z.max (Z.max 0 (Z.min a (length s))) (Z.max 0 (Z.min b (length s))))
    with b by lia.
  reflexivity.
Qed.

(** The end index is clamped to the length. *)
Lemma substring_clamp_end s a b :
  0 <= a <= length s -> length s <= b ->
  substring s a b = skipn (Z.to_nat a) s.
Proof.
  intros Ha Hb. unfold substring, clamp.
  replace (Z.min (Z.max 0 (Z.min a (length s))) (Z.max 0 (Z.min b (length s))))
    with a by lia.
  replace (Z.max (Z.max 0 (Z.min a (length s))) (Z.max 0 (Z.min b (length s))))
    with (length s) by lia.
  apply firstn_all2. rewrite length_skipn. unfold length in *. lia.
Qed.

Lemma substring_past_end s a b :
  length s <= a -> length s <= b -> substring s a b = [].
Proof.
  intros Ha Hb. unfold substring, clamp. pose proof (length_nonneg s).
  replace (Z.max (Z.max 0 (Z.min a (length s))) (Z.max 0 (Z.min b (length s)))
           - Z.min (Z.max 0 (Z.min a (length s))) (Z.max 0 (Z.min b (length s))))
    with 0 by lia.
  reflexivity.
Qed.

Lemma substring_from_skipn s a :
  0 <= a <= length s -> substring_from s a = skipn (Z.to_nat a) s.
Proof. intros; unfold substring_from; apply substring_clamp_end; lia. Qed.

Lemma substring_app_l s t a b :
  0 <= a <= b -> b <= length s -> substring (s ++ t) a b = substring s a b.
Proof.
  intros Hab Hb. pose proof (length_nonneg t).
  rewrite !substring_slice by (rewrite ?length_app; lia).
  rewrite skipn_app, firstn_app, length_skipn.
  replace (Z.to_nat (b - a) - (List.length s - Z.to_nat a))%nat with O
    by (unfold length in *; lia).
  simpl. now rewrite app_nil_r.
Qed.

Lemma substring_app_r s t a b :
  length s <= a <= b -> b <= length s + length t ->
  substring (s ++ t) a b = substring t (a - length s) (b - length s).
Proof.
  intros Hab Hb. pose proof (length_nonneg s).
  rewrite !substring_slice by (rewrite ?length_app; lia).
  rewrite skipn_app.
  rewrite (skipn_all2 s) by (unfold length in *; lia).
  simpl. f_equal; [lia|]. f_equal. unfold length in *; lia.
Qed.

Lemma substring_prefix s t : substring (s ++ t) 0 (length s) = s.
Proof.
  pose proof (length_nonneg s).
  rewrite substring_app_l, substring_slice by lia.
  simpl. rewrite Z.sub_0_r. unfold length. rewrite Nat2Z.id. apply firstn_all.
Qed.

Lemma substring_from_suffix s t : substring_from (s ++ t) (length s) = t.
Proof.
  pose proof (length_nonneg s). pose proof (length_nonneg t).
  rewrite substring_from_skipn by (rewrite length_app; lia).
  unfold length. rewrite Nat2Z.id, skipn_app, skipn_all, Nat.sub_diag.
  reflexivity.
Qed.

(** A slice of a slice taken from the start. *)
Lemma substring_of_prefix s n a b :
  0 <= a <= b -> b <= n ->
  substring (substring s 0 n) a b = substring s a b.
Proof.
  intros Hab Hbn.
  rewrite <- (firstn_skipn (Z.to_nat n) s) at 2.
  assert (Hp : substring s 0 n = firstn (Z.to_nat n) s).
  { destruct (Z_le_gt_dec n (length s)).
    - rewrite substring_slice by lia. simpl. now rewrite Z.sub_0_r.
    - pose proof (length_nonneg s).
      rewrite substring_clamp_end by lia. simpl.
      symmetry; apply firstn_all2. unfold length in *; lia. }
  rewrite Hp.
  set (p := firstn (Z.to_nat n) s). set (q := skipn (Z.to_nat n) s).
  destruct (Z_le_gt_dec b (length p)).
  - now rewrite substring_app_l by lia.
  - (* the payload is shorter than [n]: nothing follows the prefix *)
    assert (q = []) as ->.
    { subst p q. apply skipn_all2.
      unfold length in g. rewrite length_firstn in g. lia. }
    now rewrite app_nil_r.
Qed.

End Strings.

(* ------------------------------------------------------------------ *)
(** ** Numerals: [parseInt] and [toString] *)
(* ------------------------------------------------------------------ *)

Section Numerals.

Implicit Types s t : jstring.

Lemma digit_value_facts c v :
  digit_value c = Some v ->
  0 <= v < 36
  /\ is_whitespace c = false /\ Ascii.eqb c " "%char = false
  /\ Ascii.eqb c "-"%char = false /\ Ascii.eqb c "+"%char = false
  /\ (v < 33 -> Ascii.eqb c "x"%char = false /\ Ascii.eqb c "X"%char = false).
Proof.
  destruct c as [[] [] [] [] [] [] [] []]; vm_compute; intros H;
    try discriminate; injection H as <-;
    repeat split; try reflexivity; try discriminate; intros; exfalso; lia.
Qed.

Lemma is_digit_value r c :
  is_digit r c = true -> exists v, digit_value c = Some v /\ 0 <= v < r.
Proof.
  unfold is_digit. destruct (digit_value c) as [v|] eqn:E; [|discriminate].
  intros H. exists v. split; [reflexivity|].
  apply digit_value_facts in E. lia.
Qed.

Lemma digit_char_value v :
  0 <= v < 36 -> digit_value (digit_char v) = Some v.
Proof.
  intros H. rewrite <- (Z2Nat.id v) at 2 by lia.
  unfold digit_char.
  assert (Hn : (Z.to_nat v < 36)%nat) by lia.
  generalize dependent (Z.to_nat v). intros n Hn.
  do 36 (destruct n as [|n]; [reflexivity|]). lia.
Qed.

Lemma digit_char_is_digit r v : 0 <= v < r -> r <= 36 -> is_digit r (digit_char v) = true.
Proof.
  intros H Hr. unfold is_digit. rewrite digit_char_value by lia.
  apply Z.ltb_lt; lia.
Qed.

(** Reading a run of digits continues after it. *)
Lemma parse_digits_app r s t acc :
  Forall (fun c => is_digit r c = true) s ->
  parse_digits r (s ++ t) acc
  = parse_digits r t (match s with [] => acc | _ => parse_digits r s acc end).
Proof.
  intros H. revert acc. induction H as [|c s Hc Hs IH]; intros acc; [reflexivity|].
  simpl. apply is_digit_value in Hc as (v & -> & Hv).
  destruct (Z.ltb_spec v r); [|lia].
  rewrite IH. destruct s; reflexivity.
Qed.

Lemma parse_digits_nonneg r s acc :
  0 <= r -> 0 <= acc ->
  Forall (fun c => is_digit r c = true) s ->
  exists v, parse_digits r s (Some acc) = Some v /\ 0 <= v.
Proof.
  intros Hr Ha H. revert acc Ha.
  induction H as [|c s Hc Hs IH]; intros acc Ha; simpl.
  - eauto.
  - apply is_digit_value in Hc as (v & -> & Hv).
    destruct (Z.ltb_spec v r); [|lia]. apply IH. nia.
Qed.

(** On a non-empty run of digits [parseInt] is the value of the run. *)
Lemma parseInt_digits r s :
  2 <= r <= 16 -> s <> [] ->
  Forall (fun c => is_digit r c = true) s ->
  exists v, parseInt s r = Int v /\ 0 <= v
            /\ parse_digits r s None = Some v.
Proof.
  intros Hr Hne H.
  destruct s as [|c s]; [congruence|].
  inversion H as [|? ? Hc Hs]; subst.
  pose proof Hc as Hc'.
  apply is_digit_value in Hc' as (v & Ev & Hv).
  pose proof (digit_value_facts _ _ Ev) as (_ & Hw & _ & Hm & Hp & Hx).
  assert (E0 : strip_sign (trim_start (c :: s)) = (false, c :: s)).
  { simpl. rewrite Hw. simpl. now rewrite Hm, Hp. }
  assert (E1 : strip_0x (c :: s) = c :: s).
  { destruct s as [|x s']; [reflexivity|]. simpl.
    inversion Hs as [|? ? Hx' _]; subst.
    apply is_digit_value in Hx' as (vx & Evx & Hvx).
    pose proof (digit_value_facts _ _ Evx) as (_ & _ & _ & _ & _ & Hxx).
    destruct Hxx as [-> ->]; [lia|]. now rewrite andb_false_r. }
  unfold parseInt. rewrite E0.
  replace (if r =? 16 then strip_0x (c :: s) else c :: s) with (c :: s)
    by (destruct (r =? 16); congruence).
  simpl. rewrite Ev. destruct (Z.ltb_spec v r); [|lia].
  destruct (parse_digits_nonneg r s (r * 0 + v)) as (w & Ew & Hw0);
    [lia|lia|assumption|].
  rewrite Ew. eauto.
Qed.

Lemma to_digits_all r fuel z :
  2 <= r <= 36 -> 0 <= z ->
  Forall (fun c => is_digit r c = true) (to_digits fuel r z).
Proof.
  intros Hr. revert z. induction fuel as [|f IH]; intros z Hz; simpl.
  - constructor.
  - destruct (Z.ltb_spec z r).
    + constructor; [|constructor]. apply digit_char_is_digit; lia.
    + apply Forall_app. split.
      * apply IH. apply Z.div_pos; lia.
      * constructor; [|constructor]. apply digit_char_is_digit; [|lia].
        apply Z.mod_pos_bound; lia.
Qed.

Lemma to_digits_nonempty r fuel z : to_digits (S fuel) r z <> [].
Proof.
  simpl. destruct (z <? r); [discriminate|].
  destruct (to_digits fuel r (z / r)); discriminate.
Qed.

(** [k] digits are enough below [r ^ k]. *)
Lemma to_digits_length r fuel z k :
  2 <= r -> 0 <= z < r ^ Z.of_nat k -> (1 <= k)%nat ->
  (List.length (to_digits fuel r z) <= k)%nat.
Proof.
  intros Hr. revert z k. induction fuel as [|f IH]; intros z k Hz Hk; simpl.
  - lia.
  - destruct (Z.ltb_spec z r); [simpl; lia|].
    rewrite List.length_app. simpl.
    destruct k as [|[|k]]; [lia| |].
    + change (Z.of_nat 1) with 1 in Hz. rewrite Z.pow_1_r in Hz. lia.
    + assert ((List.length (to_digits f r (z / r)) <= S k)%nat); [|lia].
      apply IH; [|lia]. split; [apply Z.div_pos; lia|].
      apply Z.div_lt_upper_bound; [lia|].
      rewrite Nat2Z.inj_succ, Z.pow_succ_r in Hz by lia. lia.
Qed.

(** With enough fuel the digits denote the number. *)
Lemma to_digits_value r fuel z :
  2 <= r <= 36 -> 0 <= z < 2 ^ Z.of_nat fuel -> (1 <= fuel)%nat ->
  parse_digits r (to_digits fuel r z) None = Some z.
Proof.
  intros Hr. revert z. induction fuel as [|f IH]; intros z Hz Hf; [lia|].
  simpl to_digits. destruct (Z.ltb_spec z r).
  - simpl. rewrite digit_char_value by lia.
    destruct (Z.ltb_spec z r); [|lia]. f_equal; lia.
  - assert (Hf1 : (1 <= f)%nat).
    { destruct f; [|lia]. change (2 ^ Z.of_nat 1) with 2 in Hz. lia. }
    assert (Hq : 0 <= z / r < 2 ^ Z.of_nat f).
    { split; [apply Z.div_pos; lia|].
      apply Z.div_lt_upper_bound; [lia|].
      rewrite Nat2Z.inj_succ, Z.pow_succ_r in Hz by lia.
      assert (0 < 2 ^ Z.of_nat f) by (apply Z.pow_pos_nonneg; lia). nia. }
    rewrite parse_digits_app by (apply to_digits_all; lia).
    rewrite (IH _ Hq Hf1).
    assert (Hne : to_digits f r (z / r) <> []).
    { destruct f; [lia|apply to_digits_nonempty]. }
    destruct (to_digits f r (z / r)) eqn:E; [congruence|].
    pose proof (Z.mod_pos_bound z r).
    simpl. rewrite digit_char_value by lia.
    destruct (Z.ltb_spec (z mod r) r); [|lia].
    f_equal. rewrite (Z.div_mod z r) at 3 by lia. lia.
Qed.

Lemma digits_fuel z : 0 <= z -> z < 2 ^ Z.of_nat (S (Z.to_nat (Z.log2 z))).
Proof.
  intros Hz. rewrite Nat2Z.inj_succ, Z2Nat.id by apply Z.log2_nonneg.
  destruct (Z.eq_dec z 0) as [->|]; [reflexivity|].
  apply Z.log2_spec; lia.
Qed.

Lemma digits_value r z :
  2 <= r <= 36 -> 0 <= z -> parse_digits r (digits r z) None = Some z.
Proof.
  intros Hr Hz. apply to_digits_value; [assumption| |lia].
  split; [assumption|apply digits_fuel; assumption].
Qed.

Lemma digits_all r z :
  2 <= r <= 36 -> 0 <= z -> Forall (fun c => is_digit r c = true) (digits r z).
Proof. intros; apply to_digits_all; assumption. Qed.

Lemma digits_nonempty r z : digits r z <> [].
Proof. apply to_digits_nonempty. Qed.

Lemma digits_length r z k :
  2 <= r -> 0 <= z < r ^ k -> 1 <= k -> 1 <= length (digits r z) <= k.
Proof.
  intros Hr Hz Hk. unfold length. split.
  - pose proof (digits_nonempty r z). destruct (digits r z); simpl; [congruence|lia].
  - pose proof (to_digits_length r (S (Z.to_nat (Z.log2 z))) z (Z.to_nat k)) as H.
    rewrite Z2Nat.id in H by lia. unfold digits.
    specialize (H Hr Hz). lia.
Qed.

(** Padding with zeros. *)
Lemma padStart_length s n c :
  length (padStart s n c) = Z.max n (length s).
Proof.
  unfold padStart. rewrite length_app. unfold length at 1.
  rewrite repeat_length. pose proof (length_nonneg s). lia.
Qed.

Lemma padStart_all (P : ascii -> Prop) s n c :
  P c -> Forall P s -> Forall P (padStart s n c).
Proof.
  intros Hc Hs. apply Forall_app. split; [|assumption].
  apply Forall_forall. intros x Hx. apply repeat_spec in Hx. now subst.
Qed.

Lemma parse_digits_zeros r k s :
  2 <= r -> s <> [] ->
  Forall (fun c => is_digit r c = true) s ->
  parse_digits r (repeat "0"%char k ++ s) None = parse_digits r s None.
Proof.
  intros Hr Hne Hs.
  assert (G : forall t, t <> [] ->
            Forall (fun c => is_digit r c = true) t ->
            parse_digits r t (Some 0) = parse_digits r t None).
  { intros [|c t] Ht Ha; [congruence|]. simpl.
    inversion Ha as [|? ? Hc _]; subst.
    apply is_digit_value in Hc as (v & -> & Hv).
    destruct (Z.ltb_spec v r); [reflexivity|lia]. }
  induction k as [|k IH]; [reflexivity|].
  simpl. change (digit_value "0"%char) with (Some 0).
  destruct (Z.ltb_spec 0 r); [|lia].
  replace (r * 0 + 0) with 0 by lia.
  rewrite G; [exact IH| |].
  - destruct k; simpl; [assumption|discriminate].
  - apply Forall_app. split; [|assumption].
    apply Forall_forall. intros x Hx. apply repeat_spec in Hx. subst.
    unfold is_digit. change (digit_value "0"%char) with (Some 0).
    apply Z.ltb_lt; lia.
Qed.

End Numerals.

(* ------------------------------------------------------------------ *)
(** ** The frame codec *)
(* ------------------------------------------------------------------ *)

Section Codec.

Import CommandUtil.
Implicit Types s t input : jstring.

Lemma Forall_substring (P : ascii -> Prop) s a b :
  Forall P s -> Forall P (substring s a b).
Proof.
  intros H. unfold substring.
  set (n := Z.to_nat _). set (m := Z.to_nat _).
  rewrite <- (firstn_skipn m s) in H. apply Forall_app in H as [_ H].
  rewrite <- (firstn_skipn n (skipn m s)) in H. now apply Forall_app in H.
Qed.

Lemma substring_nonempty s a b :
  0 <= a < length s -> a < b -> substring s a b <> [].
Proof.
  intros Ha Hb H. apply (f_equal length) in H.
  destruct (Z_le_gt_dec b (length s)).
  - rewrite substring_slice in H by lia.
    unfold length in *. rewrite length_firstn, length_skipn in H.
    simpl in H. lia.
  - rewrite substring_clamp_end in H by lia.
    unfold length in *. rewrite length_skipn in H. simpl in H. lia.
Qed.

Lemma hex_not_space s : hex_string s -> remove_spaces s = s.
Proof.
  intros H. unfold remove_spaces. apply forallb_filter_id.
  apply forallb_forall. intros c Hc.
  unfold hex_string in H. rewrite Forall_forall in H. specialize (H c Hc).
  apply is_digit_value in H as (v & Ev & _).
  apply digit_value_facts in Ev as (_ & _ & -> & _). reflexivity.
Qed.

(** The loop ends within its fuel: more fuel changes nothing. *)
Lemma checksum_loop_fuel fuel fuel' s len i chk :
  len - i <= Z.of_nat fuel -> len - i <= Z.of_nat fuel' ->
  checksum_loop fuel s len i chk = checksum_loop fuel' s len i chk.
Proof.
  revert fuel' i chk.
  induction fuel as [|f IH]; intros [|f'] i chk H H'; simpl;
    try reflexivity;
    destruct (Z.ltb_spec i len); try reflexivity; try lia.
  apply IH; lia.
Qed.

(** Over hexadecimal text the running sum stays a natural number. *)
Lemma checksum_loop_hex fuel s i acc :
  hex_string s -> 0 <= i -> 0 <= acc ->
  exists z, checksum_loop fuel s (length s) i (Int acc) = Int z /\ 0 <= z.
Proof.
  intros Hs. revert i acc. induction fuel as [|f IH]; intros i acc Hi Ha; simpl.
  - eauto.
  - destruct (Z.ltb_spec i (length s)); [|eauto].
    destruct (parseInt_digits 16 (substring s i (i + 2))) as (v & -> & Hv & _).
    + lia.
    + apply substring_nonempty; lia.
    + apply Forall_substring, Hs.
    + simpl. apply IH; lia.
Qed.

Lemma byte_toString z :
  0 <= z < 256 ->
  length (padStart (toString (Int z) 16) 2 "0"%char) = 2
  /\ hex_string (padStart (toString (Int z) 16) 2 "0"%char).
Proof.
  intros Hz. unfold toString. destruct (Z.ltb_spec z 0); [lia|]. split.
  - rewrite padStart_length.
    pose proof (digits_length 16 z 2 ltac:(lia) ltac:(simpl; lia) ltac:(lia)).
    lia.
  - apply padStart_all; [reflexivity|]. apply digits_all; lia.
Qed.

(** The checksum of hexadecimal text is one byte, two digits. *)
Lemma checksum_hex s :
  hex_string s -> length (checksum s) = 2 /\ hex_string (checksum s).
Proof.
  intros Hs. unfold checksum. destruct s as [|c s'] eqn:E.
  { split; [reflexivity|]. repeat constructor. }
  rewrite <- E in *. rewrite hex_not_space by assumption.
  destruct (negb (Z.rem (length s) 2 =? 0)).
  { split; [reflexivity|]. repeat constructor. }
  destruct (checksum_loop_hex (S (List.length s)) s 0 0 Hs) as (z & -> & Hz);
    [lia|lia|].
  simpl rem. apply byte_toString.
  pose proof (Z.rem_bound_pos z 256). lia.
Qed.

Lemma testChecksum_append s c :
  length c = 2 -> c = checksum s -> testChecksum (s ++ c) = true.
Proof.
  intros Hc E. unfold testChecksum.
  rewrite length_app, Hc.
  replace (length s + 2 - 2) with (length s) by lia.
  rewrite substring_prefix, substring_from_suffix, <- E.
  apply string_eqb_refl.
Qed.

Lemma startsWith_app p s : startsWith (p ++ s) p = true.
Proof.
  induction p as [|c p IH]; simpl; [reflexivity|].
  now rewrite Ascii.eqb_refl, IH.
Qed.

Lemma encodedPwd_hex u :
  valid_credential u ->
  length (encodedPwd u) = 8 /\ hex_string (encodedPwd u).
Proof.
  intros (v & E & Hv). unfold encodedPwd. rewrite E. unfold toString.
  destruct (Z.ltb_spec v 0); [lia|]. split.
  - rewrite padStart_length.
    pose proof (digits_length 16 v 8 ltac:(lia) ltac:(simpl; lia) ltac:(lia)).
    lia.
  - apply padStart_all; [reflexivity|]. apply digits_all; lia.
Qed.

Lemma lengthHex_hex u cmd :
  length (encodedPwd u) = 8 -> length cmd <= 491 ->
  length (lengthHex u cmd) = 2 /\ hex_string (lengthHex u cmd).
Proof.
  intros E Hc. pose proof (length_nonneg cmd). unfold lengthHex. rewrite E.
  change (length FRAME_HEADER) with 4. change (length MESSAGE_ID) with 4.
  apply byte_toString.
  pose proof (Z.quot_pos (4 + 4 + 8 + length cmd) 2).
  assert (Z.quot (4 + 4 + 8 + length cmd) 2 < 254);
    [apply Z.quot_lt_upper_bound; lia|lia].
Qed.

Lemma full_hex u cmd :
  valid_credential u -> hex_string cmd -> length cmd <= 491 ->
  hex_string (full u cmd).
Proof.
  intros Hu Hcmd Hl. destruct (encodedPwd_hex u Hu) as [E8 EH].
  destruct (lengthHex_hex u cmd E8 Hl) as [_ LH].
  unfold full, hex_string. rewrite !Forall_app.
  repeat split; try assumption; repeat constructor.
Qed.

End Codec.

(* ------------------------------------------------------------------ *)
(** ** Claims on the frame codec *)
(* ------------------------------------------------------------------ *)

Section CodecClaims.

Import CommandUtil.

(** C2. [parseResult] returns nothing exactly when the input is empty,
    shorter than 13 characters, does not start with ['55aa'], or its last
    two characters differ from the checksum of everything before them; in
    every other case it returns the input as [raw], characters [10, 12) as
    [command] and the characters from 12 on as [data]. *)
Theorem parseResult_cases (input : jstring) :
  (parseResult input = None <->
     (input = []
      \/ length input < 13
      \/ startsWith input FRAME_HEADER = false
      \/ substring_from input (length input - 2)
         <> checksum (substring input 0 (length input - 2))))
  /\ (parseResult input = None
      \/ parseResult input
         = Some {| raw := input;
                   command := substring input 10 12;
                   data := substring_from input 12 |}).
Proof.
  unfold parseResult, testChecksum.
  destruct input as [|c rest] eqn:E.
  { split; [split; auto|auto]. }
  rewrite <- E. assert (Hne : input <> []) by (subst; discriminate). clear E.
  destruct (Z.ltb_spec (length input) 13) as [Hl|Hl].
  { split; [split; auto|auto]. }
  destruct (startsWith input FRAME_HEADER) eqn:Hs; simpl.
  2:{ split; [split; auto|auto]. }
  destruct (string_eqb (checksum (substring input 0 (length input - 2)))
              (substring_from input (length input - 2))) eqn:Hc; simpl.
  - apply string_eqb_eq in Hc. split; [|auto]. split; [discriminate|].
    intros [H|[H|[H|H]]]; try congruence; try lia.
  - apply string_eqb_neq in Hc. split; [|auto]. split; [|reflexivity].
    intros _. right; right; right. congruence.
Qed.

Lemma parseResult_long (input : jstring) :
  13 <= length input ->
  parseResult input
  = if negb (startsWith input FRAME_HEADER) then None
    else if negb (testChecksum input) then None
    else Some {| raw := input;
                 command := substring input 10 12;
                 data := substring_from input 12 |}.
Proof.
  intros H. unfold parseResult. destruct input as [|c r]; [unfold length in H; simpl in H; lia|].
  destruct (Z.ltb_spec (length (c :: r)) 13); [lia|reflexivity].
Qed.

(** C1, as the code has it. For a command of hexadecimal digits (at most
    491 of them, so that the length field is one byte) and a stored
    password that reads as a four-byte integer, [parseResult] accepts the
    compiled frame; its [command] is characters [10, 12) of the frame, which
    are the first two digits of the encoded credential and not the command
    that was compiled; its [data] is the remaining six credential digits
    followed by the command and the checksum. *)
Theorem parse_compile_reads_credential (u : t) (cmd : jstring) :
  valid_credential u -> hex_string cmd -> length cmd <= 491 ->
  parseResult (compileMessage u cmd)
  = Some {| raw := compileMessage u cmd;
            command := substring (encodedPwd u) 0 2;
            data := substring_from (encodedPwd u) 2 ++ cmd
                    ++ checksum (full u cmd) |}.
Proof.
  intros Hu Hcmd Hlen.
  destruct (encodedPwd_hex u Hu) as [E8 EH].
  destruct (lengthHex_hex u cmd E8 Hlen) as [L2 LH].
  destruct (checksum_hex (full u cmd) (full_hex u cmd Hu Hcmd Hlen)) as [C2 _].
  pose proof (length_nonneg cmd) as Hc0.
  assert (Hfull : length (full u cmd) = 18 + length cmd).
  { unfold full. rewrite !length_app, L2, E8.
    change (length FRAME_HEADER) with 4. change (length MESSAGE_ID) with 4.
    lia. }
  assert (Hl : length (compileMessage u cmd) = 20 + length cmd).
  { unfold compileMessage. rewrite length_app, Hfull, C2. lia. }
  rewrite parseResult_long by lia.
  assert (Hs : startsWith (compileMessage u cmd) FRAME_HEADER = true).
  { unfold compileMessage, full. rewrite <- !app_assoc. apply startsWith_app. }
  rewrite Hs.
  assert (Ht : testChecksum (compileMessage u cmd) = true).
  { apply testChecksum_append; [exact C2|reflexivity]. }
  rewrite Ht. change (negb true) with false. cbv iota.
  (* the frame, split after its tenth character *)
  set (tail := encodedPwd u ++ cmd ++ checksum (full u cmd)).
  assert (Hsplit : compileMessage u cmd
                   = (FRAME_HEADER ++ MESSAGE_ID ++ lengthHex u cmd) ++ tail).
  { unfold compileMessage, full, tail. now rewrite <- !app_assoc. }
  assert (H10 : length (FRAME_HEADER ++ MESSAGE_ID ++ lengthHex u cmd) = 10).
  { rewrite !length_app, L2. reflexivity. }
  assert (Htl : length tail = 10 + length cmd).
  { unfold tail. rewrite !length_app, E8, C2. lia. }
  f_equal. f_equal.
  - rewrite Hsplit at 1. rewrite substring_app_r by lia.
    rewrite H10. change (10 - 10) with 0. change (12 - 10) with 2.
    unfold tail. apply substring_app_l; lia.
  - unfold substring_from at 1. rewrite Hl. rewrite Hsplit at 1.
    rewrite substring_app_r by lia. rewrite H10.
    replace (20 + length cmd - 10) with (length tail) by lia.
    change (substring tail (12 - 10) (length tail)) with (substring_from tail 2).
    rewrite (substring_from_skipn tail) by lia.
    rewrite (substring_from_skipn (encodedPwd u)) by lia.
    unfold tail. rewrite skipn_app.
    replace (Z.to_nat 2 - List.length (encodedPwd u))%nat with O
      by (unfold length in E8; lia).
    reflexivity.
Qed.

Lemma parse_compile_reads_credential_witness :
  parseResult (compileMessage {| password := Some (str "123456") |} (str "04"))
  = Some {| raw := compileMessage {| password := Some (str "123456") |} (str "04");
            command := substring (encodedPwd {| password := Some (str "123456") |}) 0 2;
            data := substring_from (encodedPwd {| password := Some (str "123456") |}) 2
                    ++ str "04"
                    ++ checksum (full {| password := Some (str "123456") |} (str "04")) |}.
Proof.
  apply (parse_compile_reads_credential
           {| password := Some (str "123456") |} (str "04")).
  - exists 123456. split; [reflexivity|lia].
  - repeat constructor.
  - vm_compute; discriminate.
Defined.

(** C1 as stated fails: the frame compiled for command ['04'] with the
    default password parses to command ['00'] and data ['01e2400432']. *)
Lemma parse_compile_not_roundtrip :
  parseResult (compileMessage {| password := Some (str "123456") |} (str "04"))
  = Some {| raw := str "55aa00010b0001e2400432";
            command := str "00";
            data := str "01e2400432" |}
  /\ ~ (exists m,
          parseResult (compileMessage {| password := Some (str "123456") |}
                         (str "04")) = Some m
          /\ command m = substring (str "04") 0 2
          /\ data m = substring_from (str "04") 2).
Proof.
  split; [reflexivity|].
  intros (m & E & Hc & _). vm_compute in E. injection E as <-.
  vm_compute in Hc. discriminate.
Qed.




End CodecClaims.

(* ------------------------------------------------------------------ *)
(** ** Claims on the fault status decoder *)
(* ------------------------------------------------------------------ *)

Section FaultStatus.

Import ChargerController.

Lemma fault_flag_prefix result n a b :
  0 <= a <= b -> b <= n ->
  fault_flag (substring result 0 n) a b = fault_flag result a b.
Proof.
  intros Hab Hb. unfold fault_flag. now rewrite substring_of_prefix.
Qed.

Lemma fault_flag_app_l result ext a b :
  0 <= a <= b -> b <= length result ->
  fault_flag (result ++ ext) a b = fault_flag result a b.
Proof.
  intros Hab Hb. unfold fault_flag. now rewrite substring_app_l.
Qed.

Lemma fault_flag_app_r result ext a b :
  length result <= a <= b -> b <= length result + length ext ->
  fault_flag (result ++ ext) a b
  = fault_flag ext (a - length result) (b - length result).
Proof.
  intros Hab Hb. unfold fault_flag. now rewrite substring_app_r.
Qed.

Lemma skipn_last (A : Type) (l : list A) n d :
  List.length l = S n -> skipn n l = [nth n l d].
Proof.
  revert l. induction n as [|n IH]; intros [|x l] H; simpl in *; try discriminate.
  - destruct l; [reflexivity|discriminate].
  - apply IH. congruence.
Qed.

(** A single character: only ['0'] reads as zero. *)
Lemma fault_flag_single c :
  negb (strict_eq (parseInt [c] 16) (Int 0)) = negb (Ascii.eqb c "0"%char).
Proof. destruct c as [[] [] [] [] [] [] [] []]; reflexivity. Qed.

(** C9, as the code has it. With exactly 26 characters [contactor] is
    present and true whatever the payload holds, because it is read from an
    empty substring; with exactly 27 characters it is present and read from
    the one character at offset 26: false when that character is ['0'],
    true otherwise. *)
Theorem contactor_short_payload (result : jstring) :
  (length result = 26 -> contactor (decodeFaultStatus result) = Some true)
  /\ (length result = 27 ->
        contactor (decodeFaultStatus result)
        = Some (negb (Ascii.eqb (nth 26 result "0"%char) "0"%char))).
Proof.
  unfold decodeFaultStatus; cbn [contactor]. split; intros H; rewrite H.
  - change (26 <=? 26) with true. cbv iota. unfold fault_flag.
    rewrite substring_past_end by lia. reflexivity.
  - change (26 <=? 27) with true. cbv iota. unfold fault_flag.
    rewrite substring_clamp_end by lia.
    change (Z.to_nat 26) with 26%nat.
    rewrite (skipn_last _ result 26 "0"%char) by (unfold length in H; lia).
    now rewrite fault_flag_single.
Qed.

Lemma contactor_short_payload_witness :
  contactor (decodeFaultStatus (str "zzzzzzzzzzzzzzzzzzzzzzzzzz")) = Some true
  /\ contactor (decodeFaultStatus (str "00000000000000000000000000a"))
     = Some (negb (Ascii.eqb
                     (nth 26 (str "00000000000000000000000000a") "0"%char)
                     "0"%char)).
Proof.
  split.
  - apply (proj1 (contactor_short_payload (str "zzzzzzzzzzzzzzzzzzzzzzzzzz"))).
    reflexivity.
  - apply (proj2 (contactor_short_payload (str "00000000000000000000000000a"))).
    reflexivity.
Defined.

(** C9 as stated fails at 27 characters: a payload of 27 zeros decodes
    [contactor] to false. *)
Lemma contactor_27_zeros_false :
  length (str "000000000000000000000000000") = 27
  /\ contactor (decodeFaultStatus (str "000000000000000000000000000"))
     = Some false
  /\ contactor (decodeFaultStatus (str "000000000000000000000000000"))
     <> Some true.
Proof. split; [reflexivity|split; [reflexivity|discriminate]]. Qed.

End FaultStatus.

(* ------------------------------------------------------------------ *)
(** ** Claims on the real-time data decoder *)
(* ------------------------------------------------------------------ *)

Section RealTimeData.

Import ChargerController.


(** The first gate moves the cursor by six characters, and only when it
    passes. *)
Lemma gate_v106_cursor (pass : bool) (result : jstring) (ptr : Z) :
  snd (gate_v106 pass result ptr) = if pass then ptr + 6 else ptr.
Proof. destruct pass; reflexivity. Qed.




End RealTimeData.

(* ------------------------------------------------------------------ *)
(** ** Claims on the monthly consumption records *)
(* ------------------------------------------------------------------ *)

Section RecordsOfMonth.

Import ChargerController.

Lemma read_days_S n result ptr :
  read_days (S n) result ptr
  = (div10 (or_else (parseInt (substring result (ptr + 0) (ptr + 4)) 16)
              (Int 0))
     :: fst (read_days n result (ptr + 4)),
     snd (read_days n result (ptr + 4))).
Proof.
  cbn [read_days].
  unfold Cursor.bind, Cursor.hex, Cursor.advance, Cursor.ret.
  destruct (read_days n result (ptr + 4)); reflexivity.
Qed.

Lemma read_days_length n result ptr :
  List.length (fst (read_days n result ptr)) = n.
Proof.
  revert ptr. induction n as [|n IH]; intros ptr; [reflexivity|].
  rewrite read_days_S. cbn [fst List.length]. now rewrite IH.
Qed.

Lemma read_days_nth n result ptr i :
  (i < n)%nat ->
  nth i (fst (read_days n result ptr)) RNaN
  = div10 (or_else
             (parseInt (substring result (ptr + 4 * Z.of_nat i)
                          (ptr + 4 * Z.of_nat i + 4)) 16)
             (Int 0)).
Proof.
  revert ptr i. induction n as [|n IH]; intros ptr i Hi; [lia|].
  rewrite read_days_S. cbn [fst]. destruct i as [|i]; cbn [nth].
  - do 4 f_equal; lia.
  - rewrite IH by lia. do 4 f_equal; lia.
Qed.

(** One byte in hexadecimal: two digits that denote the value. *)
Lemma byte_toString_value z :
  0 <= z < 256 ->
  parseInt (padStart (toString (Int z) 16) 2 "0"%char) 16 = Int z.
Proof.
  intros Hz. destruct (byte_toString z Hz) as [L H].
  destruct (parseInt_digits 16 (padStart (toString (Int z) 16) 2 "0"%char))
    as (w & Ew & _ & Pw); [lia| |exact H|].
  - intros E. rewrite E in L. discriminate.
  - rewrite Ew. f_equal. unfold toString in Pw.
    destruct (Z.ltb_spec z 0); [lia|]. unfold padStart in Pw.
    rewrite parse_digits_zeros in Pw;
      [|lia|apply digits_nonempty|apply digits_all; lia].
    rewrite digits_value in Pw by lia. congruence.
Qed.

(** The date of [new Date(year, month, 0)] is the length of the month, for
    the years whose offset from 2000 fits one byte. *)
Lemma calendar_agrees_range :
  forallb (fun y => forallb (fun m => calendar_agrees (2000 + Z.of_nat y)
                                        (1 + Z.of_nat m))
                      (seq 0 12))
    (seq 0 256) = true.
Proof. vm_compute. reflexivity. Qed.

Lemma getDate_daysInMonth year month :
  2000 <= year <= 2255 -> 1 <= month <= 12 ->
  JSDate.getDate_of year month 0 = Int (daysInMonth year month).
Proof.
  intros Hy Hm. pose proof calendar_agrees_range as H.
  rewrite forallb_forall in H.
  specialize (H (Z.to_nat (year - 2000))).
  rewrite in_seq in H. specialize (H ltac:(lia)).
  rewrite forallb_forall in H.
  specialize (H (Z.to_nat (month - 1))).
  rewrite in_seq in H. specialize (H ltac:(lia)).
  replace (2000 + Z.of_nat (Z.to_nat (year - 2000))) with year in H by lia.
  replace (1 + Z.of_nat (Z.to_nat (month - 1))) with month in H by lia.
  unfold calendar_agrees in H.
  destruct (JSDate.getDate_of year month 0) as [|b|z]; simpl in H;
    try discriminate.
  apply Z.eqb_eq in H. now subst.
Qed.

(** C5, as the code has it. For a year from 2000 to 2255 and a month from
    1 to 12 the request carries [year - 2000] and [month - 1] as one
    hexadecimal byte each; the [days] array has exactly
    [daysInMonth year month] entries whatever the payload length, entry [i]
    being the two-byte value at characters [2 + 4 i, 6 + 4 i) divided by
    ten (zero when it does not parse); [isEffective] holds exactly when the
    first two characters are ['01']; for (2024, 2) there are 29 entries.
    A year before 2000 is sent as byte ['00']. *)
Theorem recordsOfMonth_decoding (year month : Z) (result : jstring) :
  (2000 <= year <= 2255 -> 1 <= month <= 12 ->
     let r := decodeRecordsOfMonth year month result in
     (exists y m,
         sendGetPowerConsumptionRecordsOfMonth_request year month
         = Command.GetPowerConsumptionRecordsOfMonth ++ y ++ m
         /\ length y = 2 /\ parseInt y 16 = Int (year - 2000)
         /\ length m = 2 /\ parseInt m 16 = Int (month - 1))
     /\ Z.of_nat (List.length (days r)) = daysInMonth year month
     /\ (forall i, (i < List.length (days r))%nat ->
           nth i (days r) RNaN
           = div10 (or_else
                      (parseInt (substring result (2 + 4 * Z.of_nat i)
                                   (2 + 4 * Z.of_nat i + 4)) 16)
                      (Int 0)))
     /\ (isEffective r = true <-> substring result 0 2 = str "01")
     /\ (year = 2024 -> month = 2 -> List.length (days r) = 29%nat))
  /\ (year < 2000 ->
        sendGetPowerConsumptionRecordsOfMonth_request year month
        = sendGetPowerConsumptionRecordsOfMonth_request 2000 month).
Proof.
  split.
  - intros Hy Hm r.
    assert (Hn : List.length (days r) = Z.to_nat (daysInMonth year month)).
    { unfold r, decodeRecordsOfMonth; cbn [days]. unfold Cursor.run.
      rewrite read_days_length, getDate_daysInMonth by assumption.
      reflexivity. }
    split; [|split; [|split; [|split]]].
    + unfold sendGetPowerConsumptionRecordsOfMonth_request.
      destruct (Z.ltb_spec year 2000); [lia|].
      eexists _, _. split; [reflexivity|].
      destruct (byte_toString (year - 2000)) as [-> _]; [lia|].
      destruct (byte_toString (month - 1)) as [-> _]; [lia|].
      rewrite !byte_toString_value by lia. auto.
    + rewrite Hn. rewrite Z2Nat.id; [reflexivity|].
      unfold daysInMonth.
      assert (month = 1 \/ month = 2 \/ month = 3 \/ month = 4 \/ month = 5
              \/ month = 6 \/ month = 7 \/ month = 8 \/ month = 9
              \/ month = 10 \/ month = 11 \/ month = 12) as Hc by lia.
      repeat (destruct Hc as [->|Hc]; [try destruct (leap_year year); lia|]).
      subst; lia.
    + intros i Hi. unfold r, decodeRecordsOfMonth in *; cbn [days] in *.
      unfold Cursor.run in *. rewrite read_days_length in Hi.
      now apply read_days_nth.
    + unfold r, decodeRecordsOfMonth; cbn [isEffective]. apply string_eqb_eq.
    + intros -> ->. rewrite Hn. reflexivity.
  - intros Hy. unfold sendGetPowerConsumptionRecordsOfMonth_request.
    destruct (Z.ltb_spec year 2000); [reflexivity|lia].
Qed.

Lemma recordsOfMonth_decoding_witness :
  let r := decodeRecordsOfMonth 2024 2 (str "01000a00ff") in
  (exists y m,
      sendGetPowerConsumptionRecordsOfMonth_request 2024 2
      = Command.GetPowerConsumptionRecordsOfMonth ++ y ++ m
      /\ length y = 2 /\ parseInt y 16 = Int (2024 - 2000)
      /\ length m = 2 /\ parseInt m 16 = Int (2 - 1))
  /\ Z.of_nat (List.length (days r)) = daysInMonth 2024 2
  /\ (forall i, (i < List.length (days r))%nat ->
        nth i (days r) RNaN
        = div10 (or_else
                   (parseInt (substring (str "01000a00ff") (2 + 4 * Z.of_nat i)
                                (2 + 4 * Z.of_nat i + 4)) 16)
                   (Int 0)))
  /\ (isEffective r = true <-> substring (str "01000a00ff") 0 2 = str "01")
  /\ (2024 = 2024 -> 2 = 2 -> List.length (days r) = 29%nat).
Proof.
  apply (proj1 (recordsOfMonth_decoding 2024 2 (str "01000a00ff"))); lia.
Defined.

(** C5 as stated fails before 2000: for (1999, 1) the request is
    ['7a0000'], whose year byte reads 0 and not 1999 - 2000. *)
Lemma recordsOfMonth_year_before_2000 :
  sendGetPowerConsumptionRecordsOfMonth_request 1999 1 = str "7a0000"
  /\ parseInt (substring (sendGetPowerConsumptionRecordsOfMonth_request 1999 1)
                 2 4) 16
     <> Int (1999 - 2000)
  /\ sendGetPowerConsumptionRecordsOfMonth_request 1999 1
     <> Command.GetPowerConsumptionRecordsOfMonth
        ++ padStart (toString (Int (1999 - 2000)) 16) 2 "0"%char
        ++ padStart (toString (Int (1 - 1)) 16) 2 "0"%char.
Proof. split; [reflexivity|split; discriminate]. Qed.

End RecordsOfMonth.

(* ------------------------------------------------------------------ *)
(** ** Claims on the set commands *)
(* ------------------------------------------------------------------ *)

Section SetCommands.

Import ChargerController.

Lemma Qtrunc_above (q : Q) (n : Z) :
  0 <= n -> (inject_Z n < q)%Q -> n <= Qtrunc q.
Proof.
  intros Hn H. unfold Qtrunc.
  assert (Hpos : (0 < q)%Q).
  { eapply Qle_lt_trans; [|exact H]. unfold Qle; simpl. lia. }
  destruct (Z.ltb_spec (Qnum q) 0) as [Hneg|_].
  - exfalso. unfold Qlt in Hpos. simpl in Hpos. lia.
  - rewrite <- (Qfloor_Z n). apply Qfloor_resp_le. now apply Qlt_le_weak.
Qed.

Lemma Qtrunc_nonneg (q : Q) : (0 <= q)%Q -> 0 <= Qtrunc q.
Proof.
  intros H. unfold Qtrunc.
  destruct (Z.ltb_spec (Qnum q) 0) as [Hneg|_].
  - exfalso. unfold Qle in H. simpl in H. lia.
  - change 0 with (Qfloor 0). now apply Qfloor_resp_le.
Qed.

(** C10. The payload of [sendSetMaxCurrent] is
    [min(trunc(maxCurrent), 255)] in hexadecimal, padded with zeros to four
    characters: any argument above 255, infinity included, is sent as
    ['00ff'], and a finite non-negative argument as four hexadecimal digits
    that denote the smaller of its integer part and 255. *)
Theorem setMaxCurrent_clamped (maxCurrent : real) :
  sendSetMaxCurrent_request maxCurrent
  = Command.SetMaxCurrent
    ++ padStart (toString (Math_min (Math_trunc maxCurrent) (Int 255)) 16)
         4 "0"%char
  /\ (exceeds maxCurrent 255 ->
        sendSetMaxCurrent_request maxCurrent = str "6d00ff")
  /\ (forall q, maxCurrent = RFin q -> (0 <= q)%Q ->
        exists payload,
          sendSetMaxCurrent_request maxCurrent
          = Command.SetMaxCurrent ++ payload
          /\ length payload = 4 /\ hex_string payload
          /\ parseInt payload 16 = Int (Z.min (Qtrunc q) 255)).
Proof.
  split; [reflexivity|]. split.
  - unfold exceeds, sendSetMaxCurrent_request.
    destruct maxCurrent as [|[]|q]; try contradiction; [reflexivity|].
    intros H. apply Qtrunc_above in H; [|lia].
    unfold Math_trunc, Math_min, lt.
    destruct (Z.ltb_spec 255 (Qtrunc q)); [reflexivity|].
    replace (Qtrunc q) with 255 by lia. reflexivity.
  - intros q -> Hq. apply Qtrunc_nonneg in Hq.
    unfold sendSetMaxCurrent_request. eexists. split; [reflexivity|].
    assert (E : Math_min (Math_trunc (RFin q)) (Int 255)
                = Int (Z.min (Qtrunc q) 255)).
    { unfold Math_trunc, Math_min, lt.
      destruct (Z.ltb_spec 255 (Qtrunc q)); f_equal; lia. }
    rewrite E. set (z := Z.min (Qtrunc q) 255).
    assert (Hz : 0 <= z < 256) by (unfold z; lia).
    unfold toString. destruct (Z.ltb_spec z 0); [lia|].
    assert (Hh : hex_string (padStart (digits 16 z) 4 "0"%char)).
    { apply padStart_all; [reflexivity|]. apply digits_all; lia. }
    assert (Hl : length (padStart (digits 16 z) 4 "0"%char) = 4).
    { rewrite padStart_length.
      pose proof (digits_length 16 z 2 ltac:(lia) ltac:(simpl; lia) ltac:(lia)).
      lia. }
    split; [exact Hl|]. split; [exact Hh|].
    destruct (parseInt_digits 16 (padStart (digits 16 z) 4 "0"%char))
      as (w & Ew & _ & Pw); [lia| |exact Hh|].
    + intros E0. rewrite E0 in Hl. discriminate.
    + rewrite Ew. f_equal. unfold padStart in Pw.
      rewrite parse_digits_zeros in Pw;
        [|lia|apply digits_nonempty|apply digits_all; lia].
      rewrite digits_value in Pw by lia. congruence.
Qed.

Lemma setMaxCurrent_clamped_witness :
  sendSetMaxCurrent_request (RFin (300 # 1)) = str "6d00ff"
  /\ exists payload,
       sendSetMaxCurrent_request (RFin (33 # 2))
       = Command.SetMaxCurrent ++ payload
       /\ length payload = 4 /\ hex_string payload
       /\ parseInt payload 16 = Int (Z.min (Qtrunc (33 # 2)) 255).
Proof.
  split.
  - apply (proj1 (proj2 (setMaxCurrent_clamped (RFin (300 # 1))))).
    reflexivity.
  - apply (proj2 (proj2 (setMaxCurrent_clamped (RFin (33 # 2)))) (33 # 2)).
    + reflexivity.
    + discriminate.
Defined.

(** C7, what the code does. Once the wait is fulfilled the new password is
    stored whatever the response says: a response whose data is ['00']
    makes [sendSetPassword] return false, and the stored password, and with
    it the credential of the frames compiled afterwards, is the new one all
    the same. *)
Theorem sendSetPassword_stores_on_refusal :
  let c := create (Some (str "123456")) in
  let frame := str "55aa000105020007" in
  exists response,
    CommandUtil.parseResult frame = Some response
    /\ command response = Command.PasswordChange
    /\ data response = str "0007"
    /\ fst (sendSetPassword c (str "654321") (Fulfilled response))
       = Fulfilled false
    /\ CommandUtil.password
         (util (snd (sendSetPassword c (str "654321") (Fulfilled response))))
       = Some (str "654321")
    /\ CommandUtil.encodedPwd (util c) = str "0001e240"
    /\ CommandUtil.encodedPwd
         (util (snd (sendSetPassword c (str "654321") (Fulfilled response))))
       = str "0009fbf1".
Proof.
  cbv zeta. eexists. split; [vm_compute; reflexivity|].
  repeat split; reflexivity.
Qed.

(** The assignment does not look at the response at all. *)
Lemma sendSetPassword_stores_always c password response :
  CommandUtil.password
    (util (snd (sendSetPassword c password (Fulfilled response))))
  = Some password.
Proof. reflexivity. Qed.

End SetCommands.

(* ------------------------------------------------------------------ *)
(** ** Claims on the command session *)
(* ------------------------------------------------------------------ *)

Section SessionClaims.

Import Session.

Lemma step_quiet w e : quiet w e = true -> step w e = w.
Proof.
  destruct e as [msg| |[err|]]; simpl; try discriminate; [|reflexivity].
  unfold accepts, onMessage. intros H.
  destruct (listening w); [|reflexivity].
  destruct (CommandUtil.parseResult msg) as [result|]; [|reflexivity].
  destruct (matches w result); [discriminate|reflexivity].
Qed.

Lemma run_quiet evs w : forallb (quiet w) evs = true -> run w evs = w.
Proof.
  induction evs as [|e evs IH]; simpl; [reflexivity|].
  intros H. apply andb_true_iff in H as [He Hs].
  rewrite step_quiet by assumption. now apply IH.
Qed.

(** A frame the waiter accepts, arriving while it listens and is still
    pending, resolves it with the parsed frame and removes the listener. *)
Lemma accepted_frame_resolves w msg :
  listening w = true -> outcome w = Pending -> accepts w msg = true ->
  exists result,
    CommandUtil.parseResult msg = Some result
    /\ outcome (step w (Message msg)) = Resolved result
    /\ listening (step w (Message msg)) = false.
Proof.
  intros Hl Ho Ha. unfold accepts in Ha. simpl. rewrite Hl. unfold onMessage.
  destruct (CommandUtil.parseResult msg) as [result|]; [|discriminate].
  exists result. rewrite Ha. simpl. rewrite Ho. auto.
Qed.


(** Without a timer no event produces the timeout error. *)
Lemma no_timer_no_timeout evs w :
  timer w = false -> outcome w <> Failed ResultTimedOut ->
  outcome (run w evs) <> Failed ResultTimedOut.
Proof.
  revert w. induction evs as [|ev evs IH]; intros w Ht Ho; simpl; [assumption|].
  apply IH.
  - destruct ev as [msg| |[err|]]; simpl; try assumption.
    + destruct (listening w); [|assumption]. unfold onMessage.
      destruct (CommandUtil.parseResult msg) as [r|]; [|assumption].
      destruct (negb (matches w r)); assumption.
    + now rewrite Ht.
  - destruct ev as [msg| |[err|]]; simpl; try assumption.
    + destruct (listening w); [|assumption]. unfold onMessage.
      destruct (CommandUtil.parseResult msg) as [r|]; [|assumption].
      destruct (negb (matches w r)); [assumption|]. simpl.
      destruct (outcome w); simpl; congruence.
    + now rewrite Ht.
    + destruct (outcome w); simpl; congruence.
Qed.

End SessionClaims.

(* ------------------------------------------------------------------ *)
(** ** More on the frame codec *)
(* ------------------------------------------------------------------ *)

Section CodecMore.

Import CommandUtil.
Implicit Types s t input pre post : jstring.

Lemma parse_digits_step r c s acc v :
  digit_value c = Some v -> v < r ->
  parse_digits r (c :: s) acc
  = parse_digits r s
      (Some (r * match acc with Some a => a | None => 0 end + v)).
Proof.
  intros E H. simpl. rewrite E. destruct (Z.ltb_spec v r); [reflexivity|lia].
Qed.

Lemma parseInt_pair a b :
  is_digit 16 a = true -> is_digit 16 b = true ->
  parseInt [a; b] 16 = Int (byte_total (byte_values [a; b]))
  /\ 0 <= byte_total (byte_values [a; b]) < 256.
Proof.
  intros Ha Hb.
  destruct (parseInt_digits 16 [a; b]) as (v & Ev & _ & Pv);
    [lia|discriminate|repeat constructor; assumption|].
  apply is_digit_value in Ha as (va & Ea & Hva).
  apply is_digit_value in Hb as (vb & Eb & Hvb).
  rewrite (parse_digits_step 16 a [b] None va Ea) in Pv by lia.
  rewrite (parse_digits_step 16 b [] _ vb Eb) in Pv by lia.
  unfold parse_digits in Pv. injection Pv as Pv.
  assert (Hv : v = 16 * va + vb) by (rewrite <- Pv; destruct va; reflexivity).
  cbn [byte_values byte_total fold_right].
  rewrite Ea, Eb, Ev, Hv. split; [f_equal; lia|lia].
Qed.

Lemma byte_values_app pre t :
  (exists k, List.length pre = (2 * k)%nat) ->
  byte_values (pre ++ t) = byte_values pre ++ byte_values t.
Proof.
  intros [k Hk]. revert pre Hk.
  induction k as [|k IH]; intros pre Hk.
  - destruct pre; [reflexivity|discriminate].
  - destruct pre as [|a [|b pre]]; simpl in Hk; try lia.
    simpl. f_equal. apply IH. lia.
Qed.

Lemma byte_total_app l l' : byte_total (l ++ l') = byte_total l + byte_total l'.
Proof. induction l; simpl; lia. Qed.

Lemma byte_values_nonneg s : hex_string s -> 0 <= byte_total (byte_values s).
Proof.
  assert (G : forall n s, (List.length s <= n)%nat -> hex_string s ->
                0 <= byte_total (byte_values s)).
  { induction n as [|n IH]; intros [|a [|b r]] Hn H;
      cbn [byte_values byte_total fold_right]; try lia.
    - simpl in Hn. lia.
    - inversion H as [|? ? Ha H1]; subst. inversion H1 as [|? ? Hb H2]; subst.
      apply is_digit_value in Ha as (va & -> & Hva).
      apply is_digit_value in Hb as (vb & -> & Hvb).
      specialize (IH r ltac:(simpl in Hn; lia) H2).
      unfold byte_total in IH. lia. }
  apply (G (List.length s)). lia.
Qed.

(** The loop adds up the bytes that follow the index. *)
Lemma checksum_loop_value fuel pre rest acc :
  hex_string rest ->
  (exists k, List.length rest = (2 * k)%nat) ->
  (List.length rest <= 2 * fuel)%nat ->
  checksum_loop fuel (pre ++ rest) (length (pre ++ rest)) (length pre) (Int acc)
  = Int (acc + byte_total (byte_values rest)).
Proof.
  revert pre rest acc. induction fuel as [|f IH]; intros pre rest acc Hh [k Hk] Hf.
  - destruct rest; [|simpl in Hf; lia]. simpl. f_equal; lia.
  - destruct rest as [|a [|b r]].
    + simpl. rewrite app_nil_r. rewrite Z.ltb_irrefl. f_equal; lia.
    + simpl in Hk. lia.
    + cbn [checksum_loop].
      pose proof (length_nonneg pre) as Hp0. pose proof (length_nonneg r) as Hr0.
      assert (Hl : length (pre ++ a :: b :: r) = length pre + 2 + length r).
      { rewrite length_app, !length_cons. lia. }
      destruct (Z.ltb_spec (length pre) (length (pre ++ a :: b :: r))); [|lia].
      assert (Hsub : substring (pre ++ a :: b :: r) (length pre) (length pre + 2)
                     = [a; b]).
      { rewrite substring_app_r by (rewrite ?length_cons; lia).
        rewrite substring_slice by (rewrite ?length_cons; lia).
        replace (length pre + 2 - length pre - (length pre - length pre)) with 2
          by lia.
        replace (length pre - length pre) with 0 by lia. reflexivity. }
      rewrite Hsub.
      inversion Hh as [|? ? Ha H1]; subst. inversion H1 as [|? ? Hb H2]; subst.
      destruct (parseInt_pair a b Ha Hb) as [-> _].
      cbn [add].
      replace (pre ++ a :: b :: r) with ((pre ++ [a; b]) ++ r)
        by (now rewrite <- app_assoc).
      replace (length pre + 2) with (length (pre ++ [a; b]))
        by (rewrite length_app; reflexivity).
      rewrite IH; [|assumption|exists (k - 1)%nat; simpl in Hk; lia
                   |simpl in Hf; lia].
      change (a :: b :: r) with ([a; b] ++ r).
      rewrite byte_values_app by (exists 1%nat; reflexivity).
      rewrite byte_total_app. f_equal. lia.
Qed.

Lemma digit_char_lower v :
  0 <= v < 16 -> In (digit_char v) (str "0123456789abcdef").
Proof.
  intros H. rewrite <- (Z2Nat.id v) by lia.
  assert (Hn : (Z.to_nat v < 16)%nat) by lia.
  generalize dependent (Z.to_nat v). intros n Hn. unfold digit_char.
  rewrite Nat2Z.id.
  do 16 (destruct n as [|n]; [simpl; tauto|]). lia.
Qed.

Lemma to_digits_lower fuel z :
  0 <= z -> lower_hex_string (to_digits fuel 16 z).
Proof.
  revert z. induction fuel as [|f IH]; intros z Hz; simpl; [constructor|].
  destruct (Z.ltb_spec z 16).
  - constructor; [|constructor]. apply digit_char_lower; lia.
  - apply Forall_app. split; [apply IH, Z.div_pos; lia|].
    constructor; [|constructor]. apply digit_char_lower.
    apply Z.mod_pos_bound; lia.
Qed.

Lemma byte_toString_lower z :
  0 <= z -> lower_hex_string (padStart (toString (Int z) 16) 2 "0"%char).
Proof.
  intros Hz. unfold toString. destruct (Z.ltb_spec z 0); [lia|].
  apply padStart_all; [simpl; tauto|]. apply to_digits_lower; lia.
Qed.

Lemma startsWith_app_l s t p :
  startsWith s p = true -> startsWith (s ++ t) p = true.
Proof.
  revert s. induction p as [|y p IH]; intros [|x s] H; simpl in *;
    try reflexivity; try discriminate.
  apply andb_true_iff in H as [-> H]. simpl. now apply IH.
Qed.

Lemma checksum_sums_bytes (s : jstring) :
  hex_string s -> (exists k, List.length s = (2 * k)%nat) ->
  checksum s
  = padStart (toString (Int (byte_total (byte_values s) mod 256)) 16)
      2 "0"%char.
Proof.
  intros Hs [k Hk]. unfold checksum. destruct s as [|c s'] eqn:E.
  { reflexivity. }
  rewrite <- E in *. rewrite hex_not_space by assumption.
  assert (Hev : Z.rem (length s) 2 = 0).
  { unfold length. rewrite Hk, Nat2Z.inj_mul, Z.mul_comm.
    apply Z.rem_mul. discriminate. }
  rewrite Hev. cbn [Z.eqb negb].
  pose proof (checksum_loop_value (S (List.length s)) [] s 0 Hs
                (ex_intro _ k Hk) ltac:(lia)) as Hloop.
  cbn [app] in Hloop. change (length []) with 0 in Hloop. rewrite Hloop.
  pose proof (byte_values_nonneg s Hs) as Hnn.
  cbn [rem Z.eqb]. rewrite Z.add_0_l, Z.rem_mod_nonneg by lia.
  reflexivity.
Qed.

(** X1. For an even number of hexadecimal digits [checksum] returns two
    lower-case hexadecimal digits that denote the sum of the bytes modulo
    256. *)
Theorem checksum_value (s : jstring) :
  hex_string s -> (exists k, List.length s = (2 * k)%nat) ->
  length (checksum s) = 2
  /\ lower_hex_string (checksum s)
  /\ parseInt (checksum s) 16 = Int (byte_total (byte_values s) mod 256).
Proof.
  intros Hs Hk. rewrite (checksum_sums_bytes s Hs Hk).
  pose proof (Z.mod_pos_bound (byte_total (byte_values s)) 256 ltac:(lia)) as Hb.
  destruct (byte_toString _ Hb) as [Hl _].
  split; [exact Hl|]. split; [apply byte_toString_lower; lia|].
  apply byte_toString_value; exact Hb.
Qed.

Lemma checksum_value_witness :
  length (checksum (str "55aa00010504")) = 2
  /\ lower_hex_string (checksum (str "55aa00010504"))
  /\ parseInt (checksum (str "55aa00010504")) 16
     = Int (byte_total (byte_values (str "55aa00010504")) mod 256).
Proof.
  apply (checksum_value (str "55aa00010504")).
  - repeat constructor.
  - exists 6%nat. reflexivity.
Defined.

(** X2. Spaces never change a checksum: two inputs that agree once their
    spaces are removed have the same checksum. *)
Theorem checksum_ignores_spaces (s t : jstring) :
  remove_spaces s = remove_spaces t -> checksum s = checksum t.
Proof.
  assert (G : forall u, checksum u
            = let input := remove_spaces u in
              if negb (Z.rem (length input) 2 =? 0) then str "00"
              else padStart
                     (toString
                        (rem (checksum_loop (S (List.length input)) input
                                (length input) 0 (Int 0)) (Int 256)) 16)
                     2 "0"%char).
  { intros [|c u]; reflexivity. }
  intros H. rewrite (G s), (G t). cbv zeta. now rewrite H.
Qed.

Lemma checksum_ignores_spaces_witness :
  checksum (str "55 aa 00 01") = checksum (str "55aa0001").
Proof.
  apply (checksum_ignores_spaces (str "55 aa 00 01") (str "55aa0001")).
  reflexivity.
Defined.

(** X3. A frame body of hexadecimal digits that starts with the header and
    has at least twelve characters, followed by its own checksum, is
    accepted; the command is characters [10, 12) of the body and the data
    is the rest of the body with the two checksum characters still
    attached. *)
Theorem parseResult_accepts_checked_body (s : jstring) :
  hex_string s -> 12 <= length s -> startsWith s FRAME_HEADER = true ->
  parseResult (s ++ checksum s)
  = Some {| raw := s ++ checksum s;
            command := substring s 10 12;
            data := substring_from s 12 ++ checksum s |}.
Proof.
  intros Hs Hl Hh. destruct (checksum_hex s Hs) as [C2 _].
  assert (Hlen : length (s ++ checksum s) = length s + 2)
    by (rewrite length_app, C2; reflexivity).
  rewrite parseResult_long by lia.
  assert (Hst : startsWith (s ++ checksum s) FRAME_HEADER = true).
  { apply startsWith_app_l. exact Hh. }
  rewrite Hst, (testChecksum_append s (checksum s) C2 eq_refl).
  change (negb true) with false. cbv iota. f_equal. f_equal.
  - apply substring_app_l; lia.
  - rewrite substring_from_skipn by lia.
    rewrite substring_from_skipn by lia.
    rewrite skipn_app.
    replace (Z.to_nat 12 - List.length s)%nat with O by (unfold length in Hl; lia).
    reflexivity.
Qed.

Lemma parseResult_accepts_checked_body_witness :
  parseResult (str "55aa0001056e00" ++ checksum (str "55aa0001056e00"))
  = Some {| raw := str "55aa0001056e00" ++ checksum (str "55aa0001056e00");
            command := substring (str "55aa0001056e00") 10 12;
            data := substring_from (str "55aa0001056e00") 12
                    ++ checksum (str "55aa0001056e00") |}.
Proof.
  apply (parseResult_accepts_checked_body (str "55aa0001056e00")).
  - repeat constructor.
  - vm_compute; discriminate.
  - reflexivity.
Defined.

(** X4. Whatever [parseResult] accepts has at least 13 characters, starts
    with the header and carries a valid checksum; its command has two
    characters and its data is never empty: it holds everything from
    character 12 on, so from 14 characters up it ends with the two
    checksum characters of the frame. *)
Theorem parseResult_accepted (input : jstring) (m : ParsedMessage) :
  parseResult input = Some m ->
  raw m = input
  /\ 13 <= length input
  /\ startsWith input FRAME_HEADER = true
  /\ checksum (substring input 0 (length input - 2))
     = substring_from input (length input - 2)
  /\ length (command m) = 2
  /\ length (data m) = length input - 12
  /\ (14 <= length input ->
        data m = substring input 12 (length input - 2)
                 ++ substring_from input (length input - 2)).
Proof.
  unfold parseResult. destruct input as [|c r] eqn:E; [discriminate|].
  rewrite <- E. clear E.
  destruct (Z.ltb_spec (length input) 13); [discriminate|].
  destruct (startsWith input FRAME_HEADER) eqn:Hs; [|discriminate].
  destruct (testChecksum input) eqn:Ht; [|discriminate].
  simpl. intros Hm. injection Hm as <-. cbn [raw command data].
  unfold testChecksum in Ht. apply string_eqb_eq in Ht.
  split; [reflexivity|]. split; [lia|]. split; [reflexivity|].
  split; [exact Ht|]. split; [|split].
  - rewrite substring_slice by lia. unfold length in *.
    rewrite length_firstn, length_skipn. lia.
  - rewrite substring_from_skipn by lia. unfold length in *.
    rewrite length_skipn. lia.
  - intros H14. rewrite !substring_from_skipn by lia.
    rewrite substring_slice by lia.
    rewrite <- (firstn_skipn (Z.to_nat (length input - 2 - 12))
                  (skipn (Z.to_nat 12) input)) at 1.
    f_equal. rewrite skipn_skipn. f_equal. lia.
Qed.

Lemma parseResult_accepted_witness :
  raw {| raw := str "55aa000105020007"; command := str "02";
         data := str "0007" |} = str "55aa000105020007"
  /\ 13 <= length (str "55aa000105020007")
  /\ startsWith (str "55aa000105020007") FRAME_HEADER = true
  /\ checksum (substring (str "55aa000105020007") 0
                 (length (str "55aa000105020007") - 2))
     = substring_from (str "55aa000105020007")
         (length (str "55aa000105020007") - 2)
  /\ length (command {| raw := str "55aa000105020007"; command := str "02";
                        data := str "0007" |}) = 2
  /\ length (data {| raw := str "55aa000105020007"; command := str "02";
                     data := str "0007" |})
     = length (str "55aa000105020007") - 12
  /\ (14 <= length (str "55aa000105020007") ->
        data {| raw := str "55aa000105020007"; command := str "02";
                data := str "0007" |}
        = substring (str "55aa000105020007") 12
            (length (str "55aa000105020007") - 2)
          ++ substring_from (str "55aa000105020007")
               (length (str "55aa000105020007") - 2)).
Proof.
  apply (parseResult_accepted (str "55aa000105020007")).
  reflexivity.
Defined.

(** X5. One altered byte is detected: if a body of hexadecimal digit pairs
    has one pair replaced by a pair of another value, its checksum changes,
    and the altered body followed by the old checksum is rejected. *)
Theorem parseResult_rejects_altered_byte
    (pre post : jstring) (a b a' b' : ascii) :
  hex_string pre -> hex_string post ->
  (exists k, List.length pre = (2 * k)%nat) ->
  (exists k, List.length post = (2 * k)%nat) ->
  is_digit 16 a = true -> is_digit 16 b = true ->
  is_digit 16 a' = true -> is_digit 16 b' = true ->
  byte_values [a; b] <> byte_values [a'; b'] ->
  checksum (pre ++ [a; b] ++ post) <> checksum (pre ++ [a'; b'] ++ post)
  /\ parseResult ((pre ++ [a'; b'] ++ post) ++ checksum (pre ++ [a; b] ++ post))
     = None.
Proof.
  intros Hpre Hpost [k Hk] [j Hj] Ha Hb Ha' Hb' Hne.
  set (s1 := pre ++ [a; b] ++ post). set (s2 := pre ++ [a'; b'] ++ post).
  assert (H1 : hex_string s1).
  { unfold s1, hex_string. rewrite !Forall_app. repeat split; try assumption.
    repeat constructor; assumption. }
  assert (H2 : hex_string s2).
  { unfold s2, hex_string. rewrite !Forall_app. repeat split; try assumption.
    repeat constructor; assumption. }
  assert (E1 : exists n, List.length s1 = (2 * n)%nat).
  { exists (k + 1 + j)%nat. unfold s1. rewrite !List.length_app. simpl. lia. }
  assert (E2 : exists n, List.length s2 = (2 * n)%nat).
  { exists (k + 1 + j)%nat. unfold s2. rewrite !List.length_app. simpl. lia. }
  pose proof (checksum_sums_bytes s1 H1 E1) as C1.
  pose proof (checksum_sums_bytes s2 H2 E2) as C2.
  pose proof (Z.mod_pos_bound (byte_total (byte_values s1)) 256 ltac:(lia))
    as B1.
  pose proof (Z.mod_pos_bound (byte_total (byte_values s2)) 256 ltac:(lia))
    as B2.
  assert (L1 : length (checksum s1) = 2)
    by (rewrite C1; apply byte_toString; exact B1).
  assert (V1 : parseInt (checksum s1) 16
               = Int (byte_total (byte_values s1) mod 256))
    by (rewrite C1; apply byte_toString_value; exact B1).
  assert (V2 : parseInt (checksum s2) 16
               = Int (byte_total (byte_values s2) mod 256))
    by (rewrite C2; apply byte_toString_value; exact B2).
  assert (Hdiff : checksum s1 <> checksum s2).
  { intros E. rewrite E, V2 in V1. injection V1 as V.
    unfold s1, s2 in V.
    rewrite !(byte_values_app pre) in V by (exists k; assumption).
    rewrite !(byte_values_app [_; _]) in V by (exists 1%nat; reflexivity).
    rewrite !byte_total_app in V.
    destruct (parseInt_pair a b Ha Hb) as [_ Rab].
    destruct (parseInt_pair a' b' Ha' Hb') as [_ Rab'].
    set (x := byte_total (byte_values [a; b])) in *.
    set (y := byte_total (byte_values [a'; b'])) in *.
    assert (x <> y).
    { intros Exy. apply Hne. subst x y. simpl in *. f_equal. lia. }
    set (p := byte_total (byte_values pre)) in *.
    set (q := byte_total (byte_values post)) in *.
    assert (Hm : (x - y) mod 256 = 0).
    { replace (x - y) with ((p + (x + q)) - (p + (y + q))) by lia.
      rewrite Zminus_mod, V, Z.sub_diag. reflexivity. }
    apply Z.mod_divide in Hm; [|lia]. destruct Hm as [c Hc]. lia. }
  split; [exact Hdiff|].
  unfold parseResult.
  destruct (s2 ++ checksum s1) as [|c0 r0] eqn:E; [reflexivity|].
  rewrite <- E. clear E.
  destruct (length (s2 ++ checksum s1) <? 13); [reflexivity|].
  destruct (negb (startsWith (s2 ++ checksum s1) FRAME_HEADER)); [reflexivity|].
  assert (Ht : testChecksum (s2 ++ checksum s1) = false).
  { unfold testChecksum. rewrite length_app, L1.
    replace (length s2 + 2 - 2) with (length s2) by lia.
    rewrite substring_prefix, substring_from_suffix.
    apply string_eqb_neq. congruence. }
  now rewrite Ht.
Qed.

Lemma parseResult_rejects_altered_byte_witness :
  checksum (str "55aa000105" ++ [ "6"%char; "e"%char ] ++ str "00")
  <> checksum (str "55aa000105" ++ [ "6"%char; "f"%char ] ++ str "00")
  /\ parseResult
       ((str "55aa000105" ++ [ "6"%char; "f"%char ] ++ str "00")
        ++ checksum (str "55aa000105" ++ [ "6"%char; "e"%char ] ++ str "00"))
     = None.
Proof.
  apply (parseResult_rejects_altered_byte (str "55aa000105") (str "00")
           "6"%char "e"%char "6"%char "f"%char).
  - repeat constructor.
  - repeat constructor.
  - exists 5%nat. reflexivity.
  - exists 1%nat. reflexivity.
  - reflexivity.
  - reflexivity.
  - reflexivity.
  - reflexivity.
  - discriminate.
Defined.

(** X6. [decodeBoolean] is true exactly on the inputs that begin with
    ['01']; whatever follows is ignored. *)
Theorem decodeBoolean_iff (input : jstring) :
  decodeBoolean input = true <-> exists rest, input = str "01" ++ rest.
Proof.
  unfold decodeBoolean. rewrite string_eqb_eq. split.
  - intros H. destruct input as [|a [|b rest]].
    + discriminate H.
    + vm_compute in H. discriminate H.
    + exists rest.
      assert (E : substring (a :: b :: rest) 0 2 = [a; b]).
      { pose proof (length_nonneg rest).
        rewrite substring_slice by (rewrite ?length_cons; lia). reflexivity. }
      rewrite E in H. injection H as -> ->. reflexivity.
  - intros [rest ->]. pose proof (length_nonneg rest).
    rewrite substring_app_l by (change (length (str "01")) with 2; lia).
    reflexivity.
Qed.

(** X7. For a command of an even number of hexadecimal digits (at most 490)
    and a password that reads as a four-byte integer, the compiled frame
    has [20 + length cmd] characters and its length byte, characters
    [8, 10), denotes the number of bytes of the whole frame, checksum
    included. *)
Theorem compileMessage_length_byte (u : t) (cmd : jstring) :
  valid_credential u -> hex_string cmd -> length cmd <= 490 ->
  (exists k, List.length cmd = (2 * k)%nat) ->
  length (compileMessage u cmd) = 20 + length cmd
  /\ parseInt (substring (compileMessage u cmd) 8 10) 16
     = Int (length (compileMessage u cmd) / 2).
Proof.
  intros Hu Hcmd Hlen [k Hk].
  destruct (encodedPwd_hex u Hu) as [E8 EH].
  destruct (lengthHex_hex u cmd E8 ltac:(lia)) as [L2 LH].
  destruct (checksum_hex (full u cmd) (full_hex u cmd Hu Hcmd ltac:(lia)))
    as [C2 _].
  pose proof (length_nonneg cmd) as Hc0.
  assert (Hl : length (compileMessage u cmd) = 20 + length cmd).
  { unfold compileMessage. rewrite length_app, C2. unfold full.
    rewrite !length_app, L2, E8.
    change (length FRAME_HEADER) with 4. change (length MESSAGE_ID) with 4.
    lia. }
  split; [exact Hl|]. rewrite Hl.
  unfold compileMessage, full.
  replace ((FRAME_HEADER ++ MESSAGE_ID ++ lengthHex u cmd ++ encodedPwd u ++ cmd)
           ++ checksum (FRAME_HEADER ++ MESSAGE_ID ++ lengthHex u cmd
                        ++ encodedPwd u ++ cmd))
    with ((FRAME_HEADER ++ MESSAGE_ID)
          ++ (lengthHex u cmd
              ++ (encodedPwd u ++ cmd
                  ++ checksum (FRAME_HEADER ++ MESSAGE_ID ++ lengthHex u cmd
                               ++ encodedPwd u ++ cmd))))
    by (now rewrite <- !app_assoc).
  set (tail := encodedPwd u ++ cmd
               ++ checksum (FRAME_HEADER ++ MESSAGE_ID ++ lengthHex u cmd
                            ++ encodedPwd u ++ cmd)).
  pose proof (length_nonneg tail) as Ht0.
  rewrite substring_app_r
    by (change (length (FRAME_HEADER ++ MESSAGE_ID)) with 8;
        rewrite ?length_app, ?L2; lia).
  change (length (FRAME_HEADER ++ MESSAGE_ID)) with 8.
  change (8 - 8) with 0. change (10 - 8) with 2.
  assert (Hp : substring (lengthHex u cmd ++ tail) 0 2 = lengthHex u cmd)
    by (rewrite <- L2; apply substring_prefix).
  rewrite Hp.
  unfold lengthHex. rewrite E8.
  change (length FRAME_HEADER) with 4. change (length MESSAGE_ID) with 4.
  assert (Hq : Z.quot (4 + 4 + 8 + length cmd) 2 + 2 = (20 + length cmd) / 2).
  { rewrite Z.quot_div_nonneg by lia.
    unfold length. rewrite Hk, Nat2Z.inj_mul.
    change (Z.of_nat 2) with 2.
    replace (4 + 4 + 8 + 2 * Z.of_nat k) with ((8 + Z.of_nat k) * 2) by lia.
    replace (20 + 2 * Z.of_nat k) with ((10 + Z.of_nat k) * 2) by lia.
    rewrite !Z.div_mul by lia. lia. }
  rewrite Hq. apply byte_toString_value.
  unfold length in *. rewrite Hk, Nat2Z.inj_mul in *.
  change (Z.of_nat 2) with 2 in *.
  replace (20 + 2 * Z.of_nat k) with ((10 + Z.of_nat k) * 2) by lia.
  rewrite Z.div_mul by lia. lia.
Qed.

Lemma compileMessage_length_byte_witness :
  length (compileMessage {| password := Some (str "123456") |} (str "6e"))
  = 20 + length (str "6e")
  /\ parseInt (substring (compileMessage {| password := Some (str "123456") |}
                            (str "6e")) 8 10) 16
     = Int (length (compileMessage {| password := Some (str "123456") |}
                      (str "6e")) / 2).
Proof.
  apply (compileMessage_length_byte {| password := Some (str "123456") |}
           (str "6e")).
  - exists 123456. split; [reflexivity|lia].
  - repeat constructor.
  - vm_compute; discriminate.
  - exists 1%nat. reflexivity.
Defined.

End CodecMore.

(* ------------------------------------------------------------------ *)
(** ** The requests of the set commands *)
(* ------------------------------------------------------------------ *)

Section Requests.

Import ChargerController.
Implicit Types s t : jstring.

Lemma all_ascii_complete c : In c all_ascii.
Proof.
  unfold all_ascii. rewrite <- (ascii_nat_embedding c).
  apply in_map, in_seq. pose proof (nat_ascii_bounded c). lia.
Qed.

(** A run of zeros before hexadecimal digits does not change the value. *)
Lemma padded_digits_value z n :
  0 <= z -> parseInt (padStart (digits 16 z) n "0"%char) 16 = Int z.
Proof.
  intros Hz.
  assert (Hh : hex_string (padStart (digits 16 z) n "0"%char)).
  { apply padStart_all; [reflexivity|]. apply digits_all; lia. }
  destruct (parseInt_digits 16 (padStart (digits 16 z) n "0"%char))
    as (w & Ew & _ & Pw); [lia| |exact Hh|].
  - unfold padStart. intros E. apply app_eq_nil in E as [_ E].
    now apply digits_nonempty in E.
  - rewrite Ew. f_equal. unfold padStart in Pw.
    rewrite parse_digits_zeros in Pw;
      [|lia|apply digits_nonempty|apply digits_all; lia].
    rewrite digits_value in Pw by lia. congruence.
Qed.

Lemma padded_digits_length z n :
  0 <= z < 16 ^ n -> 1 <= n ->
  length (padStart (digits 16 z) n "0"%char) = n.
Proof.
  intros Hz Hn. rewrite padStart_length.
  pose proof (digits_length 16 z n ltac:(lia) Hz Hn). lia.
Qed.

(** The clamped numeric payload of the set commands. *)
Lemma clamped_payload (q : Q) (limit width : Z) :
  (0 <= q)%Q -> 0 <= limit < 16 ^ width -> 1 <= width ->
  let payload :=
    padStart (toString (Math_min (Math_trunc (RFin q)) (Int limit)) 16)
      width "0"%char in
  length payload = width
  /\ hex_string payload
  /\ parseInt payload 16 = Int (Z.min (Qtrunc q) limit).
Proof.
  intros Hq Hl Hw. apply Qtrunc_nonneg in Hq. cbv zeta.
  assert (E : Math_min (Math_trunc (RFin q)) (Int limit)
              = Int (Z.min (Qtrunc q) limit)).
  { unfold Math_trunc, Math_min, lt.
    destruct (Z.ltb_spec limit (Qtrunc q)); f_equal; lia. }
  rewrite E. set (z := Z.min (Qtrunc q) limit).
  assert (Hz : 0 <= z < 16 ^ width) by (unfold z; lia).
  unfold toString. destruct (Z.ltb_spec z 0); [lia|].
  split; [apply padded_digits_length; lia|].
  split; [apply padStart_all; [reflexivity|apply digits_all; lia]|].
  apply padded_digits_value; lia.
Qed.

Lemma clamped_above (x : real) (limit : Z) :
  0 <= limit -> exceeds x limit ->
  Math_min (Math_trunc x) (Int limit) = Int limit.
Proof.
  intros Hl. unfold exceeds.
  destruct x as [|[]|q]; try contradiction; [reflexivity|].
  intros H. apply Qtrunc_above in H; [|lia].
  unfold Math_trunc, Math_min, lt.
  destruct (Z.ltb_spec limit (Qtrunc q)); [reflexivity|]. f_equal; lia.
Qed.

(** X8. [sendSetMaxMonthlyPower] keeps the whole two-byte range: a finite
    non-negative argument is sent as four hexadecimal digits that denote
    the smaller of its integer part and 65535, and anything above 65535 as
    ['ffff']. *)
Theorem setMaxMonthlyPower_payload (maxCurrent : real) :
  (forall q, maxCurrent = RFin q -> (0 <= q)%Q ->
     exists payload,
       sendSetMaxMonthlyPower_request maxCurrent
       = Command.SetMaxMonthlyPower ++ payload
       /\ length payload = 4 /\ hex_string payload
       /\ parseInt payload 16 = Int (Z.min (Qtrunc q) 65535))
  /\ (exceeds maxCurrent 65535 ->
        sendSetMaxMonthlyPower_request maxCurrent = str "78ffff").
Proof.
  split.
  - intros q -> Hq. unfold sendSetMaxMonthlyPower_request.
    eexists. split; [reflexivity|].
    apply (clamped_payload q 65535 4 Hq); [simpl; lia|lia].
  - intros H. unfold sendSetMaxMonthlyPower_request.
    rewrite clamped_above by (assumption || lia). reflexivity.
Qed.

Lemma setMaxMonthlyPower_payload_witness :
  (exists payload,
     sendSetMaxMonthlyPower_request (RFin (3001 # 2))
     = Command.SetMaxMonthlyPower ++ payload
     /\ length payload = 4 /\ hex_string payload
     /\ parseInt payload 16 = Int (Z.min (Qtrunc (3001 # 2)) 65535))
  /\ sendSetMaxMonthlyPower_request (RInf false) = str "78ffff".
Proof.
  split.
  - apply (proj1 (setMaxMonthlyPower_payload (RFin (3001 # 2))) (3001 # 2)).
    + reflexivity.
    + discriminate.
  - apply (proj2 (setMaxMonthlyPower_payload (RInf false))). exact I.
Defined.

(** X9. For a finite non-negative current the request of [sendSetDLB] has
    exactly ten characters: the command, the two flags, one byte that
    denotes the smaller of the integer part of the current and 255, and
    the night-mode flag. *)
Theorem setDLB_layout (enabled extremeMode nightMode : bool) (q : Q) :
  (0 <= q)%Q ->
  let request := sendSetDLB_request enabled extremeMode (RFin q) nightMode in
  length request = 10
  /\ substring request 0 2 = Command.SetDLB
  /\ CommandUtil.decodeBoolean (substring request 2 4) = enabled
  /\ CommandUtil.decodeBoolean (substring request 4 6) = extremeMode
  /\ parseInt (substring request 6 8) 16 = Int (Z.min (Qtrunc q) 255)
  /\ CommandUtil.decodeBoolean (substring request 8 10) = nightMode.
Proof.
  intros Hq. cbv zeta. unfold sendSetDLB_request.
  destruct (clamped_payload q 255 2 Hq) as (L & _ & V); [simpl; lia|lia|].
  cbv zeta in L, V.
  set (payload := padStart _ 2 "0"%char) in *.
  assert (E : forall t, substring (Command.SetDLB ++ flag enabled
                ++ flag extremeMode ++ payload ++ t) 6 8 = payload).
  { intros t. pose proof (length_nonneg t).
    replace (Command.SetDLB ++ flag enabled ++ flag extremeMode ++ payload ++ t)
      with ((Command.SetDLB ++ flag enabled ++ flag extremeMode)
            ++ payload ++ t) by (now rewrite <- !app_assoc).
    assert (H6 : length (Command.SetDLB ++ flag enabled ++ flag extremeMode) = 6)
      by (destruct enabled, extremeMode; reflexivity).
    rewrite substring_app_r by (rewrite ?H6, ?length_app, ?L; lia).
    rewrite H6. change (6 - 6) with 0. change (8 - 6) with 2.
    rewrite <- L. apply substring_prefix. }
  rewrite E.
  destruct payload as [|p1 [|p2 [|p3 rest]]]; try discriminate L.
  2:{ unfold length in L. simpl in L. lia. }
  split; [destruct enabled, extremeMode, nightMode; reflexivity|].
  split; [destruct enabled, extremeMode, nightMode; reflexivity|].
  split; [destruct enabled, extremeMode, nightMode; reflexivity|].
  split; [destruct enabled, extremeMode, nightMode; reflexivity|].
  split; [exact V|].
  destruct enabled, extremeMode, nightMode; reflexivity.
Qed.

Lemma setDLB_layout_witness :
  let request := sendSetDLB_request true false (RFin (16 # 1)) true in
  length request = 10
  /\ substring request 0 2 = Command.SetDLB
  /\ CommandUtil.decodeBoolean (substring request 2 4) = true
  /\ CommandUtil.decodeBoolean (substring request 4 6) = false
  /\ parseInt (substring request 6 8) 16 = Int (Z.min (Qtrunc (16 # 1)) 255)
  /\ CommandUtil.decodeBoolean (substring request 8 10) = true.
Proof.
  apply (setDLB_layout true false true (16 # 1)). discriminate.
Defined.

(** X10. The request of [sendSetPassword] carries the credential that the
    frames compiled after a fulfilled wait will carry, as long as the new
    password is not empty; for the empty password the request carries
    ['00000NaN'] while the later frames fall back to the default
    credential. *)
Theorem setPassword_request_matches_credential
    (c : t) (password : jstring) (response : ParsedMessage) :
  (password <> [] ->
     sendSetPassword_request password
     = Command.PasswordChange
       ++ CommandUtil.encodedPwd
            (util (snd (sendSetPassword c password (Fulfilled response)))))
  /\ (password = [] ->
        sendSetPassword_request password = str "0200000NaN"
        /\ CommandUtil.encodedPwd
             (util (snd (sendSetPassword c password (Fulfilled response))))
           = str "0001e240").
Proof.
  split.
  - intros Hne. unfold sendSetPassword_request, sendSetPassword; cbn [snd util].
    unfold CommandUtil.encodedPwd, CommandUtil.effective_password.
    cbn [CommandUtil.password]. destruct password; [congruence|reflexivity].
  - intros ->. split; reflexivity.
Qed.

Lemma setPassword_request_matches_credential_witness :
  sendSetPassword_request (str "654321")
  = Command.PasswordChange
    ++ CommandUtil.encodedPwd
         (util (snd (sendSetPassword (create None) (str "654321")
                       (Fulfilled {| raw := str "55aa000105020108";
                                     command := str "02";
                                     data := str "0108" |})))).
Proof.
  apply (proj1 (setPassword_request_matches_credential (create None)
                  (str "654321")
                  {| raw := str "55aa000105020108"; command := str "02";
                     data := str "0108" |})).
  discriminate.
Defined.

End Requests.

(* ------------------------------------------------------------------ *)
(** ** The address query and the host *)
(* ------------------------------------------------------------------ *)

Section Address.

Import ChargerController.
Implicit Types s t d : jstring.

(** Hexadecimal text of [n] digits reads as a number below [16 ^ n]. *)
Lemma parse_digits_bound s acc k :
  hex_string s -> 0 <= acc < 16 ^ k -> 0 <= k ->
  exists v, parse_digits 16 s (Some acc) = Some v
            /\ 0 <= v < 16 ^ (k + length s).
Proof.
  intros H. revert acc k. induction H as [|c s Hc Hs IH]; intros acc k Ha Hk.
  - exists acc. change (length []) with 0. rewrite Z.add_0_r. auto.
  - apply is_digit_value in Hc as (v & Ev & Hv).
    rewrite (parse_digits_step 16 c s (Some acc) v Ev) by lia.
    destruct (IH (16 * acc + v) (k + 1)) as (w & Ew & Hw); [|lia|].
    + rewrite Z.pow_add_r, Z.pow_1_r by lia. lia.
    + exists w. split; [exact Ew|]. rewrite length_cons.
      replace (k + (1 + length s)) with (k + 1 + length s) by lia. exact Hw.
Qed.

Lemma hex_field_bound s :
  hex_string s -> s <> [] ->
  exists v, parseInt s 16 = Int v /\ 0 <= v < 16 ^ length s.
Proof.
  intros H Hne.
  destruct (parseInt_digits 16 s ltac:(lia) Hne H) as (v & Ev & _ & Pv).
  exists v. split; [exact Ev|].
  destruct s as [|c s]; [congruence|].
  inversion H as [|? ? Hc Hs]; subst.
  apply is_digit_value in Hc as (w & Ew & Hw).
  rewrite (parse_digits_step 16 c s None w Ew) in Pv by lia.
  destruct (parse_digits_bound s (16 * 0 + w) 1 Hs) as (v' & Ev' & Hv');
    [simpl; lia|lia|].
  rewrite Ev' in Pv. injection Pv as <-. rewrite length_cons. exact Hv'.
Qed.

Lemma substring_length s a b :
  0 <= a <= b -> b <= length s -> length (substring s a b) = b - a.
Proof.
  intros Hab Hb. rewrite substring_slice by lia. unfold length in *.
  rewrite length_firstn, length_skipn. lia.
Qed.

(** X11. The tester of [sendGetIpAddress] accepts every response whose data
    begins with the eight digits that the request carries, whatever
    follows, when the code is a decimal numeral below [2^32]; for a code
    that is no number it accepts no response at all. *)
Theorem getIpAddress_tester (code : jstring) (result : ParsedMessage) :
  (forall v rest,
     parseInt code 10 = Int v -> 0 <= v < 2 ^ 32 ->
     data result = substring_from (sendGetIpAddress_request code) 2 ++ rest ->
     sendGetIpAddress_tester code result = true)
  /\ (parseInt code 10 = NaN -> sendGetIpAddress_tester code result = false).
Proof.
  split.
  - intros v rest Ev Hv Hd. unfold sendGetIpAddress_tester.
    rewrite Hd, Ev. unfold sendGetIpAddress_request. rewrite Ev.
    unfold toString. destruct (Z.ltb_spec v 0); [lia|].
    set (payload := padStart (digits 16 v) 8 "0"%char).
    assert (L : length payload = 8)
      by (apply padded_digits_length; [simpl; lia|lia]).
    assert (E : substring_from (Command.GetIpAddress ++ payload) 2 = payload)
      by (apply (substring_from_suffix Command.GetIpAddress payload)).
    rewrite E. rewrite <- L at 1. rewrite substring_prefix.
    unfold payload. rewrite padded_digits_value by lia.
    simpl. apply Z.eqb_refl.
  - intros E. unfold sendGetIpAddress_tester. rewrite E.
    destruct (parseInt _ 16); reflexivity.
Qed.

Lemma getIpAddress_tester_witness :
  sendGetIpAddress_tester (str "012345678")
    {| raw := str ""; command := str "03";
       data := substring_from (sendGetIpAddress_request (str "012345678")) 2
               ++ str "c0a801640d05" |} = true
  /\ sendGetIpAddress_tester (str "zbox")
       {| raw := str ""; command := str "03"; data := str "00000000" |}
     = false.
Proof.
  split.
  - apply (proj1 (getIpAddress_tester (str "012345678")
                    {| raw := str ""; command := str "03";
                       data := substring_from
                                 (sendGetIpAddress_request (str "012345678")) 2
                               ++ str "c0a801640d05" |})
             12345678 (str "c0a801640d05")).
    + reflexivity.
    + lia.
    + reflexivity.
  - apply (proj2 (getIpAddress_tester (str "zbox")
                    {| raw := str ""; command := str "03";
                       data := str "00000000" |})).
    reflexivity.
Defined.

(** Four hexadecimal digits read as two bytes, the first the higher. *)
Lemma parseInt_quad a b c e :
  is_digit 16 a = true -> is_digit 16 b = true ->
  is_digit 16 c = true -> is_digit 16 e = true ->
  parseInt [a; b; c; e] 16
  = Int (256 * byte_total (byte_values [a; b])
         + byte_total (byte_values [c; e])).
Proof.
  intros Ha Hb Hc He.
  destruct (parseInt_digits 16 [a; b; c; e]) as (v & Ev & _ & Pv);
    [lia|discriminate|repeat constructor; assumption|].
  apply is_digit_value in Ha as (va & Ea & Hva).
  apply is_digit_value in Hb as (vb & Eb & Hvb).
  apply is_digit_value in Hc as (vc & Ec & Hvc).
  apply is_digit_value in He as (ve & Ee & Hve).
  rewrite (parse_digits_step 16 a [b; c; e] None va Ea) in Pv by lia.
  rewrite (parse_digits_step 16 b [c; e] _ vb Eb) in Pv by lia.
  rewrite (parse_digits_step 16 c [e] _ vc Ec) in Pv by lia.
  rewrite (parse_digits_step 16 e [] _ ve Ee) in Pv by lia.
  unfold parse_digits in Pv.
  assert (Hv : v = 16 * (16 * (16 * (16 * 0 + va) + vb) + vc) + ve)
    by congruence.
  cbn [byte_values byte_total fold_right].
  rewrite Ea, Eb, Ec, Ee, Ev, Hv. f_equal. lia.
Qed.

(** X12. From data of at least twenty hexadecimal digits the decoded
    address is a dotted quad of four decimal numbers between 0 and 255,
    one per byte of characters [8, 16), and the port is the number that
    the two bytes of characters [16, 20) spell, the higher byte first. *)
Theorem decodeIpAddress_dotted_quad (d : jstring) :
  hex_string d -> 20 <= length d ->
  exists a b c e hi lo,
    0 <= a <= 255 /\ 0 <= b <= 255 /\ 0 <= c <= 255 /\ 0 <= e <= 255
    /\ 0 <= hi <= 255 /\ 0 <= lo <= 255
    /\ byte_values (substring d 8 16) = [a; b; c; e]
    /\ byte_values (substring d 16 20) = [hi; lo]
    /\ decodeIpAddress d
       = (digits 10 a ++ str "." ++ digits 10 b ++ str "."
          ++ digits 10 c ++ str "." ++ digits 10 e,
          Int (256 * hi + lo)).
Proof.
  intros H Hl.
  assert (Q : exists hi lo,
            0 <= hi <= 255 /\ 0 <= lo <= 255
            /\ byte_values (substring d 16 20) = [hi; lo]
            /\ parseInt (substring d 16 20) 16 = Int (256 * hi + lo)).
  { assert (L : length (substring d 16 20) = 4)
      by (rewrite substring_length; lia).
    assert (Hh : hex_string (substring d 16 20))
      by (apply Forall_substring; exact H).
    destruct (substring d 16 20) as [|c1 [|c2 [|c3 [|c4 [|c5 r]]]]];
      try discriminate L.
    2:{ unfold length in L. simpl in L. lia. }
    inversion Hh as [|? ? H1 Hh1]; subst.
    inversion Hh1 as [|? ? H2 Hh2]; subst.
    inversion Hh2 as [|? ? H3 Hh3]; subst.
    inversion Hh3 as [|? ? H4 _]; subst.
    destruct (parseInt_pair c1 c2 H1 H2) as [_ R1].
    destruct (parseInt_pair c3 c4 H3 H4) as [_ R2].
    exists (byte_total (byte_values [c1; c2])),
           (byte_total (byte_values [c3; c4])).
    split; [lia|]. split; [lia|]. split.
    - cbn [byte_values byte_total fold_right].
      f_equal; [lia|]. f_equal. lia.
    - apply parseInt_quad; assumption. }
  destruct Q as (hi & lo & Hhi & Hlo & Bp & Ep).
  assert (F : forall x, 8 <= x -> x + 2 <= 20 ->
            exists v, parseInt (substring d x (x + 2)) 16 = Int v
                      /\ 0 <= v <= 255
                      /\ byte_values (substring d x (x + 2)) = [v]).
  { intros x Hx Hx'.
    assert (L : length (substring d x (x + 2)) = 2)
      by (rewrite substring_length; lia).
    assert (Hh : hex_string (substring d x (x + 2)))
      by (apply Forall_substring; exact H).
    destruct (substring d x (x + 2)) as [|c1 [|c2 [|c3 r]]];
      try discriminate L.
    2:{ unfold length in L. simpl in L. lia. }
    inversion Hh as [|? ? H1 Hh']; subst. inversion Hh' as [|? ? H2 _]; subst.
    destruct (parseInt_pair c1 c2 H1 H2) as [E R].
    exists (byte_total (byte_values [c1; c2])). split; [exact E|].
    split; [lia|]. cbn [byte_values byte_total fold_right]. f_equal. lia. }
  destruct (F 8) as (a & Ea & Ha & Ba); [lia|lia|].
  destruct (F 10) as (b & Eb & Hb & Bb); [lia|lia|].
  destruct (F 12) as (c & Ec & Hc & Bc); [lia|lia|].
  destruct (F 14) as (e & Ee & He & Be); [lia|lia|].
  exists a, b, c, e, hi, lo.
  repeat (split; [lia|]). split; [|split; [exact Bp|]].
  - assert (S : substring d 8 16
               = substring d 8 (8 + 2) ++ substring d 10 (10 + 2)
                 ++ substring d 12 (12 + 2) ++ substring d 14 (14 + 2)).
    { rewrite !substring_slice by lia.
      change (Z.to_nat (8 + 2 - 8)) with 2%nat.
      change (Z.to_nat (10 + 2 - 10)) with 2%nat.
      change (Z.to_nat (12 + 2 - 12)) with 2%nat.
      change (Z.to_nat (14 + 2 - 14)) with 2%nat.
      change (Z.to_nat (16 - 8)) with (2 + (2 + (2 + 2)))%nat.
      change (Z.to_nat 10) with (2 + Z.to_nat 8)%nat.
      change (Z.to_nat 12) with (2 + (2 + Z.to_nat 8))%nat.
      change (Z.to_nat 14) with (2 + (2 + (2 + Z.to_nat 8)))%nat.
      rewrite <- !skipn_skipn.
      set (l := skipn (Z.to_nat 8) d).
      rewrite <- (firstn_skipn 2 l) at 1.
      rewrite firstn_app, length_firstn.
      assert (Hll : (8 <= List.length l)%nat)
        by (unfold l; rewrite length_skipn; unfold length in Hl; lia).
      replace (2 + (2 + (2 + 2)) - Init.Nat.min 2 (List.length l))%nat
        with (2 + (2 + 2))%nat by lia.
      rewrite firstn_firstn. change (Init.Nat.min (2 + (2 + (2 + 2))) 2) with 2%nat.
      f_equal.
      set (l2 := skipn 2 l).
      assert (Hl2 : (6 <= List.length l2)%nat)
        by (unfold l2; rewrite length_skipn; lia).
      rewrite <- (firstn_skipn 2 l2) at 1.
      rewrite firstn_app, length_firstn.
      replace (2 + (2 + 2) - Init.Nat.min 2 (List.length l2))%nat
        with (2 + 2)%nat by lia.
      rewrite firstn_firstn. change (Init.Nat.min (2 + (2 + 2)) 2) with 2%nat.
      f_equal.
      set (l3 := skipn 2 l2).
      assert (Hl3 : (4 <= List.length l3)%nat)
        by (unfold l3; rewrite length_skipn; lia).
      rewrite <- (firstn_skipn 2 l3) at 1.
      rewrite firstn_app, length_firstn.
      replace (2 + 2 - Init.Nat.min 2 (List.length l3))%nat with 2%nat by lia.
      rewrite firstn_firstn. reflexivity. }
    rewrite S.
    assert (T : forall x, 8 <= x -> x + 2 <= 20 ->
              exists k, List.length (substring d x (x + 2)) = (2 * k)%nat).
    { intros x Hx Hx'. exists 1%nat.
      pose proof (substring_length d x (x + 2) ltac:(lia) ltac:(lia)) as L.
      unfold length in L. lia. }
    rewrite !byte_values_app by (apply T; lia).
    rewrite Ba, Bb, Bc, Be. reflexivity.
  - unfold decodeIpAddress.
    change 10 with (8 + 2) at 1. rewrite Ea.
    change 12 with (10 + 2) at 1. rewrite Eb.
    change 14 with (12 + 2) at 1. rewrite Ec.
    change 16 with (14 + 2) at 1. rewrite Ee.
    rewrite Ep. unfold toString.
    destruct (Z.ltb_spec a 0), (Z.ltb_spec b 0), (Z.ltb_spec c 0),
      (Z.ltb_spec e 0); try lia.
    reflexivity.
Qed.

Lemma decodeIpAddress_dotted_quad_witness :
  exists a b c e hi lo,
    0 <= a <= 255 /\ 0 <= b <= 255 /\ 0 <= c <= 255 /\ 0 <= e <= 255
    /\ 0 <= hi <= 255 /\ 0 <= lo <= 255
    /\ byte_values (substring (str "00bc614ec0a801640d05a1") 8 16)
       = [a; b; c; e]
    /\ byte_values (substring (str "00bc614ec0a801640d05a1") 16 20)
       = [hi; lo]
    /\ decodeIpAddress (str "00bc614ec0a801640d05a1")
       = (digits 10 a ++ str "." ++ digits 10 b ++ str "."
          ++ digits 10 c ++ str "." ++ digits 10 e,
          Int (256 * hi + lo)).
Proof.
  apply (decodeIpAddress_dotted_quad (str "00bc614ec0a801640d05a1")).
  - repeat constructor.
  - vm_compute; discriminate.
Defined.

(** X13. [setHost] never stores an empty address: an omitted or empty
    address becomes the broadcast address, and the port defaults to 3333.
    The socket survives only when the address given is the stored one and
    the port is the stored one; an omitted address always closes it. *)
Theorem setHost_effect (h : connection) (ip : option jstring)
    (p : option number) :
  ipAddress h <> [] ->
  let h' := setHost h ip p in
  ipAddress h' <> []
  /\ (ip = None \/ ip = Some [] -> ipAddress h' = broadcast_address)
  /\ (p = None -> port h' = Int 3333)
  /\ (socket h' = true ->
        socket h = true /\ ip = Some (ipAddress h)
        /\ strict_eq (port h') (port h) = true
        /\ ipAddress h' = ipAddress h)
  /\ (ip = None -> socket h' = false /\ isConnected h' = false).
Proof.
  intros Hne. cbv zeta. unfold setHost.
  split; [|split; [|split; [|split]]].
  - destruct ip as [[|x a]|]; cbn [ipAddress]; discriminate.
  - intros [->| ->]; reflexivity.
  - intros ->. reflexivity.
  - destruct ip as [a|]; cbn [orb].
    2:{ cbn [socket disconnect]. discriminate. }
    destruct (string_eqb a (ipAddress h)) eqn:Ea; cbn [negb orb].
    2:{ cbn [socket disconnect]. discriminate. }
    apply string_eqb_eq in Ea. subst a.
    destruct (strict_eq match p with Some x => x | None => Int 3333 end (port h))
      eqn:Ep; cbn [negb].
    2:{ cbn [socket disconnect]. discriminate. }
    cbn [socket port ipAddress]. intros Hs.
    split; [exact Hs|]. split; [reflexivity|]. split; [exact Ep|].
    destruct (ipAddress h); [congruence|reflexivity].
  - intros ->. cbn [orb socket isConnected disconnect]. auto.
Qed.

Lemma setHost_effect_witness :
  let h := {| socket := true; isConnected := true;
              ipAddress := str "192.168.1.100"; port := Int 3333 |} in
  let h' := setHost h None None in
  ipAddress h' <> []
  /\ (@None jstring = None \/ @None jstring = Some [] ->
        ipAddress h' = broadcast_address)
  /\ (@None number = None -> port h' = Int 3333)
  /\ (socket h' = true ->
        socket h = true /\ @None jstring = Some (ipAddress h)
        /\ strict_eq (port h') (port h) = true
        /\ ipAddress h' = ipAddress h)
  /\ (@None jstring = None -> socket h' = false /\ isConnected h' = false).
Proof.
  apply (setHost_effect
           {| socket := true; isConnected := true;
              ipAddress := str "192.168.1.100"; port := Int 3333 |}
           None None).
  discriminate.
Defined.

(** X14. After a fulfilled [sendGetIpAddress] the [host] getter reports the
    decoded address, and the decoded port unless that is zero or not a
    number, in which case it reports 3333. *)
Theorem getIpAddress_sets_host (h : connection) (result : ParsedMessage) :
  host (snd (sendGetIpAddress h (Fulfilled result)))
  = (fst (decodeIpAddress (data result)),
     or_else (snd (decodeIpAddress (data result))) (Int 3333))
  /\ fst (sendGetIpAddress h (Fulfilled result))
     = Fulfilled (decodeIpAddress (data result)).
Proof.
  unfold sendGetIpAddress.
  destruct (decodeIpAddress (data result)) as [ip p] eqn:E. cbn [fst snd].
  split; [|reflexivity].
  unfold host, setHost. cbn [ipAddress port].
  assert (Hip : exists x y, ip = x :: y).
  { unfold decodeIpAddress in E. injection E as E _. subst ip.
    destruct (toString (parseInt (substring (data result) 8 10) 16) 10);
      simpl; eauto. }
  destruct Hip as (x & y & ->). reflexivity.
Qed.

End Address.

(* ------------------------------------------------------------------ *)
(** ** Text, date and reservation payloads *)
(* ------------------------------------------------------------------ *)

Section TextAndTime.

Import ChargerController.
Implicit Types s t d : jstring.

Lemma upper_digit_value v :
  0 <= v < 16 -> digit_value (upper_digit_char v) = Some v.
Proof.
  intros H. rewrite <- (Z2Nat.id v) at 2 by lia.
  unfold upper_digit_char.
  assert (Hn : (Z.to_nat v < 16)%nat) by lia.
  generalize dependent (Z.to_nat v). intros n Hn.
  do 16 (destruct n as [|n]; [reflexivity|]). lia.
Qed.

Lemma code_range c : 0 <= code c < 256.
Proof.
  unfold code. pose proof (N_ascii_bounded c). lia.
Qed.

Lemma encodeString_cons c s :
  code c < 128 ->
  CommandUtil.encodeString (c :: s)
  = [upper_digit_char (code c / 16); upper_digit_char (code c mod 16)]
    ++ CommandUtil.encodeString s.
Proof.
  intros H. unfold CommandUtil.encodeString. cbn [utf8_bytes flat_map].
  destruct (Z.ltb_spec (code c) 128); [reflexivity|lia].
Qed.

Lemma encodeString_bytes (s : jstring) :
  ascii_string s ->
  length (CommandUtil.encodeString s) = 2 * length s
  /\ byte_values (CommandUtil.encodeString s) = map code s.
Proof.
  induction 1 as [|c s Hc Hs (IHl & IHv)].
  - split; reflexivity.
  - rewrite encodeString_cons by assumption.
    pose proof (code_range c) as Hr.
    assert (Hq : 0 <= code c / 16 < 16).
    { split; [apply Z.div_pos; lia|apply Z.div_lt_upper_bound; lia]. }
    pose proof (Z.mod_pos_bound (code c) 16 ltac:(lia)) as Hm.
    pose proof (upper_digit_value _ Hq) as E1.
    pose proof (upper_digit_value _ Hm) as E2.
    split.
    + rewrite length_app, IHl, !length_cons.
      change (length (@nil ascii)) with 0. lia.
    + cbn [app byte_values map]. rewrite E1, E2, IHv. f_equal.
      rewrite (Z.div_mod (code c) 16) at 3 by lia. lia.
Qed.

(** X15. For text of code units below 128 [encodeString] writes two
    hexadecimal digits per character, and read back as bytes they are the
    character codes. *)
Theorem encodeString_ascii (s : jstring) :
  ascii_string s ->
  length (CommandUtil.encodeString s) = 2 * length s
  /\ hex_string (CommandUtil.encodeString s)
  /\ byte_values (CommandUtil.encodeString s) = map code s.
Proof.
  intros Hs. destruct (encodeString_bytes s Hs) as [Hl Hv].
  split; [exact Hl|]. split; [|exact Hv]. clear Hl Hv.
  induction Hs as [|c s Hc Hs IH]; [constructor|].
  rewrite encodeString_cons by assumption.
  pose proof (code_range c) as Hr.
  assert (Hq : 0 <= code c / 16 < 16).
  { split; [apply Z.div_pos; lia|apply Z.div_lt_upper_bound; lia]. }
  pose proof (Z.mod_pos_bound (code c) 16 ltac:(lia)) as Hm.
  apply Forall_app. split; [|exact IH].
  constructor; [|constructor; [|constructor]];
    unfold is_digit; rewrite upper_digit_value by assumption;
    apply Z.ltb_lt; lia.
Qed.

Lemma encodeString_ascii_witness :
  length (CommandUtil.encodeString (str "ZBox-1")) = 2 * length (str "ZBox-1")
  /\ hex_string (CommandUtil.encodeString (str "ZBox-1"))
  /\ byte_values (CommandUtil.encodeString (str "ZBox-1"))
     = map code (str "ZBox-1").
Proof.
  apply (encodeString_ascii (str "ZBox-1")).
  repeat constructor.
Defined.

(** X16. For an access point name and a password of code units below 128
    and fewer than 256 characters the request of [sendSetWifiAccessPoint]
    is the command, two bytes that denote the two lengths, and then exactly
    that many bytes of name and of password. *)
Theorem setWifiAccessPoint_layout (ssid password : jstring) :
  ascii_string ssid -> ascii_string password ->
  length ssid < 256 -> length password < 256 ->
  let request := sendSetWifiAccessPoint_request ssid password in
  length request = 6 + 2 * length ssid + 2 * length password
  /\ parseInt (substring request 2 4) 16 = Int (length ssid)
  /\ parseInt (substring request 4 6) 16 = Int (length password)
  /\ byte_values (substring request 6 (6 + 2 * length ssid)) = map code ssid
  /\ byte_values (substring_from request (6 + 2 * length ssid))
     = map code password.
Proof.
  intros Hs Hp Ls Lp. cbv zeta.
  destruct (encodeString_bytes ssid Hs) as (Es & Vs).
  destruct (encodeString_bytes password Hp) as (Ep & Vp).
  pose proof (length_nonneg ssid) as Hs0.
  pose proof (length_nonneg password) as Hp0.
  destruct (byte_toString (length ssid) ltac:(lia)) as [B1 _].
  destruct (byte_toString (length password) ltac:(lia)) as [B2 _].
  unfold sendSetWifiAccessPoint_request.
  set (l1 := padStart (toString (Int (length ssid)) 16) 2 "0"%char) in *.
  set (l2 := padStart (toString (Int (length password)) 16) 2 "0"%char) in *.
  set (e1 := CommandUtil.encodeString ssid) in *.
  set (e2 := CommandUtil.encodeString password) in *.
  pose proof (length_nonneg e1). pose proof (length_nonneg e2).
  assert (C2 : length Command.SetWifiAccessPoint = 2) by reflexivity.
  split; [|split; [|split; [|split]]].
  - rewrite !length_app, B1, B2, Es, Ep, C2. lia.
  - rewrite substring_app_r by (rewrite ?C2, ?length_app, ?B1; lia).
    rewrite C2. change (2 - 2) with 0. change (4 - 2) with 2.
    rewrite <- B1 at 1. rewrite substring_prefix.
    apply byte_toString_value. lia.
  - replace (Command.SetWifiAccessPoint ++ l1 ++ l2 ++ e1 ++ e2)
      with ((Command.SetWifiAccessPoint ++ l1) ++ l2 ++ e1 ++ e2)
      by (now rewrite <- !app_assoc).
    assert (L4 : length (Command.SetWifiAccessPoint ++ l1) = 4)
      by (rewrite length_app, B1; reflexivity).
    rewrite substring_app_r by (rewrite ?L4, ?length_app, ?B2; lia).
    rewrite L4. change (4 - 4) with 0. change (6 - 4) with 2.
    rewrite <- B2 at 1. rewrite substring_prefix.
    apply byte_toString_value. lia.
  - replace (Command.SetWifiAccessPoint ++ l1 ++ l2 ++ e1 ++ e2)
      with ((Command.SetWifiAccessPoint ++ l1 ++ l2) ++ e1 ++ e2)
      by (now rewrite <- !app_assoc).
    assert (L6 : length (Command.SetWifiAccessPoint ++ l1 ++ l2) = 6)
      by (rewrite !length_app, B1, B2; reflexivity).
    rewrite substring_app_r by (rewrite ?L6, ?length_app, ?Es; lia).
    rewrite L6. replace (6 - 6) with 0 by lia.
    replace (6 + 2 * length ssid - 6) with (length e1) by lia.
    rewrite substring_prefix. exact Vs.
  - replace (Command.SetWifiAccessPoint ++ l1 ++ l2 ++ e1 ++ e2)
      with ((Command.SetWifiAccessPoint ++ l1 ++ l2 ++ e1) ++ e2)
      by (now rewrite <- !app_assoc).
    assert (L : length (Command.SetWifiAccessPoint ++ l1 ++ l2 ++ e1)
                = 6 + 2 * length ssid)
      by (rewrite !length_app, B1, B2, Es, C2; lia).
    rewrite <- L, substring_from_suffix. exact Vp.
Qed.

Lemma setWifiAccessPoint_layout_witness :
  let request := sendSetWifiAccessPoint_request (str "home") (str "secret1") in
  length request = 6 + 2 * length (str "home") + 2 * length (str "secret1")
  /\ parseInt (substring request 2 4) 16 = Int (length (str "home"))
  /\ parseInt (substring request 4 6) 16 = Int (length (str "secret1"))
  /\ byte_values (substring request 6 (6 + 2 * length (str "home")))
     = map code (str "home")
  /\ byte_values (substring_from request (6 + 2 * length (str "home")))
     = map code (str "secret1").
Proof.
  apply (setWifiAccessPoint_layout (str "home") (str "secret1")).
  - repeat constructor.
  - repeat constructor.
  - reflexivity.
  - reflexivity.
Defined.

Lemma two_digits_ok z :
  0 <= z <= 99 ->
  length (CommandUtil.two_digits z) = 2
  /\ decimal_string (CommandUtil.two_digits z).
Proof.
  intros Hz. unfold CommandUtil.two_digits, toString.
  destruct (Z.ltb_spec z 0); [lia|]. split.
  - rewrite padStart_length.
    pose proof (digits_length 10 z 2 ltac:(lia) ltac:(simpl; lia) ltac:(lia)).
    lia.
  - apply padStart_all; [reflexivity|]. apply digits_all; lia.
Qed.

Lemma getCurrentDate_digits (now : CommandUtil.clock) :
  valid_clock now ->
  length (CommandUtil.getCurrentDate now) = 12
  /\ decimal_string (CommandUtil.getCurrentDate now).
Proof.
  intros (Hy & Hm & Hd & Hh & Hmi & Hs).
  assert (Hr : 0 <= Z.rem (CommandUtil.getFullYear now) 100 <= 99).
  { pose proof (Z.rem_bound_pos (CommandUtil.getFullYear now) 100). lia. }
  destruct (two_digits_ok _ Hr) as [L1 D1].
  destruct (two_digits_ok (CommandUtil.getMonth now + 1)) as [L2 D2]; [lia|].
  destruct (two_digits_ok (CommandUtil.getDate now)) as [L3 D3]; [lia|].
  destruct (two_digits_ok (CommandUtil.getHours now)) as [L4 D4]; [lia|].
  destruct (two_digits_ok (CommandUtil.getMinutes now)) as [L5 D5]; [lia|].
  destruct (two_digits_ok (CommandUtil.getSeconds now)) as [L6 D6]; [lia|].
  split.
  - unfold CommandUtil.getCurrentDate.
    rewrite !length_app, L1, L2, L3, L4, L5, L6. reflexivity.
  - unfold CommandUtil.getCurrentDate, decimal_string.
    rewrite !Forall_app. auto 10.
Qed.

(** X17. For a valid date and time [getCurrentDate] is exactly twelve
    decimal digits, two for each of year, month, day, hour, minute and
    second, so the request of [sendSyncTime] has fourteen characters. *)
Theorem getCurrentDate_fixed_width (now : CommandUtil.clock) :
  valid_clock now ->
  length (CommandUtil.getCurrentDate now) = 12
  /\ decimal_string (CommandUtil.getCurrentDate now)
  /\ length (sendSyncTime_request now) = 14.
Proof.
  intros Hn. destruct (getCurrentDate_digits now Hn) as [L D].
  split; [exact L|]. split; [exact D|].
  unfold sendSyncTime_request. rewrite length_app, L. reflexivity.
Qed.

Lemma getCurrentDate_fixed_width_witness :
  length (CommandUtil.getCurrentDate
            {| CommandUtil.getFullYear := 2024; CommandUtil.getMonth := 1;
               CommandUtil.getDate := 29; CommandUtil.getHours := 7;
               CommandUtil.getMinutes := 5; CommandUtil.getSeconds := 0 |})
  = 12
  /\ decimal_string
       (CommandUtil.getCurrentDate
          {| CommandUtil.getFullYear := 2024; CommandUtil.getMonth := 1;
             CommandUtil.getDate := 29; CommandUtil.getHours := 7;
             CommandUtil.getMinutes := 5; CommandUtil.getSeconds := 0 |})
  /\ length (sendSyncTime_request
               {| CommandUtil.getFullYear := 2024; CommandUtil.getMonth := 1;
                  CommandUtil.getDate := 29; CommandUtil.getHours := 7;
                  CommandUtil.getMinutes := 5; CommandUtil.getSeconds := 0 |})
     = 14.
Proof.
  apply (getCurrentDate_fixed_width
           {| CommandUtil.getFullYear := 2024; CommandUtil.getMonth := 1;
              CommandUtil.getDate := 29; CommandUtil.getHours := 7;
              CommandUtil.getMinutes := 5; CommandUtil.getSeconds := 0 |}).
  unfold valid_clock; simpl; lia.
Defined.

Lemma week_string_bits d : week_string d = week_of_bits (week_bits d).
Proof.
  unfold week_string, week_of_bits, week_bits. now rewrite map_map.
Qed.

Lemma week_bits_seven d :
  exists b0 b1 b2 b3 b4 b5 b6, week_bits d = [b0; b1; b2; b3; b4; b5; b6].
Proof. unfold week_bits. simpl. eauto 8. Qed.

(** The mask byte of seven flags reads back as the seven flags. *)
Lemma week_mask_roundtrip_bits b0 b1 b2 b3 b4 b5 b6 :
  let week := week_of_bits [b0; b1; b2; b3; b4; b5; b6] in
  let mask := padStart (toString (parseInt week 2) 16) 2 "0"%char in
  length mask = 2
  /\ padStart (toString (parseInt mask 16) 2) 7 "0"%char = week.
Proof.
  destruct b0, b1, b2, b3, b4, b5, b6; vm_compute; split; reflexivity.
Qed.

Lemma week_field_length daysOfWeek : length (week_field daysOfWeek) = 2.
Proof.
  destruct daysOfWeek as [[|c d]|]; try reflexivity.
  unfold week_field. rewrite week_string_bits.
  destruct (week_bits_seven (c :: d)) as (b0 & b1 & b2 & b3 & b4 & b5 & b6 & ->).
  apply (week_mask_roundtrip_bits b0 b1 b2 b3 b4 b5 b6).
Qed.

(** X18. The week mask that [sendSetReservation] sends reads back through
    [sendGetControlsState]: a controls payload that holds the mask byte at
    characters [18, 20) decodes [reservation] to the seven flags, one
    character per day, ['1'] exactly for the days whose character in
    [daysOfWeek] is ['1']; characters beyond the seventh are ignored and
    missing ones count as ['0']. *)
Theorem week_mask_roundtrip (daysOfWeek : option jstring)
    (before after : jstring) :
  length before = 18 ->
  reservation
    (decodeControlsState (before ++ week_field daysOfWeek ++ after))
  = Some (week_string match daysOfWeek with Some d => d | None => [] end).
Proof.
  intros Hb. pose proof (length_nonneg after) as Ha.
  pose proof (week_field_length daysOfWeek) as Hw.
  unfold decodeControlsState; cbn [reservation].
  assert (Hl : 20 <= length (before ++ week_field daysOfWeek ++ after))
    by (rewrite !length_app, Hb, Hw; lia).
  destruct (Z.leb_spec 20 (length (before ++ week_field daysOfWeek ++ after)));
    [|lia].
  f_equal. unfold hex_field.
  rewrite substring_app_r by (rewrite ?Hb, ?length_app, ?Hw; lia).
  rewrite Hb. change (18 - 18) with 0. change (20 - 18) with 2.
  rewrite <- Hw at 1. rewrite substring_prefix.
  destruct daysOfWeek as [[|c d]|]; try reflexivity.
  unfold week_field. rewrite week_string_bits.
  destruct (week_bits_seven (c :: d)) as (b0 & b1 & b2 & b3 & b4 & b5 & b6 & ->).
  apply (week_mask_roundtrip_bits b0 b1 b2 b3 b4 b5 b6).
Qed.

Lemma week_mask_roundtrip_witness :
  reservation
    (decodeControlsState
       (str "010100015000200010" ++ week_field (Some (str "0111110x"))
        ++ str "0800163000"))
  = Some (week_string (str "0111110x")).
Proof.
  apply (week_mask_roundtrip (Some (str "0111110x"))
           (str "010100015000200010") (str "0800163000")).
  reflexivity.
Defined.

Lemma substring_short s a b :
  (List.length (substring s a b) <= Z.to_nat (Z.abs (b - a)))%nat.
Proof.
  unfold substring, clamp. rewrite length_firstn.
  pose proof (length_nonneg s). lia.
Qed.

Lemma time_part_fits_all :
  time_part_fits [] = true
  /\ forallb (fun x : ascii => time_part_fits [x]) all_ascii = true
  /\ forallb (fun x : ascii =>
                forallb (fun y : ascii => time_part_fits [x; y]) all_ascii)
       all_ascii = true.
Proof. vm_compute. auto. Qed.

Lemma time_part_length t a :
  length (time_part t a (a + 2)) = 2.
Proof.
  unfold time_part.
  pose proof (substring_short t a (a + 2)) as H.
  replace (Z.to_nat (Z.abs (a + 2 - a))) with 2%nat in H by lia.
  destruct time_part_fits_all as (H0 & H1 & H2).
  rewrite forallb_forall in H1, H2.
  destruct (substring t a (a + 2)) as [|c [|d [|e r]]].
  - apply Z.eqb_eq. exact H0.
  - apply Z.eqb_eq. apply (H1 c), all_ascii_complete.
  - specialize (H2 c (all_ascii_complete c)). rewrite forallb_forall in H2.
    apply Z.eqb_eq. apply (H2 d), all_ascii_complete.
  - simpl in H. lia.
Qed.

Lemma time_field_length (tm : option jstring) : length (time_field tm) = 4.
Proof.
  destruct tm as [[|c t]|]; try reflexivity.
  unfold time_field. rewrite length_app.
  pose proof (time_part_length (c :: t) 0) as H0.
  pose proof (time_part_length (c :: t) 3) as H3.
  change (0 + 2) with 2 in H0. change (3 + 2) with 5 in H3.
  rewrite H0, H3. reflexivity.
Qed.

(** X19. Whatever the three arguments are, for a valid date and time the
    request of [sendSetReservation] has exactly 24 characters: the command,
    the twelve digits of the date, the week mask at characters [14, 16),
    and two bytes each for the start and the end time. *)
Theorem setReservation_fixed_width (now : CommandUtil.clock)
    (fromTime toTime daysOfWeek : option jstring) :
  valid_clock now ->
  let request := sendSetReservation_request now fromTime toTime daysOfWeek in
  length request = 24
  /\ substring request 2 14 = CommandUtil.getCurrentDate now
  /\ substring request 14 16 = week_field daysOfWeek
  /\ substring request 16 20 = time_field fromTime
  /\ substring_from request 20 = time_field toTime.
Proof.
  intros Hn. cbv zeta. unfold sendSetReservation_request.
  destruct (getCurrentDate_digits now Hn) as (Ld & _).
  pose proof (week_field_length daysOfWeek) as Lw.
  pose proof (time_field_length fromTime) as Lf.
  pose proof (time_field_length toTime) as Lt.
  set (dt := CommandUtil.getCurrentDate now) in *.
  set (w := week_field daysOfWeek) in *.
  set (f := time_field fromTime) in *.
  set (e := time_field toTime) in *.
  assert (C2 : length Command.SetReservation = 2) by reflexivity.
  replace (Command.SetReservation ++ ((dt ++ w) ++ f) ++ e)
    with (Command.SetReservation ++ dt ++ w ++ f ++ e)
    by (now rewrite <- !app_assoc).
  split; [|split; [|split; [|split]]].
  - rewrite !length_app, C2, Ld, Lw, Lf, Lt. reflexivity.
  - rewrite substring_app_r by (rewrite ?C2, ?length_app, ?Ld, ?Lw, ?Lf, ?Lt; lia).
    rewrite C2. change (2 - 2) with 0. change (14 - 2) with 12.
    rewrite <- Ld at 1. apply substring_prefix.
  - replace (Command.SetReservation ++ dt ++ w ++ f ++ e)
      with ((Command.SetReservation ++ dt) ++ w ++ f ++ e)
      by (now rewrite <- !app_assoc).
    assert (L : length (Command.SetReservation ++ dt) = 14)
      by (rewrite length_app, C2, Ld; reflexivity).
    rewrite substring_app_r by (rewrite ?L, ?length_app, ?Lw, ?Lf, ?Lt; lia).
    rewrite L. change (14 - 14) with 0. change (16 - 14) with 2.
    rewrite <- Lw at 1. apply substring_prefix.
  - replace (Command.SetReservation ++ dt ++ w ++ f ++ e)
      with ((Command.SetReservation ++ dt ++ w) ++ f ++ e)
      by (now rewrite <- !app_assoc).
    assert (L : length (Command.SetReservation ++ dt ++ w) = 16)
      by (rewrite !length_app, C2, Ld, Lw; reflexivity).
    rewrite substring_app_r by (rewrite ?L, ?length_app, ?Lf, ?Lt; lia).
    rewrite L. change (16 - 16) with 0. change (20 - 16) with 4.
    rewrite <- Lf at 1. apply substring_prefix.
  - replace (Command.SetReservation ++ dt ++ w ++ f ++ e)
      with ((Command.SetReservation ++ dt ++ w ++ f) ++ e)
      by (now rewrite <- !app_assoc).
    assert (L : length (Command.SetReservation ++ dt ++ w ++ f) = 20)
      by (rewrite !length_app, C2, Ld, Lw, Lf; reflexivity).
    rewrite <- L. apply substring_from_suffix.
Qed.

Lemma setReservation_fixed_width_witness :
  let now := {| CommandUtil.getFullYear := 2024; CommandUtil.getMonth := 1;
                CommandUtil.getDate := 29; CommandUtil.getHours := 7;
                CommandUtil.getMinutes := 5; CommandUtil.getSeconds := 0 |} in
  let request :=
    sendSetReservation_request now (Some (str "22:00")) (Some (str "5h"))
      None in
  length request = 24
  /\ substring request 2 14 = CommandUtil.getCurrentDate now
  /\ substring request 14 16 = week_field None
  /\ substring request 16 20 = time_field (Some (str "22:00"))
  /\ substring_from request 20 = time_field (Some (str "5h")).
Proof.
  apply (setReservation_fixed_width
           {| CommandUtil.getFullYear := 2024; CommandUtil.getMonth := 1;
              CommandUtil.getDate := 29; CommandUtil.getHours := 7;
              CommandUtil.getMinutes := 5; CommandUtil.getSeconds := 0 |}
           (Some (str "22:00")) (Some (str "5h")) None).
  unfold valid_clock; simpl; lia.
Defined.

End TextAndTime.

(* ------------------------------------------------------------------ *)
(** ** More on the payload decoders *)
(* ------------------------------------------------------------------ *)

Section Decoders.

Import ChargerController.
Implicit Types s result : jstring.

(** Byte [k] of hexadecimal text is what [parseInt] reads at [2 k]. *)
Lemma hex_byte_at s k :
  hex_string s -> 2 * Z.of_nat k + 2 <= length s ->
  parseInt (substring s (2 * Z.of_nat k) (2 * Z.of_nat k + 2)) 16
  = Int (nth k (byte_values s) 0)
  /\ 0 <= nth k (byte_values s) 0 <= 255.
Proof.
  revert s. induction k as [|k IH]; intros s Hs Hl.
  - destruct s as [|a [|b r]];
      try (unfold length in Hl; simpl in Hl; lia).
    pose proof (length_nonneg r).
    inversion Hs as [|? ? Ha H1]; subst. inversion H1 as [|? ? Hb H2]; subst.
    change (2 * Z.of_nat 0) with 0. change (0 + 2) with 2.
    rewrite substring_slice by (rewrite ?length_cons; lia).
    change (firstn (Z.to_nat (2 - 0)) (skipn (Z.to_nat 0) (a :: b :: r)))
      with [a; b].
    destruct (parseInt_pair a b Ha Hb) as [E R]. rewrite E.
    cbn [byte_values byte_total fold_right nth] in *. split; [f_equal; lia|lia].
  - destruct s as [|a [|b r]];
      try (unfold length in Hl; simpl in Hl; lia).
    inversion Hs as [|? ? Ha H1]; subst. inversion H1 as [|? ? Hb H2]; subst.
    rewrite !length_cons in Hl.
    change (a :: b :: r) with ([a; b] ++ r) at 1.
    rewrite substring_app_r
      by (change (length [a; b]) with 2; lia).
    change (length [a; b]) with 2.
    replace (2 * Z.of_nat (S k) - 2) with (2 * Z.of_nat k) by lia.
    replace (2 * Z.of_nat (S k) + 2 - 2) with (2 * Z.of_nat k + 2) by lia.
    cbn [byte_values nth]. apply IH; [assumption|lia].
Qed.

(** X20. On a payload of at least 24 hexadecimal digits fault flag [k] is
    set exactly when byte [k] is not zero; on a payload that ends at or
    before the byte of flag [k], the flag is reported as set. *)
Theorem faultFlags_values (result : jstring) (k : nat) :
  (k < 12)%nat ->
  (hex_string result -> 24 <= length result ->
     nth k (flags12 (decodeFaultStatus result)) false
     = negb (nth k (byte_values result) 0 =? 0))
  /\ (length result <= 2 * Z.of_nat k ->
        nth k (flags12 (decodeFaultStatus result)) false = true).
Proof.
  intros Hk.
  assert (G : nth k (flags12 (decodeFaultStatus result)) false
              = fault_flag result (2 * Z.of_nat k) (2 * Z.of_nat k + 2)).
  { do 12 (destruct k as [|k]; [reflexivity|]). lia. }
  rewrite G. unfold fault_flag. split.
  - intros Hh Hl.
    destruct (hex_byte_at result k Hh ltac:(lia)) as [-> _]. reflexivity.
  - intros Hl. rewrite substring_past_end by lia. reflexivity.
Qed.

Lemma faultFlags_values_witness :
  nth 3 (flags12 (decodeFaultStatus (str "000000010000000000000000"))) false
  = negb (nth 3 (byte_values (str "000000010000000000000000")) 0 =? 0)
  /\ nth 3 (flags12 (decodeFaultStatus (str "000000"))) false = true.
Proof.
  split.
  - apply (proj1 (faultFlags_values (str "000000010000000000000000") 3
                    ltac:(lia))).
    + repeat constructor.
    + vm_compute; discriminate.
  - apply (proj2 (faultFlags_values (str "000000") 3 ltac:(lia))).
    vm_compute; discriminate.
Defined.

(** X21. The gated groups of the controls state appear exactly at 20, 30
    and 36 characters; behind the reservation group the monthly power is
    read at characters [28, 32), the emergency-stop flag at [32, 34), the
    extreme mode at [34, 36) and the night mode at [36, 38), past the
    gate: a payload of exactly 36 characters always decodes [nightMode] to
    false. *)
Theorem controlsState_gates (result : jstring) :
  (reservation (decodeControlsState result) <> None <-> 20 <= length result)
  /\ (maxMonthlyPower (decodeControlsState result) <> None
      <-> 30 <= length result)
  /\ (nightMode (decodeControlsState result) <> None <-> 36 <= length result)
  /\ (30 <= length result ->
        maxMonthlyPower (decodeControlsState result)
        = Some (hex_field result 28 32)
        /\ emergencyStopProtection (decodeControlsState result)
           = Some (strict_eq (or_else (hex_field result 32 34) (Int 0))
                     (Int 1)))
  /\ (36 <= length result ->
        extremeMode (decodeControlsState result)
        = Some (strict_eq (hex_field result 34 36) (Int 1))
        /\ nightMode (decodeControlsState result)
           = Some (strict_eq (hex_field result 36 38) (Int 1)))
  /\ (length result = 36 ->
        nightMode (decodeControlsState result) = Some false).
Proof.
  unfold decodeControlsState;
    cbn [reservation maxMonthlyPower nightMode extremeMode
         emergencyStopProtection].
  destruct (Z.leb_spec 20 (length result)), (Z.leb_spec 30 (length result)),
    (Z.leb_spec 36 (length result)); try lia;
    (split; [split; intros; congruence || lia|]);
    (split; [split; intros; congruence || lia|]);
    (split; [split; intros; congruence || lia|]);
    (split; [intros; try lia; split; reflexivity|]);
    (split; [intros; try lia; split; reflexivity|]);
    intros E; try lia.
  unfold hex_field. rewrite substring_past_end by lia. reflexivity.
Qed.

Lemma controlsState_gates_witness :
  (30 <= length (str "010100015000200010550800163003e80101") ->
     maxMonthlyPower
       (decodeControlsState (str "010100015000200010550800163003e80101"))
     = Some (hex_field (str "010100015000200010550800163003e80101") 28 32)
     /\ emergencyStopProtection
          (decodeControlsState (str "010100015000200010550800163003e80101"))
        = Some (strict_eq
                  (or_else
                     (hex_field (str "010100015000200010550800163003e80101")
                        32 34) (Int 0))
                  (Int 1)))
  /\ nightMode
       (decodeControlsState (str "010100015000200010550800163003e80101"))
     = Some false.
Proof.
  split.
  - apply (proj1 (proj2 (proj2 (proj2
             (controlsState_gates
                (str "010100015000200010550800163003e80101")))))).
  - apply (proj2 (proj2 (proj2 (proj2 (proj2
             (controlsState_gates
                (str "010100015000200010550800163003e80101"))))))).
    reflexivity.
Defined.

Lemma parseInt_finite s r :
  match parseInt s r with Inf _ => False | _ => True end.
Proof.
  unfold parseInt. destruct (strip_sign (trim_start s)) as [neg s2].
  destruct (parse_digits r _ None); exact I.
Qed.

Lemma or_else_number x : is_number (or_else x (Int 0)).
Proof. unfold is_number. destruct x as [|b|[|p|p]]; discriminate. Qed.

Lemma read_days_finite n result ptr :
  Forall finite (fst (read_days n result ptr)).
Proof.
  revert ptr. induction n as [|n IH]; intros ptr; [constructor|].
  rewrite read_days_S. cbn [fst]. constructor; [|apply IH].
  unfold Cursor.hex.
  pose proof (parseInt_finite (substring result (ptr + 0) (ptr + 4)) 16) as F.
  destruct (parseInt _ 16) as [|b|[|p|p]]; simpl; tauto.
Qed.

Lemma read_days_ptr n result ptr :
  snd (read_days n result ptr) = ptr + 4 * Z.of_nat n.
Proof.
  revert ptr. induction n as [|n IH]; intros ptr.
  - simpl. lia.
  - rewrite read_days_S. cbn [snd]. rewrite IH. lia.
Qed.

Lemma read_years_S n result ptr :
  read_years (S n) result ptr
  = (or_else (parseInt (substring result (ptr + 0) (ptr + 4)) 16) (Int 0)
     :: fst (read_years n result (ptr + 4)),
     snd (read_years n result (ptr + 4))).
Proof.
  cbn [read_years].
  unfold Cursor.bind, Cursor.hex, Cursor.advance, Cursor.ret.
  destruct (read_years n result (ptr + 4)); reflexivity.
Qed.

Lemma read_years_length n result ptr :
  List.length (fst (read_years n result ptr)) = n.
Proof.
  revert ptr. induction n as [|n IH]; intros ptr; [reflexivity|].
  rewrite read_years_S. cbn [fst List.length]. now rewrite IH.
Qed.

Lemma read_years_number n result ptr :
  Forall is_number (fst (read_years n result ptr)).
Proof.
  revert ptr. induction n as [|n IH]; intros ptr; [constructor|].
  rewrite read_years_S. cbn [fst]. constructor; [|apply IH].
  apply or_else_number.
Qed.

Lemma read_years_nth n result ptr i :
  (i < n)%nat ->
  nth i (fst (read_years n result ptr)) NaN
  = or_else
      (parseInt (substring result (ptr + 4 * Z.of_nat i)
                   (ptr + 4 * Z.of_nat i + 4)) 16)
      (Int 0).
Proof.
  revert ptr i. induction n as [|n IH]; intros ptr i Hi; [lia|].
  rewrite read_years_S. cbn [fst]. destruct i as [|i]; cbn [nth].
  - do 3 f_equal; lia.
  - rewrite IH by lia. do 3 f_equal; lia.
Qed.

Lemma read_records_unfold result :
  decodePowerConsumptionRecords result
  = {| r_days := fst (read_days 20 result 0);
       months := fst (read_days 12 result 80);
       years := if 130 <=? length result
                then fst (read_years 10 result 128) else [] |}.
Proof.
  unfold decodePowerConsumptionRecords, Cursor.run, read_records.
  unfold Cursor.bind at 1.
  pose proof (read_days_ptr 20 result 0) as P1.
  destruct (read_days 20 result 0) as [d p1]. cbn [fst snd] in *. subst p1.
  unfold Cursor.bind at 1.
  pose proof (read_days_ptr 12 result (0 + 4 * Z.of_nat 20)) as P2.
  change (0 + 4 * Z.of_nat 20) with 80 in *.
  destruct (read_days 12 result 80) as [m p2]. cbn [fst snd] in *. subst p2.
  unfold Cursor.bind at 1. unfold Cursor.len at 1.
  unfold Cursor.bind at 1.
  change (80 + 4 * Z.of_nat 12) with 128.
  destruct (130 <=? length result).
  - destruct (read_years 10 result 128) as [y p3]. reflexivity.
  - reflexivity.
Qed.

(** X22. Whatever the payload, [sendGetPowerConsumptionRecords] returns 20
    day values and 12 month values, all finite (what does not parse counts
    as zero), read from four characters each starting at 0 and at 80; it
    returns 10 year values, read from character 128 on and never [NaN],
    exactly when the payload has at least 130 characters, and none
    otherwise. *)
Theorem consumptionRecords_shape (result : jstring) :
  let r := decodePowerConsumptionRecords result in
  List.length (r_days r) = 20%nat
  /\ List.length (months r) = 12%nat
  /\ List.length (years r)
     = (if 130 <=? length result then 10%nat else 0%nat)
  /\ Forall finite (r_days r) /\ Forall finite (months r)
  /\ Forall is_number (years r)
  /\ (forall i, (i < 20)%nat ->
        nth i (r_days r) RNaN
        = div10 (or_else (hex_field result (4 * Z.of_nat i)
                            (4 * Z.of_nat i + 4)) (Int 0)))
  /\ (forall i, (i < 12)%nat ->
        nth i (months r) RNaN
        = div10 (or_else (hex_field result (80 + 4 * Z.of_nat i)
                            (80 + 4 * Z.of_nat i + 4)) (Int 0)))
  /\ (forall i, (i < 10)%nat -> 130 <= length result ->
        nth i (years r) NaN
        = or_else (hex_field result (128 + 4 * Z.of_nat i)
                     (128 + 4 * Z.of_nat i + 4)) (Int 0)).
Proof.
  cbv zeta. rewrite read_records_unfold. cbn [r_days months years].
  split; [apply read_days_length|]. split; [apply read_days_length|].
  split.
  { destruct (130 <=? length result);
      [apply read_years_length|reflexivity]. }
  split; [apply read_days_finite|]. split; [apply read_days_finite|].
  split.
  { destruct (130 <=? length result);
      [apply read_years_number|constructor]. }
  split; [|split].
  - intros i Hi. rewrite read_days_nth by assumption. reflexivity.
  - intros i Hi. rewrite read_days_nth by assumption. reflexivity.
  - intros i Hi Hl. destruct (Z.leb_spec 130 (length result)); [|lia].
    rewrite read_years_nth by assumption. reflexivity.
Qed.

Lemma phase_width_cursor mode result :
  snd (read_phase mode result 0) = phase_width mode.
Proof.
  unfold read_phase, phase_width.
  unfold Cursor.bind at 1. unfold Cursor.len at 1.
  destruct (strict_eq mode ChargerMode.OnePhase); [reflexivity|].
  destruct (strict_eq mode ChargerMode.ThreePhase); reflexivity.
Qed.

Lemma realtime_state mode result :
  state (decodeRealTimeData mode result)
  = canonical_state
      (parseInt (substring result (phase_width mode + 10)
                   (phase_width mode + 12)) 16).
Proof.
  unfold decodeRealTimeData, Cursor.run, read_realtime.
  unfold Cursor.bind at 1.
  pose proof (phase_width_cursor mode result) as P.
  destruct (read_phase mode result 0) as [ph p]. cbn [snd] in P. subst p.
  set (w := phase_width mode).
  unfold read_common, read_timed, read_time.
  unfold Cursor.bind, Cursor.hex, Cursor.peek, Cursor.advance, Cursor.ret.
  destruct (gate_v106 (isV106 ph) result _) as [[[mc mp] rs] p1].
  destruct (gate_v108 (isV108 ph) result p1) as [mx p2].
  destruct (gate_v110 (isV110 ph) result p2) as [ex p3].
  reflexivity.
Qed.

(** X23. The decoded state is never one of the legacy codes 3 and 4; after
    a fulfilled [sendGetRealTimeData] with a known model the getters
    follow the state byte, which sits ten characters behind the
    mode-dependent readings: charging can start when it is 2 or 3, it
    can stop when it is 5 or 6, and never both.  With no model the call
    fails and the controller is left as it was. *)
Theorem charging_getters (c : t) (response : ParsedMessage) :
  (forall mode, model_mode c = Some mode ->
     let c' := snd (sendGetRealTimeData c (Fulfilled response)) in
     let raw := parseInt (substring (data response) (phase_width mode + 10)
                            (phase_width mode + 12)) 16 in
     lastKnownState c' <> Some (Int 3) /\ lastKnownState c' <> Some (Int 4)
     /\ canStartCharging c' = strict_eq raw (Int 2) || strict_eq raw (Int 3)
     /\ canStopCharging c' = strict_eq raw (Int 5) || strict_eq raw (Int 6)
     /\ canStartCharging c' && canStopCharging c' = false)
  /\ (model_mode c = None ->
        sendGetRealTimeData c (Fulfilled response) = (Rejected TypeError, c)).
Proof.
  split.
  - intros mode Hm. cbv zeta. unfold sendGetRealTimeData. rewrite Hm.
    cbn [snd]. unfold canStartCharging, canStopCharging, lastKnownState.
    cbn [lastData option_map]. rewrite realtime_state.
    set (raw := parseInt _ 16). unfold canonical_state.
    destruct raw as [|b|z]; cbn [strict_eq].
    + repeat split; try discriminate; reflexivity.
    + repeat split; try discriminate; reflexivity.
    + destruct (Z.eqb_spec z 4) as [->|H4]; [repeat split; discriminate|].
      destruct (Z.eqb_spec z 3) as [->|H3]; [repeat split; discriminate|].
      unfold ChargerState.Standby, ChargerState.NotReady, ChargerState.Charging.
      cbn [strict_eq].
      destruct (Z.eqb_spec z 2), (Z.eqb_spec z 5), (Z.eqb_spec z 6);
        repeat split; try (intros E; injection E; lia); try reflexivity; lia.
  - intros Hm. unfold sendGetRealTimeData. now rewrite Hm.
Qed.

Lemma charging_getters_witness :
  let c := {| util := {| CommandUtil.password := None |};
              model_mode := Some ChargerMode.OnePhase;
              lastFaultStatus := None; lastData := None |} in
  let response := {| raw := str ""; command := str "70";
                     data := str "001000e6000a0064780300000000000000" |} in
  let c' := snd (sendGetRealTimeData c (Fulfilled response)) in
  let raw := parseInt (substring (data response)
                         (phase_width ChargerMode.OnePhase + 10)
                         (phase_width ChargerMode.OnePhase + 12)) 16 in
  (lastKnownState c' <> Some (Int 3) /\ lastKnownState c' <> Some (Int 4)
   /\ canStartCharging c' = strict_eq raw (Int 2) || strict_eq raw (Int 3)
   /\ canStopCharging c' = strict_eq raw (Int 5) || strict_eq raw (Int 6)
   /\ canStartCharging c' && canStopCharging c' = false)
  /\ raw = Int 3 /\ canStartCharging c' = true.
Proof.
  cbv zeta. split; [|split; reflexivity].
  apply (proj1 (charging_getters
                  {| util := {| CommandUtil.password := None |};
                     model_mode := Some ChargerMode.OnePhase;
                     lastFaultStatus := None; lastData := None |}
                  {| raw := str ""; command := str "70";
                     data := str "001000e6000a0064780300000000000000" |})
           ChargerMode.OnePhase).
  reflexivity.
Defined.

(** X24. The electrical readings follow the mode: in one-phase mode only
    [electricCurrent] and [voltage] are present, in three-phase mode only
    the six per-phase readings, and for any other mode none of them and
    none of the gated fields, the common readings then starting at
    character 0. *)
Theorem realtime_mode_fields (mode : number) (result : jstring) :
  let d := decodeRealTimeData mode result in
  (mode = ChargerMode.OnePhase ->
     electricCurrent d = Some (parseInt (substring result 0 4) 16)
     /\ voltage d = Some (parseInt (substring result 4 8) 16)
     /\ electricCurrentA d = None /\ electricCurrentB d = None
     /\ electricCurrentC d = None
     /\ voltageA d = None /\ voltageB d = None /\ voltageC d = None)
  /\ (mode = ChargerMode.ThreePhase ->
        electricCurrent d = None /\ voltage d = None
        /\ electricCurrentA d = Some (parseInt (substring result 0 2) 16)
        /\ electricCurrentB d = Some (parseInt (substring result 2 4) 16)
        /\ electricCurrentC d = Some (parseInt (substring result 4 6) 16)
        /\ voltageA d = Some (parseInt (substring result 6 10) 16)
        /\ voltageB d = Some (parseInt (substring result 10 14) 16)
        /\ voltageC d = Some (parseInt (substring result 14 18) 16))
  /\ (strict_eq mode ChargerMode.OnePhase = false ->
      strict_eq mode ChargerMode.ThreePhase = false ->
        electricCurrent d = None /\ voltage d = None
        /\ electricCurrentA d = None /\ electricCurrentB d = None
        /\ electricCurrentC d = None
        /\ voltageA d = None /\ voltageB d = None /\ voltageC d = None
        /\ maxCurrent d = None /\ maxPower d = None /\ isReservation d = None
        /\ isMaximum d = None /\ isExtremeMode d = None
        /\ power d = div10 (parseInt (substring result 0 4) 16)
        /\ temperature d
           = sub (parseInt (substring result 8 10) 16) (Int 100)).
Proof.
  cbv zeta. split; [|split].
  - intros ->. unfold decodeRealTimeData, Cursor.run, read_realtime, read_phase,
      read_common, read_timed, read_time.
    cbn [Cursor.bind Cursor.ret Cursor.hex Cursor.peek Cursor.advance
         Cursor.len fst snd strict_eq Z.eqb Pos.eqb
         ChargerMode.OnePhase ChargerMode.ThreePhase].
    destruct (36 <=? length result), (42 <=? length result),
      (44 <=? length result); repeat split; reflexivity.
  - intros ->. unfold decodeRealTimeData, Cursor.run, read_realtime, read_phase,
      read_common, read_timed, read_time.
    cbn [Cursor.bind Cursor.ret Cursor.hex Cursor.peek Cursor.advance
         Cursor.len fst snd strict_eq Z.eqb Pos.eqb
         ChargerMode.OnePhase ChargerMode.ThreePhase].
    destruct (46 <=? length result), (52 <=? length result),
      (54 <=? length result); repeat split; reflexivity.
  - intros H1 H3. unfold decodeRealTimeData, Cursor.run, read_realtime,
      read_phase, read_common, read_timed, read_time.
    unfold Cursor.bind at 1. unfold Cursor.bind at 1. unfold Cursor.len at 1.
    rewrite H1, H3. repeat split; reflexivity.
Qed.

Lemma realtime_mode_fields_witness :
  let d := decodeRealTimeData NaN (str "000a0064780200") in
  electricCurrent d = None /\ voltage d = None
  /\ electricCurrentA d = None /\ electricCurrentB d = None
  /\ electricCurrentC d = None
  /\ voltageA d = None /\ voltageB d = None /\ voltageC d = None
  /\ maxCurrent d = None /\ maxPower d = None /\ isReservation d = None
  /\ isMaximum d = None /\ isExtremeMode d = None
  /\ power d = div10 (parseInt (substring (str "000a0064780200") 0 4) 16)
  /\ temperature d
     = sub (parseInt (substring (str "000a0064780200") 8 10) 16) (Int 100).
Proof.
  apply (proj2 (proj2 (realtime_mode_fields NaN (str "000a0064780200"))));
    reflexivity.
Defined.

End Decoders.

(* ------------------------------------------------------------------ *)
(** ** More on the command session *)
(* ------------------------------------------------------------------ *)

Section SessionMore.

Import Session.

Lemma step_keeps_settled (w : waiter) (e : event) :
  outcome w <> Pending -> outcome (step w e) = outcome w.
Proof.
  intros Hw. destruct e as [msg| |[err|]]; simpl.
  - destruct (listening w); [|reflexivity]. unfold onMessage.
    destruct (CommandUtil.parseResult msg) as [r|]; [|reflexivity].
    destruct (negb (matches w r)); [reflexivity|]. simpl.
    destruct (outcome w); [congruence|reflexivity|reflexivity].
  - destruct (timer w); [|reflexivity]. simpl.
    destruct (outcome w); [congruence|reflexivity|reflexivity].
  - destruct (outcome w); [congruence|reflexivity|reflexivity].
  - reflexivity.
Qed.

Lemma failure_stays (w : waiter) (evs : list event) (e : error) :
  outcome w = Failed e -> outcome (run w evs) = Failed e.
Proof.
  revert w. induction evs as [|ev evs IH]; intros w Hw; [exact Hw|].
  simpl. apply IH. rewrite step_keeps_settled; [exact Hw|].
  rewrite Hw. discriminate.
Qed.

(** X26. One datagram reaches every waiter on the socket and each decides
    for itself: a malformed datagram changes none of them; a valid frame
    leaves every waiter for another response code as it was, and resolves
    every pending, listening waiter that accepts it with the parsed frame,
    removing its listener. *)
Theorem deliver_each_waiter (ws : list waiter) (msg : jstring) :
  (CommandUtil.parseResult msg = None -> deliver ws msg = ws)
  /\ (forall result,
        CommandUtil.parseResult msg = Some result ->
        List.length (deliver ws msg) = List.length ws
        /\ forall i w, nth_error ws i = Some w ->
             exists w', nth_error (deliver ws msg) i = Some w'
               /\ (resultCode w <> command result -> w' = w)
               /\ (listening w = true -> outcome w = Pending ->
                   matches w result = true ->
                   outcome w' = Resolved result /\ listening w' = false)).
Proof.
  split.
  - intros Hn. unfold deliver. rewrite <- (map_id ws) at 2.
    apply map_ext. intros w. simpl. unfold onMessage. rewrite Hn.
    destruct (listening w); reflexivity.
  - intros result Hr. split; [apply length_map|].
    intros i w Hi. unfold deliver.
    exists (step w (Message msg)).
    split; [exact (map_nth_error (fun x => step x (Message msg)) i ws Hi)|].
    simpl. unfold onMessage. rewrite Hr. split.
    + intros Hc. destruct (listening w); [|reflexivity].
      unfold matches. apply string_eqb_neq in Hc.
      assert (E : string_eqb (command result) (resultCode w) = false).
      { apply string_eqb_neq. apply string_eqb_neq in Hc. congruence. }
      rewrite E. reflexivity.
    + intros Hl Ho Hm. rewrite Hl, Hm. simpl. rewrite Ho. auto.
Qed.

Lemma deliver_each_waiter_witness :
  let w1 := {| resultCode := str "6e"; resultTester := None;
               listening := true; timer := true; outcome := Pending |} in
  let w2 := {| resultCode := str "70"; resultTester := None;
               listening := true; timer := true; outcome := Pending |} in
  deliver [w1; w2] (str "garbage") = [w1; w2]
  /\ (List.length (deliver [w1; w2] (str "55aa0001056e0073"))
      = List.length [w1; w2]
      /\ forall i w, nth_error [w1; w2] i = Some w ->
           exists w', nth_error (deliver [w1; w2] (str "55aa0001056e0073")) i
                      = Some w'
             /\ (resultCode w <> command {| raw := str "55aa0001056e0073";
                                            command := str "6e";
                                            data := str "0073" |} -> w' = w)
             /\ (listening w = true -> outcome w = Pending ->
                 matches w {| raw := str "55aa0001056e0073";
                              command := str "6e"; data := str "0073" |}
                 = true ->
                 outcome w' = Resolved {| raw := str "55aa0001056e0073";
                                          command := str "6e";
                                          data := str "0073" |}
                 /\ listening w' = false)).
Proof.
  cbv zeta. split.
  - apply (proj1 (deliver_each_waiter _ (str "garbage"))). reflexivity.
  - apply (proj2 (deliver_each_waiter _ (str "55aa0001056e0073"))).
    reflexivity.
Defined.

(** X27. A failing send rejects the waiter with the transport error at
    once, and that error stays whatever follows, the timer included; the
    failure itself does not remove the listener. *)
Theorem send_failure_rejects (resultTimeout : Z) (command : jstring)
    (waitForResult : wait_arg) (resultTester : option (ParsedMessage -> bool))
    (w0 : waiter) (err : jstring) (before after : list event) :
  sendCommand resultTimeout command waitForResult resultTester = Some w0 ->
  forallb (quiet w0) before = true ->
  outcome (run w0 (before ++ SendDone (Some err) :: after))
  = Failed (TransportError err)
  /\ listening (run w0 (before ++ [SendDone (Some err)])) = true.
Proof.
  intros Hs Hq.
  assert (H0 : listening w0 = true /\ outcome w0 = Pending).
  { unfold sendCommand in Hs.
    destruct waitForResult; inversion Hs; subst; auto. }
  destruct H0 as [Hl Ho].
  unfold run. rewrite !fold_left_app.
  fold (run w0 before). rewrite run_quiet by assumption.
  cbn [fold_left]. split.
  - fold (run (step w0 (SendDone (Some err))) after).
    apply failure_stays. simpl. rewrite Ho. reflexivity.
  - simpl. exact Hl.
Qed.

Lemma send_failure_rejects_witness :
  let w0 := {| resultCode := str "6e"; resultTester := None;
               listening := true; timer := true; outcome := Pending |} in
  outcome (run w0 ([Message (str "garbage")]
                   ++ SendDone (Some (str "ENETUNREACH"))
                      :: [TimerFires; Message (str "55aa0001056e0073")]))
  = Failed (TransportError (str "ENETUNREACH"))
  /\ listening (run w0 ([Message (str "garbage")]
                        ++ [SendDone (Some (str "ENETUNREACH"))])) = true.
Proof.
  apply (send_failure_rejects 1000 (str "6e") WaitOwn None _
           (str "ENETUNREACH") [Message (str "garbage")]
           [TimerFires; Message (str "55aa0001056e0073")] eq_refl).
  reflexivity.
Defined.

End SessionMore.

(* ------------------------------------------------------------------ *)
(** ** The timed charge window and the model query *)
(* ------------------------------------------------------------------ *)

Section TimedChargeAndModel.

Import ChargerController.
Implicit Types s result : jstring.

Lemma time_value_small_all :
  time_value_small [] = true
  /\ forallb (fun x : ascii => time_value_small [x]) all_ascii = true
  /\ forallb (fun x : ascii =>
                forallb (fun y : ascii => time_value_small [x; y]) all_ascii)
       all_ascii = true.
Proof. vm_compute. auto. Qed.

Lemma time_number_small (t : jstring) (a : Z) :
  exists v, time_number t a (a + 2) = Int v /\ -9 <= v <= 99.
Proof.
  unfold time_number.
  pose proof (substring_short t a (a + 2)) as H.
  replace (Z.to_nat (Z.abs (a + 2 - a))) with 2%nat in H by lia.
  destruct time_value_small_all as (H0 & H1 & H2).
  rewrite forallb_forall in H1, H2.
  assert (G : time_value_small (substring t a (a + 2)) = true).
  { destruct (substring t a (a + 2)) as [|c [|d [|e r]]].
    - exact H0.
    - apply (H1 c), all_ascii_complete.
    - specialize (H2 c (all_ascii_complete c)). rewrite forallb_forall in H2.
      apply (H2 d), all_ascii_complete.
    - simpl in H. lia. }
  unfold time_value_small in G.
  destruct (parseInt (substring t a (a + 2)) 10) as [|b|z].
  - exists 0. split; [reflexivity|lia].
  - discriminate.
  - apply andb_true_iff in G as [G1 G2].
    apply Z.leb_le in G1. apply Z.leb_le in G2.
    exists z. split; [destruct z; reflexivity|lia].
Qed.

Lemma time_in_seconds_int (t : jstring) :
  exists v, time_in_seconds t = Int v /\ -33480 <= v <= 368280.
Proof.
  unfold time_in_seconds.
  destruct (time_number_small t 0) as (h & Eh & Hh).
  destruct (time_number_small t 3) as (m & Em & Hm).
  destruct (time_number_small t 6) as (x & Ex & Hx).
  change (0 + 2) with 2 in Eh. change (3 + 2) with 5 in Em.
  change (6 + 2) with 8 in Ex.
  rewrite Eh, Em, Ex. cbn [mul add]. eexists. split; [reflexivity|lia].
Qed.

(** The loop only adds whole days, and with enough rounds it ends at or
    after the start, at a time that is not negative. *)
Lemma toInSeconds_loop_int (fuel : nat) (f t : Z) :
  exists r, toInSeconds_loop fuel (Int f) (Int t) = Int r
    /\ t <= r <= t + 86400 * Z.of_nat fuel
    /\ (Z.max 0 f <= t + 86400 * Z.of_nat fuel -> 0 <= r /\ f <= r).
Proof.
  revert t. induction fuel as [|n IH]; intros t.
  - exists t. simpl. split; [reflexivity|]. split; lia.
  - cbn [toInSeconds_loop lt add].
    destruct (Z.ltb_spec t 0), (Z.ltb_spec t f); cbn [orb];
      try (destruct (IH (t + 86400)) as (r & Er & Hr & Hx);
           exists r; split; [exact Er|]; split; lia).
    exists t. split; [reflexivity|]. split; lia.
Qed.

(** X28. For a valid time of day and any two time strings the start and
    the end of [sendSetTimedChargeState] are integers and the loop that
    moves the end by whole days stops: the end is not negative and not
    before the start.  When the start string holds no negative part the
    start is not negative either, and whenever the start is not negative
    the request has exactly 36 characters. *)
Theorem timedCharge_window (now : CommandUtil.clock)
    (fromTime toTime : jstring) :
  valid_clock now ->
  exists f t,
    fromInSeconds now fromTime = Int f
    /\ toInSeconds now fromTime toTime = Int t
    /\ 0 <= t /\ f <= t
    /\ (lt (time_in_seconds fromTime) (Int 0) = false -> 0 <= f)
    /\ (0 <= f ->
          length (sendSetTimedChargeState_request now fromTime toTime) = 36).
Proof.
  intros (_ & _ & _ & Hh & Hm & Hs).
  destruct (time_in_seconds_int fromTime) as (sf & Esf & Hsf).
  destruct (time_in_seconds_int toTime) as (st & Est & Hst).
  set (n := CommandUtil.getHours now * 3600 + CommandUtil.getMinutes now * 60
            + CommandUtil.getSeconds now).
  assert (Hn : 0 <= n <= 86399) by (unfold n; lia).
  assert (Ef : exists f, fromInSeconds now fromTime = Int f
                 /\ -119879 <= f <= 368280
                 /\ (0 <= sf -> 0 <= f)).
  { unfold fromInSeconds, nowInSeconds. fold n. rewrite Esf. cbn [sub lt].
    destruct (Z.ltb_spec (sf - n) 0); cbn [add];
      eexists; (split; [reflexivity|]); split; lia. }
  destruct Ef as (f & Ef & Hf & Hf0).
  assert (Et : exists t, toInSeconds now fromTime toTime = Int t
                 /\ 0 <= t /\ f <= t /\ t < 16 ^ 8).
  { unfold toInSeconds, nowInSeconds. fold n. rewrite Ef, Est. cbn [sub].
    destruct (toInSeconds_loop_int 8 f (st - n)) as (r & Er & Hr & Hx).
    exists r. split; [exact Er|].
    change (Z.of_nat 8) with 8 in *.
    destruct Hx as [Hx1 Hx2]; [lia|].
    split; [exact Hx1|]. split; [exact Hx2|]. simpl. lia. }
  destruct Et as (t & Et & Ht0 & Hft & Ht8).
  exists f, t. split; [exact Ef|]. split; [exact Et|].
  split; [exact Ht0|]. split; [exact Hft|]. split.
  - rewrite Esf. cbn [lt]. intros H. apply Z.ltb_ge in H. auto.
  - intros Hf1. unfold sendSetTimedChargeState_request. rewrite Ef, Et.
    unfold toString at 1 2.
    destruct (Z.ltb_spec f 0); [lia|]. destruct (Z.ltb_spec t 0); [lia|].
    pose proof (time_part_length fromTime 0) as A1.
    pose proof (time_part_length fromTime 3) as A2.
    pose proof (time_part_length fromTime 6) as A3.
    pose proof (time_part_length toTime 0) as B1.
    pose proof (time_part_length toTime 3) as B2.
    pose proof (time_part_length toTime 6) as B3.
    change (0 + 2) with 2 in *. change (3 + 2) with 5 in *.
    change (6 + 2) with 8 in *.
    destruct (byte_toString (CommandUtil.getHours now)) as [C1 _]; [lia|].
    destruct (byte_toString (CommandUtil.getMinutes now)) as [C2 _]; [lia|].
    destruct (byte_toString (CommandUtil.getSeconds now)) as [C3 _]; [lia|].
    rewrite !length_app, A1, A2, A3, B1, B2, B3, C1, C2, C3.
    rewrite !padded_digits_length by (simpl; lia).
    reflexivity.
Qed.

Lemma timedCharge_window_witness :
  exists f t,
    fromInSeconds
      {| CommandUtil.getFullYear := 2024; CommandUtil.getMonth := 1;
         CommandUtil.getDate := 29; CommandUtil.getHours := 23;
         CommandUtil.getMinutes := 30; CommandUtil.getSeconds := 0 |}
      (str "22:00") = Int f
    /\ toInSeconds
         {| CommandUtil.getFullYear := 2024; CommandUtil.getMonth := 1;
            CommandUtil.getDate := 29; CommandUtil.getHours := 23;
            CommandUtil.getMinutes := 30; CommandUtil.getSeconds := 0 |}
         (str "22:00") (str "05:00") = Int t
    /\ 0 <= t /\ f <= t
    /\ (lt (time_in_seconds (str "22:00")) (Int 0) = false -> 0 <= f)
    /\ (0 <= f ->
          length (sendSetTimedChargeState_request
                    {| CommandUtil.getFullYear := 2024;
                       CommandUtil.getMonth := 1;
                       CommandUtil.getDate := 29; CommandUtil.getHours := 23;
                       CommandUtil.getMinutes := 30;
                       CommandUtil.getSeconds := 0 |}
                    (str "22:00") (str "05:00")) = 36).
Proof.
  apply (timedCharge_window
           {| CommandUtil.getFullYear := 2024; CommandUtil.getMonth := 1;
              CommandUtil.getDate := 29; CommandUtil.getHours := 23;
              CommandUtil.getMinutes := 30; CommandUtil.getSeconds := 0 |}
           (str "22:00") (str "05:00")).
  unfold valid_clock; simpl; lia.
Defined.

(** X29. The model query teaches the mode that the real-time decoder
    needs: after a fulfilled [sendGetChargerModel] a fulfilled
    [sendGetRealTimeData] no longer fails and decodes with the mode read
    from the first four characters of the model data.  For model data of
    at least 50 hexadecimal digits the firmware version is the decimal
    value of byte 22, a dot, and the decimal value of byte 23 in at least
    two digits, and the hardware version is the decimal value of byte
    24. *)
Theorem chargerModel_enables_realtime (decodeString : jstring -> jstring)
    (c : t) (r1 r2 : ParsedMessage) :
  let c1 := snd (sendGetChargerModel decodeString c (Fulfilled r1)) in
  let model := decodeChargerModel decodeString (data r1) in
  fst (sendGetRealTimeData c1 (Fulfilled r2))
  = Fulfilled (decodeRealTimeData (parseInt (substring (data r1) 0 4) 16)
                 (data r2))
  /\ (hex_string (data r1) -> 50 <= length (data r1) ->
        firmwareVersion model
        = digits 10 (nth 22 (byte_values (data r1)) 0) ++ str "."
          ++ padStart (digits 10 (nth 23 (byte_values (data r1)) 0)) 2 "0"%char
        /\ hardwareVersion model
           = digits 10 (nth 24 (byte_values (data r1)) 0)).
Proof.
  cbv zeta. split; [reflexivity|].
  intros Hh Hl. unfold decodeChargerModel; cbn [firmwareVersion hardwareVersion].
  destruct (hex_byte_at (data r1) 22 Hh ltac:(simpl; lia)) as [E22 R22].
  destruct (hex_byte_at (data r1) 23 Hh ltac:(simpl; lia)) as [E23 R23].
  destruct (hex_byte_at (data r1) 24 Hh ltac:(simpl; lia)) as [E24 R24].
  change (2 * Z.of_nat 22) with 44 in E22. change (44 + 2) with 46 in E22.
  change (2 * Z.of_nat 23) with 46 in E23. change (46 + 2) with 48 in E23.
  change (2 * Z.of_nat 24) with 48 in E24. change (48 + 2) with 50 in E24.
  rewrite E22, E23, E24. unfold toString.
  destruct (Z.ltb_spec (nth 22 (byte_values (data r1)) 0) 0); [lia|].
  destruct (Z.ltb_spec (nth 23 (byte_values (data r1)) 0) 0); [lia|].
  destruct (Z.ltb_spec (nth 24 (byte_values (data r1)) 0) 0); [lia|].
  split; reflexivity.
Qed.

Lemma chargerModel_enables_realtime_witness :
  let r1 := {| raw := str ""; command := str "04";
               data := str "00015a2d426f7800000000000000000000000000000000010a03" |} in
  let model := decodeChargerModel (fun x => x) (data r1) in
  firmwareVersion model
  = digits 10 (nth 22 (byte_values (data r1)) 0) ++ str "."
    ++ padStart (digits 10 (nth 23 (byte_values (data r1)) 0)) 2 "0"%char
  /\ hardwareVersion model = digits 10 (nth 24 (byte_values (data r1)) 0).
Proof.
  apply (proj2 (chargerModel_enables_realtime (fun x => x) (create None)
                  {| raw := str ""; command := str "04";
                     data := str "00015a2d426f7800000000000000000000000000000000010a03" |}
                  {| raw := str ""; command := str "70"; data := str "" |})).
  - repeat constructor.
  - vm_compute; discriminate.
Defined.

End TimedChargeAndModel.

Section RecordsWitness.

Import ChargerController.

Lemma consumptionRecords_shape_witness :
  let r := decodePowerConsumptionRecords (str "000a00ffzz") in
  List.length (r_days r) = 20%nat
  /\ List.length (months r) = 12%nat
  /\ List.length (years r)
     = (if 130 <=? length (str "000a00ffzz") then 10%nat else 0%nat)
  /\ Forall finite (r_days r) /\ Forall finite (months r)
  /\ Forall is_number (years r)
  /\ (forall i, (i < 20)%nat ->
        nth i (r_days r) RNaN
        = div10 (or_else (hex_field (str "000a00ffzz") (4 * Z.of_nat i)
                            (4 * Z.of_nat i + 4)) (Int 0)))
  /\ (forall i, (i < 12)%nat ->
        nth i (months r) RNaN
        = div10 (or_else (hex_field (str "000a00ffzz") (80 + 4 * Z.of_nat i)
                            (80 + 4 * Z.of_nat i + 4)) (Int 0)))
  /\ (forall i, (i < 10)%nat -> 130 <= length (str "000a00ffzz") ->
        nth i (years r) NaN
        = or_else (hex_field (str "000a00ffzz") (128 + 4 * Z.of_nat i)
                     (128 + 4 * Z.of_nat i + 4)) (Int 0)).
Proof. exact (consumptionRecords_shape (str "000a00ffzz")). Defined.

End RecordsWitness.

(* ------------------------------------------------------------------ *)
(** ** The fault status, byte by byte *)
(* ------------------------------------------------------------------ *)

Section FaultStatusValues.

Import ChargerController.

(** C3. Each of the twelve flags is [parseInt(..., 16) !== 0] of its own
    two characters, so the flags depend on the first 24 characters only,
    and on a payload of hexadecimal digits flag [k] is set exactly when
    byte [k] is not zero; [sticking] and [contactor] are present exactly
    when the payload has at least 26 characters, and are then decoded the
    same way from bytes 12 and 13; a payload of 24 characters gives the
    twelve flags alone, and followed by ['0101'] it gives the same flags
    with [sticking] and [contactor] both true. *)
Theorem faultStatus_decoding (result : jstring) :
  flags12 (decodeFaultStatus result)
  = map (fun k => negb (strict_eq
                          (parseInt (substring result (2 * k) (2 * k + 2)) 16)
                          (Int 0)))
      [0; 1; 2; 3; 4; 5; 6; 7; 8; 9; 10; 11]
  /\ flags12 (decodeFaultStatus result)
     = flags12 (decodeFaultStatus (substring result 0 24))
  /\ (hex_string result -> 24 <= length result ->
        forall k, (k < 12)%nat ->
          nth k (flags12 (decodeFaultStatus result)) false
          = negb (nth k (byte_values result) 0 =? 0))
  /\ (sticking (decodeFaultStatus result) <> None <-> 26 <= length result)
  /\ (contactor (decodeFaultStatus result) <> None <-> 26 <= length result)
  /\ (hex_string result -> 28 <= length result ->
        sticking (decodeFaultStatus result)
        = Some (negb (nth 12 (byte_values result) 0 =? 0))
        /\ contactor (decodeFaultStatus result)
           = Some (negb (nth 13 (byte_values result) 0 =? 0)))
  /\ (length result = 24 ->
        sticking (decodeFaultStatus result) = None
        /\ contactor (decodeFaultStatus result) = None
        /\ flags12 (decodeFaultStatus (result ++ str "0101"))
           = flags12 (decodeFaultStatus result)
        /\ sticking (decodeFaultStatus (result ++ str "0101")) = Some true
        /\ contactor (decodeFaultStatus (result ++ str "0101")) = Some true).
Proof.
  split; [reflexivity|]. split; [|split; [|split; [|split; [|split]]]].
  - unfold flags12, decodeFaultStatus; cbn [overVoltage underVoltage overload
      highTemperature groundDetection leakage cpSignalAbnormal
      emergencyStopButton ccSignalAbnormal dlbWiring dlbOffline motorLock].
    rewrite !(fault_flag_prefix result 24) by lia. reflexivity.
  - intros Hh Hl k Hk.
    assert (G : nth k (flags12 (decodeFaultStatus result)) false
                = fault_flag result (2 * Z.of_nat k) (2 * Z.of_nat k + 2)).
    { do 12 (destruct k as [|k]; [reflexivity|]). lia. }
    rewrite G. unfold fault_flag.
    destruct (hex_byte_at result k Hh ltac:(lia)) as [-> _]. reflexivity.
  - unfold decodeFaultStatus; cbn [sticking].
    destruct (Z.leb_spec 26 (length result)); split; intros; congruence || lia.
  - unfold decodeFaultStatus; cbn [contactor].
    destruct (Z.leb_spec 26 (length result)); split; intros; congruence || lia.
  - intros Hh Hl.
    destruct (hex_byte_at result 12 Hh) as [E12 _];
      [change (2 * Z.of_nat 12 + 2) with 26; lia|].
    destruct (hex_byte_at result 13 Hh) as [E13 _];
      [change (2 * Z.of_nat 13 + 2) with 28; lia|].
    change (2 * Z.of_nat 12) with 24 in E12. change (24 + 2) with 26 in E12.
    change (2 * Z.of_nat 13) with 26 in E13. change (26 + 2) with 28 in E13.
    unfold decodeFaultStatus; cbn [sticking contactor].
    destruct (Z.leb_spec 26 (length result)); [|lia].
    unfold fault_flag. rewrite E12, E13. split; reflexivity.
  - intros H24.
    assert (H28 : length (result ++ str "0101") = 28)
      by (rewrite length_app, H24; reflexivity).
    unfold flags12, decodeFaultStatus; cbn [overVoltage underVoltage overload
      highTemperature groundDetection leakage cpSignalAbnormal
      emergencyStopButton ccSignalAbnormal dlbWiring dlbOffline motorLock
      sticking contactor].
    rewrite H24, H28. change (26 <=? 24) with false. change (26 <=? 28) with true.
    cbv iota.
    split; [reflexivity|]. split; [reflexivity|]. split; [|split].
    + rewrite !(fault_flag_app_l result) by lia. reflexivity.
    + rewrite fault_flag_app_r by (rewrite H24; change (length (str "0101")) with 4; lia).
      rewrite H24. reflexivity.
    + rewrite fault_flag_app_r by (rewrite H24; change (length (str "0101")) with 4; lia).
      rewrite H24. reflexivity.
Qed.

Lemma faultStatus_decoding_witness :
  (nth 0 (flags12 (decodeFaultStatus (str "000100000000010000000000"))) false
   = negb (nth 0 (byte_values (str "000100000000010000000000")) 0 =? 0)
   /\ nth 1 (flags12 (decodeFaultStatus (str "000100000000010000000000"))) false
      = negb (nth 1 (byte_values (str "000100000000010000000000")) 0 =? 0))
  /\ (sticking (decodeFaultStatus (str "0000000000000000000000000001"))
      = Some (negb (nth 12 (byte_values (str "0000000000000000000000000001")) 0
                    =? 0))
      /\ contactor (decodeFaultStatus (str "0000000000000000000000000001"))
         = Some (negb (nth 13 (byte_values (str "0000000000000000000000000001"))
                         0 =? 0)))
  /\ (sticking (decodeFaultStatus (str "000100000000010000000000")) = None
      /\ contactor (decodeFaultStatus (str "000100000000010000000000")) = None
      /\ flags12 (decodeFaultStatus (str "000100000000010000000000" ++ str "0101"))
         = flags12 (decodeFaultStatus (str "000100000000010000000000"))
      /\ sticking (decodeFaultStatus (str "000100000000010000000000" ++ str "0101"))
         = Some true
      /\ contactor (decodeFaultStatus (str "000100000000010000000000" ++ str "0101"))
         = Some true).
Proof.
  split; [split|split].
  - apply (proj1 (proj2 (proj2
             (faultStatus_decoding (str "000100000000010000000000"))))).
    + repeat constructor.
    + vm_compute; discriminate.
    + lia.
  - apply (proj1 (proj2 (proj2
             (faultStatus_decoding (str "000100000000010000000000"))))).
    + repeat constructor.
    + vm_compute; discriminate.
    + lia.
  - apply (proj1 (proj2 (proj2 (proj2 (proj2 (proj2
             (faultStatus_decoding (str "0000000000000000000000000001")))))))).
    + repeat constructor.
    + vm_compute; discriminate.
  - apply (proj2 (proj2 (proj2 (proj2 (proj2 (proj2
             (faultStatus_decoding (str "000100000000010000000000")))))))).
    reflexivity.
Defined.

End FaultStatusValues.

(* ------------------------------------------------------------------ *)
(** ** The waiting window of a command *)
(* ------------------------------------------------------------------ *)

Section WaitingWindow.

Import Session.




End WaitingWindow.
